(** * Two exploratory notebooks: the OOB-error sweep and the balance-scale
      experiments

    The repository holds two Jupyter notebooks, [plot_ensemble_oob.ipynb] and
    [SoGe 2.ipynb].  Both are straight-line scripts around scikit-learn,
    pandas and matplotlib.  The library is not part of the repository, so a
    notebook is embedded as a program that {e issues} library calls; what the
    library answers is supplied from outside by a handler.  Running a program
    against a handler gives the value the script ends with (or the exception
    that stopped it) together with the list of library calls it made. *)

From Stdlib Require Import List ZArith QArith String Bool Lia Lqa Sorted.
From ExtLib Require Import Structures.Monad.
Import ListNotations.
Import MonadNotation.

Local Open Scope Z_scope.
Local Open Scope monad_scope.

Set Implicit Arguments.

(** ** Python values *)

(** Exceptions, by class. *)
Inductive exn : Type :=
| FileNotFoundError
| ParserError
| ValueError
| AttributeError
| KeyError
| IndexError
| NotFittedError
| ImportError
| LibraryError (msg : string).

Inductive result (A : Type) : Type :=
| Ok (a : A)
| Err (e : exn).
Arguments Ok {A} a.
Arguments Err {A} e.

(** Keyword arguments of a constructor or of a call, as written. *)
Inductive pyval : Type :=
| PNone
| PBool (b : bool)
| PInt (z : Z)
| PStr (s : string).

Definition kwargs := list (string * pyval).

Fixpoint kw_get (k : string) (kw : kwargs) : option pyval :=
  match kw with
  | [] => None
  | (k', v) :: kw' => if String.eqb k k' then Some v else kw_get k kw'
  end.

(** [obj.set_params(k=v)]: overwrite the parameter, or add it. *)
Fixpoint kw_set (k : string) (v : pyval) (kw : kwargs) : kwargs :=
  match kw with
  | [] => [(k, v)]
  | (k', v') :: kw' =>
      if String.eqb k k' then (k, v) :: kw' else (k', v') :: kw_set k v kw'
  end.

(** A table cell.  Python floats are carried as rationals. *)
Inductive cell : Type :=
| CInt (z : Z)
| CFloat (q : Q)
| CStr (s : string)
| CNaN.

Definition vector := list cell.
Definition matrix := list (list cell).

(** A pandas frame: the column labels and the rows.  The row index is left
    out: no statement of either notebook reads it, and scikit-learn ignores
    it. *)
Record DataFrame : Type := mkDataFrame {
  columns : list string;
  values : matrix
}.

(** [b == 'B'] *)
Definition cell_eq_str (c : cell) (s : string) : bool :=
  match c with
  | CStr s' => String.eqb s' s
  | _ => false
  end.

(** [b == 0] *)
Definition cell_eq_int (c : cell) (z : Z) : bool :=
  match c with
  | CInt z' => Z.eqb z' z
  | CFloat q => Qeq_bool q (inject_Z z)
  | _ => false
  end.

(** What a [print] or a cell's last expression puts on the screen. *)
Inductive rendered : Type :=
| RText (s : string)
| RNumber (q : Q)
| RVector (v : vector)
| RFrame (df : DataFrame)
| RCounts (l : list (cell * Z)).

(** ** Library calls *)

Section Library.

(** The fitted state of an estimator is opaque to the scripts. *)
Variable Model : Type.

(** An estimator object: its class, the parameters it was built with, and
    the fitted state once [fit] has run. *)
Record estimator : Type := mkEstimator {
  cls : string;
  params : kwargs;
  fitted : option Model
}.

Definition new_estimator (c : string) (kw : kwargs) : estimator :=
  {| cls := c; params := kw; fitted := None |}.

Definition set_params (clf : estimator) (k : string) (v : pyval) : estimator :=
  {| cls := cls clf; params := kw_set k v (params clf); fitted := fitted clf |}.

Definition with_fitted (clf : estimator) (m : Model) : estimator :=
  {| cls := cls clf; params := params clf; fitted := Some m |}.

(** What a call can put in a file: a fitted estimator ([joblib.dump],
    [pickle.dump]), a frame ([DataFrame.to_csv]), a number written out, or
    the current figure ([plt.savefig]). *)
Inductive stored : Type :=
| SModel (clf : estimator)
| SFrame (df : DataFrame)
| SNumber (q : Q)
| SFigure.

(** The calls the two notebooks make, indexed by the type of the answer.
    The last one, [Store], is a call that neither notebook makes: it stands
    for the libraries' ways of writing to a file, and is there so that
    "nothing is stored" says something about a run. *)
Inductive libop : Type -> Type :=
| Print (r : rendered) : libop unit
| Display (r : rendered) : libop unit
| MakeClassification (kw : kwargs) : libop (matrix * vector)
| Fit (clf : estimator) (X : matrix) (y : vector) : libop Model
| Predict (clf : estimator) (X : matrix) : libop vector
| PredictProba (clf : estimator) (X : matrix) : libop (list (list Q))
| ReadCsv (path : string) (names : list string) : libop DataFrame
| Resample (df : DataFrame) (kw : kwargs) : libop DataFrame
| ValueCounts (s : vector) : libop (list (cell * Z))
| NpUnique (v : vector) : libop vector
| AccuracyScore (y_true y_pred : vector) : libop Q
| RocAucScore (y_true : vector) (y_score : list Q) : libop Q
| PltPlot (xs : list Z) (ys : list Q) (label : string) : libop unit
| PltXlim (lo hi : Z) : libop unit
| PltXlabel (s : string) : libop unit
| PltYlabel (s : string) : libop unit
| PltLegend (loc : string) : libop unit
| PltShow : libop unit
| Store (path : string) (what : stored) : libop unit.

(** A script: it returns, raises, calls the library and goes on with the
    answer, or guards a block with [try: body except Exception as e:
    handler e] and goes on with what either of them leaves.  Neither
    notebook has a [try] statement; [Try] is there so that this is a
    property of the two scripts and not of the language. *)
Inductive prog (A : Type) : Type :=
| Ret (a : A)
| Throw (e : exn)
| Call (X : Type) (op : libop X) (k : X -> prog A)
| Try (X : Type) (body : prog X) (handler : exn -> prog X) (k : X -> prog A).
Arguments Ret {A} a.
Arguments Throw {A} e.
Arguments Call {A X} op k.
Arguments Try {A X} body handler k.

Fixpoint pbind {A B : Type} (p : prog A) (f : A -> prog B) : prog B :=
  match p with
  | Ret a => f a
  | Throw e => Throw e
  | Call op k => Call op (fun x => pbind (k x) f)
  | Try body handler k => Try body handler (fun x => pbind (k x) f)
  end.

#[export] Instance Monad_prog : Monad prog :=
  {| ret := fun _ a => Ret a; bind := fun _ _ p f => pbind p f |}.

Definition call {X : Type} (op : libop X) : prog X := Call op (fun x => Ret x).

(** One library call with its outcome, as it happened. *)
Inductive event : Type :=
| Ev (X : Type) (op : libop X) (r : result X).
Arguments Ev {X} op r.

Definition handler := forall X : Type, libop X -> result X.

(** Run a script against a library.  An exception ends the run at once. *)
Fixpoint run (h : handler) {A : Type} (p : prog A) : result A * list event :=
  match p with
  | Ret a => (Ok a, [])
  | Throw e => (Err e, [])
  | Call op k =>
      match h _ op with
      | Ok x => let (r, t) := run h (k x) in (r, Ev op (Ok x) :: t)
      | Err e => (Err e, [Ev op (Err e)])
      end
  | Try body handler k =>
      match run h body with
      | (Ok x, t) => let (r, t') := run h (k x) in (r, t ++ t')
      | (Err e, t) =>
          match run h (handler e) with
          | (Ok x, t1) => let (r, t2) := run h (k x) in (r, t ++ t1 ++ t2)
          | (Err e', t1) => (Err e', t ++ t1)
          end
      end
  end.


(** ** Python and pandas helpers used by the scripts *)

Definition lift {A : Type} (r : result A) : prog A :=
  match r with
  | Ok a => Ret a
  | Err e => Throw e
  end.

(** [for a in l: body], with the variables the body updates passed along. *)
Fixpoint for_each {A S : Type} (l : list A) (body : A -> S -> prog S) (s : S)
  : prog S :=
  match l with
  | [] => ret s
  | a :: l' => s' <- body a s ;; for_each l' body s'
  end.

(** [range(lo, hi)] *)
Definition range (lo hi : Z) : list Z :=
  map (fun k => lo + Z.of_nat k) (seq 0 (Z.to_nat (hi - lo))).

(** [collections.OrderedDict] with string keys: insertion order is kept. *)
Definition OrderedDict (V : Type) := list (string * V).

Fixpoint od_get {V : Type} (k : string) (d : OrderedDict V) : option V :=
  match d with
  | [] => None
  | (k', v) :: d' => if String.eqb k k' then Some v else od_get k d'
  end.

Fixpoint od_set {V : Type} (k : string) (v : V) (d : OrderedDict V)
  : OrderedDict V :=
  match d with
  | [] => [(k, v)]
  | (k', v') :: d' =>
      if String.eqb k k' then (k, v) :: d' else (k', v') :: od_set k v d'
  end.

(** [d[k].append(v)]: [KeyError] when [k] is missing. *)
Definition od_append {V : Type} (k : string) (v : V) (d : OrderedDict (list V))
  : result (OrderedDict (list V)) :=
  match od_get k d with
  | Some l => Ok (od_set k (l ++ [v]) d)
  | None => Err KeyError
  end.

Fixpoint index_of (name : string) (cols : list string) : option nat :=
  match cols with
  | [] => None
  | c :: cols' =>
      if String.eqb name c then Some O
      else option_map S (index_of name cols')
  end.

Fixpoint replace_nth {A : Type} (n : nat) (x : A) (l : list A) : list A :=
  match l, n with
  | [], _ => []
  | _ :: l', O => x :: l'
  | a :: l', S n' => a :: replace_nth n' x l'
  end.

Fixpoint remove_nth {A : Type} (n : nat) (l : list A) : list A :=
  match l, n with
  | [], _ => []
  | _ :: l', O => l'
  | a :: l', S n' => a :: remove_nth n' l'
  end.

(** [df.name]: the column as a vector; [AttributeError] when there is no
    such column. *)
Definition get_column (df : DataFrame) (name : string) : result vector :=
  match index_of name (columns df) with
  | Some j => Ok (map (fun row => nth j row CNaN) (values df))
  | None => Err AttributeError
  end.

(** [df[name]]: the same, with [KeyError]. *)
Definition get_item (df : DataFrame) (name : string) : result vector :=
  match index_of name (columns df) with
  | Some j => Ok (map (fun row => nth j row CNaN) (values df))
  | None => Err KeyError
  end.

(** [df[name] = vals] with a plain list: positional; [ValueError] when the
    list is not as long as the frame; a new name adds a column. *)
Definition set_item (df : DataFrame) (name : string) (vals : vector)
  : result DataFrame :=
  if Nat.eqb (List.length vals) (List.length (values df)) then
    match index_of name (columns df) with
    | Some j =>
        Ok {| columns := columns df;
              values := map (fun rv => replace_nth j (snd rv) (fst rv))
                            (combine (values df) vals) |}
    | None =>
        Ok {| columns := columns df ++ [name];
              values := map (fun rv => fst rv ++ [snd rv])
                            (combine (values df) vals) |}
    end
  else Err ValueError.

(** [df[mask]] with a boolean mask as long as the frame. *)
Definition select_rows (df : DataFrame) (mask : list bool) : DataFrame :=
  {| columns := columns df;
     values := map fst (filter snd (combine (values df) mask)) |}.

(** [df.drop(name, axis=1)]: [KeyError] when there is no such column. *)
Definition drop (df : DataFrame) (name : string) : result DataFrame :=
  match index_of name (columns df) with
  | Some j =>
      Ok {| columns := remove_nth j (columns df);
            values := map (remove_nth j) (values df) |}
  | None => Err KeyError
  end.

(** [pd.concat([a, b])] for two frames over the same columns (here both are
    row selections of one frame): the rows of [a], then the rows of [b]. *)
Definition concat (a b : DataFrame) : DataFrame :=
  {| columns := columns a; values := values a ++ values b |}.

(** [df.head()] *)
Definition head (df : DataFrame) : DataFrame :=
  {| columns := columns df; values := firstn 5 (values df) |}.

(** ** Notebook 1: plot_ensemble_oob.ipynb *)

(** [clf.oob_score_]: an attribute of the fitted state, absent unless the
    forest was fitted with [oob_score=True]. *)
Variable oob_score_ : Model -> option Q.

Definition attr_oob_score_ (clf : estimator) : result Q :=
  match fitted clf with
  | Some m =>
      match oob_score_ m with
      | Some q => Ok q
      | None => Err AttributeError
      end
  | None => Err AttributeError
  end.

(** The module docstring IPython supplies, as the recorded output shows. *)
Definition __doc__ : string :=
  "Automatically created module for IPython interactive environment".

Definition RANDOM_STATE : Z := 123.

Definition ensemble_clfs : list (string * estimator) :=
  [ ("RandomForestClassifier, max_features='sqrt'"%string,
     new_estimator "RandomForestClassifier"
       [("warm_start", PBool true); ("oob_score", PBool true);
        ("max_features", PStr "sqrt");
        ("random_state", PInt RANDOM_STATE)]%string);
    ("RandomForestClassifier, max_features='log2'"%string,
     new_estimator "RandomForestClassifier"
       [("warm_start", PBool true); ("max_features", PStr "log2");
        ("oob_score", PBool true);
        ("random_state", PInt RANDOM_STATE)]%string);
    ("RandomForestClassifier, max_features=None"%string,
     new_estimator "RandomForestClassifier"
       [("warm_start", PBool true); ("max_features", PNone);
        ("oob_score", PBool true);
        ("random_state", PInt RANDOM_STATE)]%string) ].

(** The arguments of [make_classification]. *)
Definition dataset_args : kwargs :=
  [("n_samples", PInt 500); ("n_features", PInt 25);
   ("n_clusters_per_class", PInt 1); ("n_informative", PInt 15);
   ("random_state", PInt RANDOM_STATE)]%string.

Definition min_estimators : Z := 15.
Definition max_estimators : Z := 175.

Definition curve := list (Z * Q).

(** The body of the inner loop; [clf] and [error_rate] are the objects it
    mutates. *)
Definition oob_step (X : matrix) (y : vector) (label : string) (i : Z)
  (st : estimator * OrderedDict curve) : prog (estimator * OrderedDict curve) :=
  let (clf, error_rate) := st in
  let clf := set_params clf "n_estimators" (PInt i) in
  m <- call (Fit clf X y) ;;
  let clf := with_fitted clf m in
  score <- lift (attr_oob_score_ clf) ;;
  let oob_error := (1 - score)%Q in
  error_rate <- lift (od_append label (i, oob_error) error_rate) ;;
  ret (clf, error_rate).

(** The names bound when the first notebook's cell has run. *)
Record oob_namespace : Type := mkOobNamespace {
  oob_X : matrix;
  oob_y : vector;
  oob_clfs : list (string * estimator);
  error_rate : OrderedDict curve
}.

(** Everything up to the end of the sweep loop. *)
Definition oob_sweep : prog oob_namespace :=
  call (Print (RText __doc__)) ;;
  Xy <- call (MakeClassification dataset_args) ;;
  let X := fst Xy in
  let y := snd Xy in
  let error_rate : OrderedDict curve :=
    fold_left (fun d lc => od_set (fst lc) [] d) ensemble_clfs [] in
  st <- for_each ensemble_clfs
          (fun lc st =>
             let label := fst lc in
             ce <- for_each (range min_estimators (max_estimators + 1))
                     (oob_step X y label) (snd lc, snd st) ;;
             ret (fst st ++ [(label, fst ce)], snd ce))
          ([], error_rate) ;;
  ret {| oob_X := X; oob_y := y; oob_clfs := fst st; error_rate := snd st |}.

(** [xs, ys = zip( *clf_err )]: unpacking fails on an empty list. *)
Definition unzip_curve (clf_err : curve) : result (list Z * list Q) :=
  match clf_err with
  | [] => Err ValueError
  | _ => Ok (List.split clf_err)
  end.

Definition oob_plot (error_rate : OrderedDict curve) : prog unit :=
  for_each error_rate
    (fun lc _ =>
       xy <- lift (unzip_curve (snd lc)) ;;
       call (PltPlot (fst xy) (snd xy) (fst lc)))
    tt ;;
  call (PltXlim min_estimators max_estimators) ;;
  call (PltXlabel "n_estimators") ;;
  call (PltYlabel "OOB error rate") ;;
  call (PltLegend "upper right") ;;
  call PltShow.

Definition plot_ensemble_oob : prog oob_namespace :=
  ns <- oob_sweep ;;
  oob_plot (error_rate ns) ;;
  ret ns.

(** ** Notebook 2: SoGe 2.ipynb

    The cells are run top to bottom, as "Restart & Run All" does, and the
    first exception stops the run.  [import] lines only bind names and are
    left out.  A cell's last expression is displayed; an expression in the
    middle of a cell ([df['balance'].value_counts()]) is evaluated and
    dropped. *)

Definition data_path : string :=
  "/Users/princessemame/Downloads/balance-scale.data".

Definition data_names : list string :=
  ["balance"; "var1"; "var2"; "var3"; "var4"]%string.

(** [[1 if b=='B' else 0 for b in balance]] *)
Definition binarize (balance : vector) : vector :=
  map (fun b => if cell_eq_str b "B" then CInt 1 else CInt 0) balance.

(** [[p[1] for p in probs]] *)
Fixpoint second_column (probs : list (list Q)) : result (list Q) :=
  match probs with
  | [] => Ok []
  | p :: probs' =>
      match nth_error p 1 with
      | Some q =>
          match second_column probs' with
          | Ok qs => Ok (q :: qs)
          | Err e => Err e
          end
      | None => Err IndexError
      end
  end.

(** Cell 2: read the file and show its first rows. *)
Definition soge_read : prog DataFrame :=
  df <- call (ReadCsv data_path data_names) ;;
  call (Display (RFrame (head df))) ;;
  ret df.

(** The frames cell 3 binds. *)
Record frames : Type := mkFrames {
  df : DataFrame;
  df_majority : DataFrame;
  df_minority : DataFrame;
  df_minority_upsampled : DataFrame;
  df_upsampled : DataFrame
}.

(** The arguments of [resample]. *)
Definition resample_args : kwargs :=
  [("replace", PBool true); ("n_samples", PInt 576);
   ("random_state", PInt 123)]%string.

(** Cell 3: binary labels, then the minority class resampled up. *)
Definition soge_upsample (df0 : DataFrame) : prog frames :=
  balance <- lift (get_column df0 "balance") ;;
  df <- lift (set_item df0 "balance" (binarize balance)) ;;
  balance <- lift (get_item df "balance") ;;
  call (ValueCounts balance) ;;
  balance <- lift (get_column df "balance") ;;
  let df_majority := select_rows df (map (fun b => cell_eq_int b 0) balance) in
  balance <- lift (get_column df "balance") ;;
  let df_minority := select_rows df (map (fun b => cell_eq_int b 1) balance) in
  df_minority_upsampled <- call (Resample df_minority resample_args) ;;
  let df_upsampled := concat df_majority df_minority_upsampled in
  balance <- lift (get_column df_upsampled "balance") ;;
  counts <- call (ValueCounts balance) ;;
  call (Display (RCounts counts)) ;;
  ret {| df := df; df_majority := df_majority; df_minority := df_minority;
         df_minority_upsampled := df_minority_upsampled;
         df_upsampled := df_upsampled |}.

(** [LogisticRegression()] *)
Definition LogisticRegression : estimator :=
  new_estimator "LogisticRegression" [].

(** [SVC(kernel='linear', class_weight='balanced', probability=True)] *)
Definition SVC : estimator :=
  new_estimator "SVC"
    [("kernel", PStr "linear"); ("class_weight", PStr "balanced");
     ("probability", PBool true)]%string.

(** [RandomForestClassifier()] *)
Definition RandomForestClassifier : estimator :=
  new_estimator "RandomForestClassifier" [].

(** Cell 4: logistic regression on the resampled frame. *)
Definition soge_logistic (df_upsampled : DataFrame) : prog estimator :=
  y <- lift (get_column df_upsampled "balance") ;;
  X <- lift (drop df_upsampled "balance") ;;
  let clf_1 := LogisticRegression in
  m <- call (Fit clf_1 (values X) y) ;;
  let clf_1 := with_fitted clf_1 m in
  pred_y_1 <- call (Predict clf_1 (values X)) ;;
  u <- call (NpUnique pred_y_1) ;;
  call (Print (RVector u)) ;;
  acc <- call (AccuracyScore y pred_y_1) ;;
  call (Print (RNumber acc)) ;;
  ret clf_1.

(** Cells 6 to 8: a class-weighted linear SVC on [df]. *)
Definition soge_svc (df : DataFrame) : prog estimator :=
  y <- lift (get_column df "balance") ;;
  X <- lift (drop df "balance") ;;
  let clf_3 := SVC in
  m <- call (Fit clf_3 (values X) y) ;;
  let clf_3 := with_fitted clf_3 m in
  pred_y_3 <- call (Predict clf_3 (values X)) ;;
  u <- call (NpUnique pred_y_3) ;;
  call (Print (RVector u)) ;;
  acc <- call (AccuracyScore y pred_y_3) ;;
  call (Print (RNumber acc)) ;;
  prob_y_3 <- call (PredictProba clf_3 (values X)) ;;
  prob_y_3 <- lift (second_column prob_y_3) ;;
  auc <- call (RocAucScore y prob_y_3) ;;
  call (Print (RNumber auc)) ;;
  ret clf_3.

(** Cell 9: a random forest with default parameters on [df]. *)
Definition soge_forest (df : DataFrame) : prog estimator :=
  y <- lift (get_column df "balance") ;;
  X <- lift (drop df "balance") ;;
  let clf_4 := RandomForestClassifier in
  m <- call (Fit clf_4 (values X) y) ;;
  let clf_4 := with_fitted clf_4 m in
  pred_y_4 <- call (Predict clf_4 (values X)) ;;
  u <- call (NpUnique pred_y_4) ;;
  call (Print (RVector u)) ;;
  acc <- call (AccuracyScore y pred_y_4) ;;
  call (Print (RNumber acc)) ;;
  prob_y_4 <- call (PredictProba clf_4 (values X)) ;;
  prob_y_4 <- lift (second_column prob_y_4) ;;
  auc <- call (RocAucScore y prob_y_4) ;;
  call (Print (RNumber auc)) ;;
  ret clf_4.

(** The names bound when every cell of the second notebook has run. *)
Record soge_namespace : Type := mkSogeNamespace {
  soge_frames : frames;
  clf_1 : estimator;
  clf_3 : estimator;
  clf_4 : estimator
}.

Definition soge2 : prog soge_namespace :=
  df0 <- soge_read ;;
  fr <- soge_upsample df0 ;;
  c1 <- soge_logistic (df_upsampled fr) ;;
  c3 <- soge_svc (df fr) ;;
  c4 <- soge_forest (df fr) ;;
  ret {| soge_frames := fr; clf_1 := c1; clf_3 := c3; clf_4 := c4 |}.

(** ** The second notebook with its import statements

    What an [import] finds depends on what is installed: [env m None] says
    that the module [m] can be imported, [env m (Some n)] that it has the
    name [n].  An import that fails raises [ImportError] (of which
    [ModuleNotFoundError] is a subclass) and makes no library call. *)
Definition environment : Type := string -> option string -> bool.

(** [import m] *)
Definition import_module (env : environment) (m : string) : result unit :=
  if env m None then Ok tt else Err ImportError.

(** [from m import n1, n2, ...] *)
Definition from_import (env : environment) (m : string) (names : list string)
  : result unit :=
  if env m None && forallb (fun n => env m (Some n)) names then Ok tt
  else Err ImportError.

(** Cell 1: imports only. *)
Definition soge_imports (env : environment) : prog unit :=
  lift (from_import env "numpy" ["mean"]%string) ;;
  lift (from_import env "sklearn.datasets" ["make_classification"]%string) ;;
  lift (from_import env "sklearn.model_selection" ["cross_val_score"]%string) ;;
  lift (from_import env "sklearn.model_selection"
          ["RepeatedStratifiedKFold"]%string) ;;
  lift (from_import env "sklearn.tree" ["DecisionTreeClassifier"]%string) ;;
  lift (from_import env "sklearn" ["datasets"]%string) ;;
  lift (from_import env "sklearn.model_selection" ["train_test_split"]%string) ;;
  lift (from_import env "sklearn.linear_model" ["LogisticRegression"]%string) ;;
  lift (from_import env "sklearn.metrics"
          ["average_precision_score"; "precision_recall_curve"]%string) ;;
  lift (from_import env "sklearn.metrics"
          ["auc"; "plot_precision_recall_curve"]%string) ;;
  lift (import_module env "matplotlib.pyplot") ;;
  lift (import_module env "numpy").

(** Cell 3 has three imports in its middle.  Its statements before them
    and after them, as in [soge_upsample]. *)
Definition soge_binarize (df0 : DataFrame) : prog DataFrame :=
  balance <- lift (get_column df0 "balance") ;;
  df <- lift (set_item df0 "balance" (binarize balance)) ;;
  balance <- lift (get_item df "balance") ;;
  call (ValueCounts balance) ;;
  ret df.

Definition soge_resample (df : DataFrame) : prog frames :=
  balance <- lift (get_column df "balance") ;;
  let df_majority := select_rows df (map (fun b => cell_eq_int b 0) balance) in
  balance <- lift (get_column df "balance") ;;
  let df_minority := select_rows df (map (fun b => cell_eq_int b 1) balance) in
  df_minority_upsampled <- call (Resample df_minority resample_args) ;;
  let df_upsampled := concat df_majority df_minority_upsampled in
  balance <- lift (get_column df_upsampled "balance") ;;
  counts <- call (ValueCounts balance) ;;
  call (Display (RCounts counts)) ;;
  ret {| df := df; df_majority := df_majority; df_minority := df_minority;
         df_minority_upsampled := df_minority_upsampled;
         df_upsampled := df_upsampled |}.

Definition soge_upsample_cell (env : environment) (df0 : DataFrame)
  : prog frames :=
  df <- soge_binarize df0 ;;
  lift (from_import env "sklearn.utils" ["resample"]%string) ;;
  lift (from_import env "sklearn.linear_model" ["LogisticRegression"]%string) ;;
  lift (from_import env "sklearn.metrics" ["accuracy_score"]%string) ;;
  soge_resample df.

(** The whole notebook, cell by cell, imports included. *)
Definition soge2_notebook (env : environment) : prog soge_namespace :=
  soge_imports env ;;
  lift (import_module env "pandas") ;;
  lift (import_module env "numpy") ;;
  df0 <- soge_read ;;
  fr <- soge_upsample_cell env df0 ;;
  c1 <- soge_logistic (df_upsampled fr) ;;
  lift (from_import env "sklearn.svm" ["SVC"]%string) ;;
  lift (from_import env "sklearn.metrics" ["roc_auc_score"]%string) ;;
  c3 <- soge_svc (df fr) ;;
  lift (from_import env "sklearn.ensemble" ["RandomForestClassifier"]%string) ;;
  c4 <- soge_forest (df fr) ;;
  ret {| soge_frames := fr; clf_1 := c1; clf_3 := c3; clf_4 := c4 |}.

(** ** Reading a trace *)

Definition outcome {A : Type} (r : result A) : option exn :=
  match r with
  | Ok _ => None
  | Err e => Some e
  end.

(** The exception a call raised, if it did. *)
Definition raised (ev : event) : option exn :=
  match ev with
  | Ev _ r => outcome r
  end.

(** Calls that bring the dataset into memory. *)
Definition is_load (ev : event) : bool :=
  match ev with
  | Ev op _ =>
      match op with
      | MakeClassification _ => true
      | ReadCsv _ _ => true
      | _ => false
      end
  end.

Definition reads_file (ev : event) : bool :=
  match ev with
  | Ev op _ =>
      match op with
      | ReadCsv _ _ => true
      | _ => false
      end
  end.

(** Calls that put something on the screen. *)
Definition renders (ev : event) : bool :=
  match ev with
  | Ev op _ =>
      match op with
      | Print _ | Display _ | PltPlot _ _ _ | PltXlim _ _ | PltXlabel _
      | PltYlabel _ | PltLegend _ | PltShow => true
      | _ => false
      end
  end.

(** The estimator object a call is made on. *)
Definition estimator_of (ev : event) : option estimator :=
  match ev with
  | Ev op _ =>
      match op with
      | Fit clf _ _ => Some clf
      | Predict clf _ => Some clf
      | PredictProba clf _ => Some clf
      | _ => None
      end
  end.

(** The feature matrix handed to [fit], [predict] or [predict_proba], with
    the label vector when there is one. *)
Definition dataset_of (ev : event) : option (matrix * option vector) :=
  match ev with
  | Ev op _ =>
      match op with
      | Fit _ X y => Some (X, Some y)
      | Predict _ X => Some (X, None)
      | PredictProba _ X => Some (X, None)
      | _ => None
      end
  end.

(** A [fit] that returned: the object as it was passed, the training set,
    and the fitted state that came back. *)
Record fit_entry : Type := mkFit {
  fit_clf : estimator;
  fit_X : matrix;
  fit_y : vector;
  fit_model : Model
}.

Definition fit_of (ev : event) : option fit_entry :=
  match ev with
  | Ev op r =>
      match op in libop T return result T -> option fit_entry with
      | Fit clf X y =>
          fun r =>
            match r with
            | Ok m => Some (mkFit clf X y m)
            | Err _ => None
            end
      | _ => fun _ => None
      end r
  end.

Fixpoint fit_log (tr : list event) : list fit_entry :=
  match tr with
  | [] => []
  | ev :: tr' =>
      match fit_of ev with
      | Some f => f :: fit_log tr'
      | None => fit_log tr'
      end
  end.

Definition pyval_eqb (a b : pyval) : bool :=
  match a, b with
  | PNone, PNone => true
  | PBool x, PBool y => Bool.eqb x y
  | PInt x, PInt y => Z.eqb x y
  | PStr x, PStr y => String.eqb x y
  | _, _ => false
  end.

(** Two estimator objects of one class with one [max_features] setting;
    that tells the estimators of either notebook apart. *)
Definition same_config (c1 c2 : estimator) : bool :=
  String.eqb (cls c1) (cls c2) &&
  match kw_get "max_features" (params c1), kw_get "max_features" (params c2) with
  | None, None => true
  | Some a, Some b => pyval_eqb a b
  | _, _ => false
  end.

(** The fits made on the estimator configured like [clf]. *)
Definition fits_of (clf : estimator) (tr : list event) : list fit_entry :=
  filter (fun f => same_config clf (fit_clf f)) (fit_log tr).

(** The pair [p] of a curve records the fit [f]: the size [f] was made
    with, and one minus the out-of-bag score it came back with. *)
Definition recorded (X : matrix) (y : vector) (f : fit_entry) (p : Z * Q)
  : Prop :=
  kw_get "n_estimators" (params (fit_clf f)) = Some (PInt (fst p)) /\
  fit_X f = X /\ fit_y f = y /\
  exists q, oob_score_ (fit_model f) = Some q /\ snd p = (1 - q)%Q.

(** Each fit starts from the state the one before left ([prev]). *)
Fixpoint warm_chain (prev : option Model) (fs : list fit_entry) : Prop :=
  match fs with
  | [] => True
  | f :: fs' =>
      fitted (fit_clf f) = prev /\ warm_chain (Some (fit_model f)) fs'
  end.

(** The plot calls, in order. *)
Fixpoint plot_log (tr : list event) : list (list Z * list Q * string) :=
  match tr with
  | [] => []
  | Ev op _ :: tr' =>
      match op with
      | PltPlot xs ys label => (xs, ys, label) :: plot_log tr'
      | _ => plot_log tr'
      end
  end.

Definition wants_oob (clf : estimator) : bool :=
  match kw_get "oob_score" (params clf) with
  | Some (PBool true) => true
  | _ => false
  end.

(** Calls that come back with a metric: an accuracy, an AUROC, or a fit that
    was asked to compute the out-of-bag score. *)
Definition computes_metric (ev : event) : bool :=
  match ev with
  | Ev op r =>
      match outcome r with
      | Some _ => false
      | None =>
          match op with
          | AccuracyScore _ _ => true
          | RocAucScore _ _ => true
          | Fit clf _ _ => wants_oob clf
          | _ => false
          end
      end
  end.


(** Every metric is followed at once by a call that renders. *)
Fixpoint immediately_rendered (tr : list event) : bool :=
  match tr with
  | [] => true
  | ev :: tr' =>
      (if computes_metric ev then
         match tr' with
         | ev' :: _ => renders ev'
         | [] => false
         end
       else true)
      && immediately_rendered tr'
  end.

(** Every fitted state a call is made on came out of an earlier [fit] of the
    same run ([seen] collects them). *)
Fixpoint models_local (seen : list Model) (tr : list event) : Prop :=
  match tr with
  | [] => True
  | ev :: tr' =>
      match estimator_of ev with
      | Some clf =>
          match fitted clf with
          | Some m => In m seen
          | None => True
          end
      | None => True
      end
      /\ models_local
           (match fit_of ev with
            | Some f => fit_model f :: seen
            | None => seen
            end) tr'
  end.

(** The [random_state] a randomised call was given. *)
Definition random_state_of {X : Type} (op : libop X) : option (option pyval) :=
  match op with
  | MakeClassification kw => Some (kw_get "random_state" kw)
  | Fit clf _ _ => Some (kw_get "random_state" (params clf))
  | Resample _ kw => Some (kw_get "random_state" kw)
  | _ => None
  end.

(** Calls whose answer is not fixed by their arguments: reading a file, and
    randomised calls without an integer seed. *)
Definition external {X : Type} (op : libop X) : bool :=
  match op with
  | ReadCsv _ _ => true
  | _ =>
      match random_state_of op with
      | Some (Some (PInt _)) => false
      | Some _ => true
      | None => false
      end
  end.

Definition external_call (ev : event) : bool :=
  match ev with
  | Ev op _ => external op
  end.

(** The recorded outcome is what the library answered. *)
Definition answered_by (h : handler) (ev : event) : Prop :=
  match ev with
  | Ev op r => h _ op = r
  end.

(** Two runs of one library: the answers agree wherever the call's
    arguments fix them. *)
Definition same_library (h1 h2 : handler) : Prop :=
  forall (X : Type) (op : libop X), external op = false -> h1 X op = h2 X op.

Definition seeded_with (s : Z) (ev : event) : Prop :=
  match ev with
  | Ev op _ =>
      match random_state_of op with
      | Some rs => rs = Some (PInt s)
      | None => True
      end
  end.

(** ** What the scripts rely on from the library *)

Definition rectangular (ncols : nat) (X : matrix) : Prop :=
  Forall (fun row => List.length row = ncols) X.

(** A frame whose rows all have one cell per column. *)
Definition well_formed (df : DataFrame) : Prop :=
  rectangular (List.length (columns df)) (values df).

(** A feature matrix with its labels: rows of equal length, one label per
    row. *)
Definition well_formed_dataset (d : matrix * option vector) : Prop :=
  (exists n, rectangular n (fst d)) /\
  match snd d with
  | Some y => List.length y = List.length (fst d)
  | None => True
  end.

(** [read_csv(path, names=names)] gives a frame over [names]. *)
Definition read_csv_contract (h : handler) : Prop :=
  forall path names df,
    h _ (ReadCsv path names) = Ok df ->
    columns df = names /\ well_formed df.

(** [resample(df, n_samples=n)] gives [n] rows of [df], over its columns. *)
Definition resample_contract (h : handler) : Prop :=
  forall df kw df',
    h _ (Resample df kw) = Ok df' ->
    columns df' = columns df /\
    incl (values df') (values df) /\
    forall n, kw_get "n_samples" kw = Some (PInt n) ->
              Z.of_nat (List.length (values df')) = n.

(** [make_classification(n_samples=n, n_features=f)] gives an [n] by [f]
    matrix and [n] labels. *)
Definition make_classification_contract (h : handler) : Prop :=
  forall kw X y n f,
    h _ (MakeClassification kw) = Ok (X, y) ->
    kw_get "n_samples" kw = Some (PInt n) ->
    kw_get "n_features" kw = Some (PInt f) ->
    rectangular (Z.to_nat f) X /\
    Z.of_nat (List.length X) = n /\ Z.of_nat (List.length y) = n.

(** The out-of-bag score is an accuracy: a fraction of the samples. *)
Definition oob_score_contract (h : handler) : Prop :=
  forall clf X y m q,
    h _ (Fit clf X y) = Ok m -> oob_score_ m = Some q ->
    (0 <= q)%Q /\ (q <= 1)%Q.

(** The calls the first notebook can make: printing and plotting,
    [make_classification] with its arguments, and fits. *)
Definition oob_call {X : Type} (op : libop X) : Prop :=
  match op with
  | Print _ | Fit _ _ _ | PltPlot _ _ _ | PltXlim _ _
  | PltXlabel _ | PltYlabel _ | PltLegend _ | PltShow => True
  | MakeClassification kw => kw = dataset_args
  | _ => False
  end.

(** A library that answers those calls, and sets [oob_score_] when asked. *)
Definition library_total (h : handler) : Prop :=
  (forall (X : Type) (op : libop X), oob_call op -> exists x, h X op = Ok x) /\
  (forall clf X y m,
      h _ (Fit clf X y) = Ok m -> wants_oob clf = true ->
      exists q, oob_score_ m = Some q).

(** ** Scripts without error handling *)

(** [no_handler p]: on no path through [p], whatever the library answers,
    is there a [try] statement. *)
Fixpoint no_handler {A : Type} (p : prog A) : Prop :=
  match p with
  | Ret _ => True
  | Throw _ => True
  | Call op k => forall x, no_handler (k x)
  | Try _ _ _ => False
  end.

(** ** Reasoning about a script one call at a time *)

(** [issues h P Q p]: run against [h], every call [p] makes satisfies [P],
    and a value [p] returns satisfies [Q].  The judgement is for scripts
    without [try]: it has no rule for one. *)
Fixpoint issues (h : handler) (P : event -> Prop) {A : Type} (Q : A -> Prop)
  (p : prog A) : Prop :=
  match p with
  | Ret a => Q a
  | Throw _ => True
  | Call op k =>
      P (Ev op (h _ op)) /\ forall x, h _ op = Ok x -> issues h P Q (k x)
  | Try _ _ _ => False
  end.

(** The calls of one pass of the inner loop over [sizes], given the fitted
    states [ms] that came back: each fit is made on the object the previous
    one left behind. *)
Fixpoint fit_events (X : matrix) (y : vector) (clf : estimator)
  (sizes : list Z) (ms : list Model) : list event :=
  match sizes, ms with
  | i :: sizes', m :: ms' =>
      let clf := set_params clf "n_estimators" (PInt i) in
      Ev (Fit clf X y) (Ok m)
      :: fit_events X y (with_fitted clf m) sizes' ms'
  | _, _ => []
  end.

(** The curve those fits give. *)
Definition curve_of (sizes : list Z) (scores : list Q) : curve :=
  map (fun iq => (fst iq, (1 - snd iq)%Q)) (combine sizes scores).

(** The sizes the sweep runs through. *)
Definition sizes : list Z := range min_estimators (max_estimators + 1).

(** The sweep's calls, given for each forest of [ensemble_clfs] the fitted
    states and scores that came back. *)
Definition sweep_events (X : matrix) (y : vector)
  (answers : list (list Model * list Q)) : list event :=
  flat_map (fun ca => fit_events X y (snd (fst ca)) sizes (fst (snd ca)))
           (combine ensemble_clfs answers).

(** The [k]-th forest of [ensemble_clfs], as built. *)
Definition forest (k : nat) : estimator :=
  snd (nth k ensemble_clfs (EmptyString, new_estimator EmptyString [])).

(** The fitted states and the scores of one forest's pass line up. *)
Definition scored (a : list Model * list Q) : Prop :=
  List.length (fst a) = List.length sizes /\
  List.length (snd a) = List.length sizes /\
  Forall2 (fun m q => oob_score_ m = Some q) (fst a) (snd a).

Definition sweep_curves (answers : list (list Model * list Q))
  : OrderedDict curve :=
  map (fun ca => (fst (fst ca), curve_of sizes (snd (snd ca))))
      (combine ensemble_clfs answers).

(** The calls of the plotting part, when they all return. *)
Definition plot_events (er : OrderedDict curve) : list event :=
  map (fun lc => Ev (PltPlot (fst (List.split (snd lc)))
                             (snd (List.split (snd lc))) (fst lc)) (Ok tt)) er
  ++ [Ev (PltXlim min_estimators max_estimators) (Ok tt);
      Ev (PltXlabel "n_estimators") (Ok tt);
      Ev (PltYlabel "OOB error rate") (Ok tt);
      Ev (PltLegend "upper right") (Ok tt);
      Ev PltShow (Ok tt)].

Definition has_key {V : Type} (k : string) (d : OrderedDict V) : Prop :=
  od_get k d <> None.

(** What [plt.plot] is called with for one entry of [error_rate]. *)
Definition plotted (lc : string * curve) : list Z * list Q * string :=
  (fst (List.split (snd lc)), snd (List.split (snd lc)), fst lc).

(** The calls of a cell that fits [clf] on [X], [y] and prints what it
    predicts on [X] and how accurate that is. *)
Definition accuracy_events (clf : estimator) (X : matrix) (y : vector)
  (m : Model) (pred u : vector) (acc : Q) : list event :=
  [Ev (Fit clf X y) (Ok m);
   Ev (Predict (with_fitted clf m) X) (Ok pred);
   Ev (NpUnique pred) (Ok u);
   Ev (Print (RVector u)) (Ok tt);
   Ev (AccuracyScore y pred) (Ok acc);
   Ev (Print (RNumber acc)) (Ok tt)].

(** The calls that print the AUROC of a fitted [clf]. *)
Definition auroc_events (clf : estimator) (X : matrix) (y : vector)
  (probs : list (list Q)) (scores : list Q) (auc : Q) : list event :=
  [Ev (PredictProba clf X) (Ok probs);
   Ev (RocAucScore y scores) (Ok auc);
   Ev (Print (RNumber auc)) (Ok tt)].

(** A call that leaves nothing to chance: not external, and seeded with
    [RANDOM_STATE] if it is randomised at all. *)
Definition pinned (ev : event) : Prop :=
  external_call ev = false /\ seeded_with RANDOM_STATE ev.

(** Every label of [ensemble_clfs] is a key of [er]. *)
Definition keys_kept (er : OrderedDict curve) : Prop :=
  Forall (fun lc : string * estimator => has_key (fst lc) er) ensemble_clfs.

Definition seeded (clf : estimator) : Prop :=
  kw_get "random_state" (params clf) = Some (PInt RANDOM_STATE).

(** The dataset a call is handed, if any, is well formed. *)
Definition dataset_ok (ev : event) : Prop :=
  match dataset_of ev with
  | Some d => well_formed_dataset d
  | None => True
  end.

(** How many cells of a label column hold the integer [z]. *)
Definition count_label (z : Z) (v : vector) : nat :=
  List.length (filter (fun c => cell_eq_int c z) v).

(** How many cells of the raw class column are not ['B']. *)
Definition count_not_B (v : vector) : nat :=
  List.length (filter (fun b => negb (cell_eq_str b "B")) v).

(** The label of a row: its first cell ([balance] is the first column). *)
Definition label_of (row : list cell) : cell := nth 0 row CNaN.

(** [y = d.balance; X = d.drop('balance', axis=1)]: what a cell of the second
    notebook trains on when it starts from the frame [d]. *)
Definition training_set (d : DataFrame) : result (matrix * vector) :=
  match get_column d "balance", drop d "balance" with
  | Ok y, Ok X => Ok (values X, y)
  | Err e, _ => Err e
  | _, Err e => Err e
  end.

(** The fit [f] was made on the training set of [d]. *)
Definition fit_on (d : DataFrame) (f : fit_entry) : Prop :=
  training_set d = Ok (fit_X f, fit_y f).

Definition is_estimator_call (ev : event) : bool :=
  match estimator_of ev with
  | Some _ => true
  | None => false
  end.

(** Scanning a run from its start, the dataset is brought in before any
    call is made on an estimator. *)
Fixpoint load_first (tr : list event) : bool :=
  match tr with
  | [] => true
  | ev :: tr' =>
      if is_load ev then true
      else if is_estimator_call ev then false
      else load_first tr'
  end.

Definition count_calls (f : event -> bool) (tr : list event) : nat :=
  List.length (filter f tr).

(** A failed call is the last call, and its exception is how the run ends. *)
Definition propagates {A : Type} (x : result A * list event) : Prop :=
  forall pre ev post e,
    snd x = pre ++ ev :: post -> raised ev = Some e ->
    post = [] /\ fst x = Err e.

(** ** More ways to read a trace *)

(** [b == 'B'] on a row's label. *)
Definition is_B (row : list cell) : bool := cell_eq_str (label_of row) "B".

(** The row after cell 3's assignment: the class replaced by its binary
    label, the features as they were. *)
Definition relabel (row : list cell) : list cell :=
  (if is_B row then CInt 1 else CInt 0) :: tl row.

Definition is_plot (ev : event) : bool :=
  match ev with
  | Ev op _ =>
      match op with
      | PltPlot _ _ _ | PltXlim _ _ | PltXlabel _ | PltYlabel _
      | PltLegend _ | PltShow => true
      | _ => false
      end
  end.

(** The calls the sweep makes: the print, the generation, the fits. *)
Definition sweep_call (ev : event) : bool :=
  match ev with
  | Ev op _ =>
      match op with
      | Print _ | MakeClassification _ | Fit _ _ _ => true
      | _ => false
      end
  end.


(** The [roc_auc_score] calls, in order: the labels and the scores. *)
Fixpoint auroc_log (tr : list event) : list (vector * list Q) :=
  match tr with
  | [] => []
  | Ev op _ :: tr' =>
      match op with
      | RocAucScore y s => (y, s) :: auroc_log tr'
      | _ => auroc_log tr'
      end
  end.

(** The estimators [predict_proba] is called on, in order. *)
Fixpoint proba_log (tr : list event) : list (estimator * matrix) :=
  match tr with
  | [] => []
  | Ev op _ :: tr' =>
      match op with
      | PredictProba clf X => (clf, X) :: proba_log tr'
      | _ => proba_log tr'
      end
  end.

(** How a run that ends in an exception came to it: the last call raised
    it, or it is one of the exceptions [own] that a statement of the script
    itself can raise. *)
Definition blames (own : exn -> Prop) {A : Type} (x : result A * list event)
  : Prop :=
  match fst x with
  | Ok _ => True
  | Err e =>
      (exists pre ev, snd x = pre ++ [ev] /\ raised ev = Some e) \/ own e
  end.

(** [raises_only h own Q p]: run against [h], the only exceptions the
    statements of [p] raise themselves are those of [own] (a call may raise
    what it likes), and a value [p] returns satisfies [Q]. *)
Fixpoint raises_only (h : handler) (own : exn -> Prop) {A : Type}
  (Q : A -> Prop) (p : prog A) : Prop :=
  match p with
  | Ret a => Q a
  | Throw e => own e
  | Call op k => forall x, h _ op = Ok x -> raises_only h own Q (k x)
  | Try _ _ _ => False
  end.

End Library.

Arguments Print {Model} r.
Arguments Display {Model} r.
Arguments MakeClassification {Model} kw.
Arguments Fit {Model} clf X y.
Arguments Predict {Model} clf X.
Arguments PredictProba {Model} clf X.
Arguments ReadCsv {Model} path names.
Arguments Resample {Model} df kw.
Arguments ValueCounts {Model} s.
Arguments NpUnique {Model} v.
Arguments AccuracyScore {Model} y_true y_pred.
Arguments RocAucScore {Model} y_true y_score.
Arguments PltPlot {Model} xs ys label.
Arguments PltXlim {Model} lo hi.
Arguments PltXlabel {Model} s.
Arguments PltYlabel {Model} s.
Arguments PltLegend {Model} loc.
Arguments PltShow {Model}.
Arguments Store {Model} path what.
Arguments SModel {Model} clf.
Arguments SFrame {Model} df.
Arguments SNumber {Model} q.
Arguments SFigure {Model}.
Arguments Ret {Model A} a.
Arguments Throw {Model A} e.
Arguments Call {Model A X} op k.
Arguments Try {Model A X} body handler k.
Arguments Ev {Model X} op r.
Arguments lift {Model A} r.
Arguments new_estimator {Model} c kw.
Arguments oob_plot {Model} error_rate.
Arguments plot_events {Model} er.
Arguments soge_read {Model}.
Arguments soge_upsample {Model} df0.
Arguments soge_logistic {Model} df_upsampled.
Arguments soge_svc {Model} df.
Arguments soge_forest {Model} df.
Arguments soge2 {Model}.
Arguments soge_imports {Model} env.
Arguments soge_binarize {Model} df0.
Arguments soge_resample {Model} df.
Arguments soge_upsample_cell {Model} env df0.
Arguments soge2_notebook {Model} env.
Arguments LogisticRegression {Model}.
Arguments SVC {Model}.
Arguments RandomForestClassifier {Model}.

(** ** A small library to run the scripts against

    Fitted states only remember how many trees were asked for and, when the
    out-of-bag score was asked for, a score.  Calls without an integer seed
    draw on [entropy]; [read_csv] looks the path up in [fs]. *)

Module Toy.

Record model : Type := mkModel {
  size : Z;
  oob : option Q
}.

Definition oob_score_ (m : model) : option Q := oob m.

Definition kw_int (k : string) (default : Z) (kw : kwargs) : Z :=
  match kw_get k kw with
  | Some (PInt z) => z
  | _ => default
  end.

Definition draw (entropy : Z) (kw : kwargs) : Z :=
  match kw_get "random_state" kw with
  | Some (PInt s) => s
  | _ => entropy
  end.

Definition fit (entropy : Z) (clf : estimator model) : model :=
  let n := kw_int "n_estimators" 100 (params clf) in
  {| size := n + draw entropy (params clf);
     oob := if wants_oob clf then Some (Z.abs n # Z.to_pos (Z.abs n + 1))
            else None |}.

Definition make_classification (kw : kwargs) : result (matrix * vector) :=
  let n := kw_int "n_samples" 100 kw in
  let f := kw_int "n_features" 20 kw in
  if (n <? 0) || (f <? 0) then Err ValueError
  else Ok (repeat (repeat (CFloat 0) (Z.to_nat f)) (Z.to_nat n),
           map (fun k => CInt (Z.of_nat (k mod 2))) (seq 0 (Z.to_nat n))).

Definition resample (df : DataFrame) (kw : kwargs) : result DataFrame :=
  let n := kw_int "n_samples" (Z.of_nat (List.length (values df))) kw in
  match values df with
  | [] => Err ValueError
  | r0 :: _ =>
      if n <? 0 then Err ValueError
      else
        Ok {| columns := columns df;
              values := map (fun k => nth (k mod List.length (values df))
                                          (values df) r0)
                            (seq 0 (Z.to_nat n)) |}
  end.

Definition read_csv (fs : string -> option matrix) (path : string)
  (names : list string) : result DataFrame :=
  match fs path with
  | Some rows =>
      if forallb (fun r => Nat.eqb (List.length r) (List.length names)) rows
      then Ok {| columns := names; values := rows |}
      else Err ParserError
  | None => Err FileNotFoundError
  end.

Definition predict (m : model) (X : matrix) : vector :=
  map (fun row => match row with
                  | CInt z :: _ => CInt (z mod 2)
                  | _ => CInt 0
                  end) X.

Definition accuracy (y_true y_pred : vector) : Q :=
  let hits :=
    List.length
      (filter (fun p => match p with
                        | (CInt a, CInt b) => Z.eqb a b
                        | _ => false
                        end) (combine y_true y_pred)) in
  Z.of_nat hits # Pos.of_nat (List.length y_true).

Definition library (fs : string -> option matrix) (entropy : Z)
  : handler model :=
  fun T op =>
    match op in libop _ T return result T with
    | Print _ => Ok tt
    | Display _ => Ok tt
    | MakeClassification kw => make_classification kw
    | Fit clf _ _ => Ok (fit entropy clf)
    | Predict clf X =>
        match fitted clf with
        | Some m => Ok (predict m X)
        | None => Err NotFittedError
        end
    | PredictProba clf X =>
        match fitted clf with
        | Some m => Ok (map (fun _ => [1 # 2; 1 # 2]%Q) X)
        | None => Err NotFittedError
        end
    | ReadCsv path names => read_csv fs path names
    | Resample df kw => resample df kw
    | ValueCounts s =>
        Ok [(CInt 1, Z.of_nat (List.length (filter (fun c => cell_eq_int c 1) s)));
            (CInt 0, Z.of_nat (List.length (filter (fun c => cell_eq_int c 0) s)))]
    | NpUnique v =>
        Ok (filter (fun c => existsb (fun d => cell_eq_int d 0) v
                             && cell_eq_int c 0) [CInt 0]
            ++ filter (fun c => existsb (fun d => cell_eq_int d 1) v
                                && cell_eq_int c 1) [CInt 1])
    | AccuracyScore y_true y_pred => Ok (accuracy y_true y_pred)
    | RocAucScore _ _ => Ok (1 # 2)%Q
    | PltPlot _ _ _ => Ok tt
    | PltXlim _ _ => Ok tt
    | PltXlabel _ => Ok tt
    | PltYlabel _ => Ok tt
    | PltLegend _ => Ok tt
    | PltShow => Ok tt
    | Store _ _ => Ok tt
    end.

(** The balance-scale table: every weight and distance from 1 to 5 on both
    arms; the class says which way the scale tips. *)
Definition tip (lw ld rw rd : Z) : cell :=
  if lw * ld >? rw * rd then CStr "L"
  else if lw * ld <? rw * rd then CStr "R"
  else CStr "B".

Definition balance_scale : matrix :=
  let r := [1; 2; 3; 4; 5] in
  flat_map (fun lw =>
    flat_map (fun ld =>
      flat_map (fun rw =>
        map (fun rd => [tip lw ld rw rd; CInt lw; CInt ld; CInt rw; CInt rd])
            r) r) r) r.

(** A disk that holds the table where the notebook looks for it. *)
Definition disk (path : string) : option matrix :=
  if String.eqb path data_path then Some balance_scale else None.

(** A disk without it. *)
Definition empty_disk (path : string) : option matrix := None.

(** The library over the disk with the table, and one over the empty
    disk. *)
Definition lib : handler model := library disk 0.
Definition offline : handler model := library empty_disk 1.

(** The library on a machine where growing a forest beyond [limit] trees
    fails. *)
Definition bounded (limit : Z) : handler model :=
  fun T op =>
    match op in libop _ T return result T with
    | Fit clf X y =>
        if kw_int "n_estimators" 100 (params clf) >? limit
        then Err (LibraryError "MemoryError")
        else lib (Fit clf X y)
    | op' => lib op'
    end.


(** An installation with everything the notebooks import, and one with a
    scikit-learn from which [plot_precision_recall_curve] is gone. *)
Definition everything : environment := fun _ _ => true.

Definition without_plot_curve : environment :=
  fun m n =>
    match n with
    | Some name =>
        negb (String.eqb m "sklearn.metrics"
              && String.eqb name "plot_precision_recall_curve")
    | None => true
    end.

(** What a retry would look like: [read_csv] in a [try], called again when
    it fails.  Neither notebook has anything of the kind. *)
Definition read_with_retry : prog model DataFrame :=
  Try (call (ReadCsv data_path data_names))
      (fun _ => call (ReadCsv data_path data_names))
      (fun df => Ret df).

(** The frame [read_csv] gives from the table. *)
Definition raw : DataFrame :=
  {| columns := data_names; values := balance_scale |}.

End Toy.

(** * Properties *)

Section Scripts.

Variable Model : Type.
Variable oob_score_ : Model -> option Q.

Implicit Types (h : handler Model) (tr : list (event Model)).

(** ** Running sequences and loops *)

Lemma run_bind h (A B : Type) (p : prog Model A) (f : A -> prog Model B) :
  run h (pbind p f) =
  match run h p with
  | (Ok a, t) => let (r, t') := run h (f a) in (r, t ++ t')
  | (Err e, t) => (Err e, t)
  end.
Proof.
  induction p as [? a | ? e | ? X op k IH | ? X body IHb hd IHh k IH]; simpl.
  - destruct (run h (f a)); reflexivity.
  - reflexivity.
  - destruct (h X op) as [x | e]; [ | reflexivity ].
    rewrite IH. destruct (run h (k x)) as [[a | e] t]; [ | reflexivity ].
    destruct (run h (f a)); reflexivity.
  - destruct (run h body) as [[x | e] t].
    + rewrite IH. destruct (run h (k x)) as [[a | e] t']; [ | reflexivity ].
      destruct (run h (f a)); rewrite ?app_assoc; reflexivity.
    + destruct (run h (hd e)) as [[x | e'] t1]; [ | reflexivity ].
      rewrite IH. destruct (run h (k x)) as [[a | e'] t']; [ | reflexivity ].
      destruct (run h (f a)); rewrite ?app_assoc; reflexivity.
Qed.

Lemma run_bind_ok h (A B : Type) (p : prog Model A) (f : A -> prog Model B) b tr :
  run h (pbind p f) = (Ok b, tr) ->
  exists a t1 t2,
    run h p = (Ok a, t1) /\ run h (f a) = (Ok b, t2) /\ tr = t1 ++ t2.
Proof.
  rewrite run_bind. destruct (run h p) as [[a | e] t1]; [ | discriminate ].
  destruct (run h (f a)) as [r t2] eqn:E. intros H. inversion H; subst.
  exists a, t1, t2. auto.
Qed.

Lemma run_call_ok h (X : Type) (op : libop Model X) x tr :
  run h (call op) = (Ok x, tr) -> h X op = Ok x /\ tr = [Ev op (Ok x)].
Proof.
  simpl. destruct (h X op); intros H; inversion H; subst. auto.
Qed.

Lemma run_lift_ok h (A : Type) (r : result A) a tr :
  run h (lift r) = (Ok a, tr) -> r = Ok a /\ tr = [].
Proof.
  destruct r; simpl; intros H; inversion H; subst. auto.
Qed.

Lemma run_ret_ok h (A : Type) (a b : A) tr :
  run h (Ret a) = (Ok b, tr) -> b = a /\ tr = [].
Proof. simpl. intros H; inversion H; auto. Qed.

Lemma run_for_each_cons h (A S : Type) (a : A) l (body : A -> S -> prog Model S) s s' tr :
  run h (for_each (a :: l) body s) = (Ok s', tr) ->
  exists s1 t1 t2,
    run h (body a s) = (Ok s1, t1) /\
    run h (for_each l body s1) = (Ok s', t2) /\ tr = t1 ++ t2.
Proof. simpl. apply run_bind_ok. Qed.

(** ** Without a handler, exceptions are never caught *)

Lemma run_propagates h (A : Type) (p : prog Model A) :
  no_handler p -> propagates (run h p).
Proof.
  unfold propagates.
  induction p as [? a | ? e | ? X op k IH | ? X body IHb hd IHh k IH];
    simpl; intros Hno pre ev post e' Htr Hev.
  - destruct pre; discriminate.
  - destruct pre; discriminate.
  - destruct (h X op) as [x | e0] eqn:E.
    + specialize (IH x (Hno x)). destruct (run h (k x)) as [r t]. simpl in *.
      destruct pre as [ | ev0 pre]; simpl in Htr; inversion Htr; subst.
      * simpl in Hev. discriminate.
      * eapply IH; eauto.
    + simpl in Htr.
      destruct pre as [ | ev0 pre]; simpl in Htr; inversion Htr; subst.
      * simpl in Hev. inversion Hev; subst. auto.
      * destruct pre; discriminate.
  - contradiction.
Qed.

(** ** The rules of [issues] *)

Lemma issues_weaken h (P : event Model -> Prop) (A : Type) (Q Q' : A -> Prop)
  (p : prog Model A) :
  (forall a, Q a -> Q' a) -> issues h P Q p -> issues h P Q' p.
Proof.
  intros HQ. induction p as [? a | ? e | ? X op k IH | ? X body IHb hd IHh k IH];
    simpl; auto.
  intros [HP Hk]. split; eauto.
Qed.

Lemma issues_bind h (P : event Model -> Prop) (A B : Type) (Q : A -> Prop)
  (R : B -> Prop) (p : prog Model A) (f : A -> prog Model B) :
  issues h P Q p -> (forall a, Q a -> issues h P R (f a)) ->
  issues h P R (pbind p f).
Proof.
  intros Hp Hf. induction p as [? a | ? e | ? X op k IH | ? X body IHb hd IHh k IH];
    simpl in *; auto.
  destruct Hp as [HP Hk]. split; eauto.
Qed.

Lemma issues_call h (P : event Model -> Prop) (X : Type) (op : libop Model X) :
  P (Ev op (h _ op)) -> issues h P (fun x => h _ op = Ok x) (call op).
Proof. intros HP. simpl. split; auto. Qed.

Lemma issues_lift h (P : event Model -> Prop) (A : Type) (r : result A) :
  issues h P (fun a => r = Ok a) (lift r).
Proof. destruct r; simpl; auto. Qed.

Lemma issues_for_each h (P : event Model -> Prop) (A S : Type) (Inv : S -> Prop)
  (l : list A) (body : A -> S -> prog Model S) :
  (forall a s, In a l -> Inv s -> issues h P Inv (body a s)) ->
  forall s, Inv s -> issues h P Inv (for_each l body s).
Proof.
  induction l as [ | a l IH]; intros Hbody s Hs; simpl.
  - exact Hs.
  - apply issues_bind with (Q := Inv).
    + apply Hbody; simpl; auto.
    + intros s' Hs'. apply IH; auto. intros; apply Hbody; simpl; auto.
Qed.

Lemma issues_trace h (P : event Model -> Prop) (A : Type) (Q : A -> Prop)
  (p : prog Model A) :
  issues h P Q p -> Forall P (snd (run h p)).
Proof.
  induction p as [? a | ? e | ? X op k IH | ? X body IHb hd IHh k IH];
    simpl; auto; try contradiction.
  intros [HP Hk]. destruct (h X op) as [x | e] eqn:E.
  - specialize (IH x Q (Hk x eq_refl)).
    destruct (run h (k x)) as [r t]. simpl in *. constructor; auto.
  - simpl. constructor; auto.
Qed.

Lemma issues_result h (P : event Model -> Prop) (A : Type) (Q : A -> Prop)
  (p : prog Model A) a tr :
  issues h P Q p -> run h p = (Ok a, tr) -> Q a.
Proof.
  revert tr.
  induction p as [? a' | ? e | ? X op k IH | ? X body IHb hd IHh k IH];
    simpl; intros tr Hp Hr.
  - inversion Hr; subst; auto.
  - discriminate.
  - destruct Hp as [_ Hk]. destruct (h X op) as [x | e] eqn:E; [ | discriminate ].
    destruct (run h (k x)) as [r t] eqn:Ek. inversion Hr; subst.
    eapply IH; eauto.
  - contradiction.
Qed.

(** A script that makes no external call runs the same against any two
    runs of the library. *)
Lemma issues_same_run h1 h2 (A : Type) (Q : A -> Prop) (p : prog Model A) :
  same_library h1 h2 ->
  issues h1 (fun ev => external_call ev = false) Q p ->
  run h1 p = run h2 p.
Proof.
  intros Hsame. induction p as [? a | ? e | ? X op k IH | ? X body IHb hd IHh k IH];
    simpl; auto; try contradiction.
  intros [HP Hk]. simpl in HP. rewrite <- (Hsame X op HP).
  destruct (h1 X op) as [x | e]; [ | reflexivity ].
  rewrite (IH x Q (Hk x eq_refl)). reflexivity.
Qed.

Lemma run_answered h (A : Type) (p : prog Model A) :
  Forall (answered_by h) (snd (run h p)).
Proof.
  induction p as [? a | ? e | ? X op k IH | ? X body IHb hd IHh k IH];
    simpl; auto.
  - destruct (h X op) as [x | e] eqn:E.
    + specialize (IH x). destruct (run h (k x)) as [r t]. simpl in *.
      constructor; auto.
    + simpl. constructor; auto.
  - destruct (run h body) as [[x | e] t]; simpl in IHb.
    + specialize (IH x). destruct (run h (k x)) as [r t']. simpl in *.
      apply Forall_app. auto.
    + specialize (IHh e). destruct (run h (hd e)) as [[x | e'] t1];
        simpl in IHh.
      * specialize (IH x). destruct (run h (k x)) as [r t2]. simpl in *.
        rewrite !Forall_app. auto.
      * simpl. apply Forall_app. auto.
Qed.

(** ** Keyword arguments and ordered dictionaries *)

Lemma kw_get_set_same k v kw : kw_get k (kw_set k v kw) = Some v.
Proof.
  induction kw as [ | [k' v'] kw IH]; simpl.
  - rewrite String.eqb_refl. reflexivity.
  - destruct (String.eqb k k') eqn:E; simpl; rewrite ?String.eqb_refl, ?E; auto.
Qed.

Lemma kw_get_set_other k k' v kw :
  k <> k' -> kw_get k (kw_set k' v kw) = kw_get k kw.
Proof.
  intros Hne. apply String.eqb_neq in Hne.
  induction kw as [ | [k0 v0] kw IH]; simpl.
  - rewrite Hne. reflexivity.
  - destruct (String.eqb k' k0) eqn:E; simpl.
    + apply String.eqb_eq in E. subst k0. rewrite Hne. reflexivity.
    + rewrite IH. reflexivity.
Qed.

Lemma od_get_set_same (V : Type) k (v : V) d : od_get k (od_set k v d) = Some v.
Proof.
  induction d as [ | [k' v'] d IH]; simpl.
  - rewrite String.eqb_refl. reflexivity.
  - destruct (String.eqb k k') eqn:E; simpl; rewrite ?String.eqb_refl, ?E; auto.
Qed.

Lemma od_set_set (V : Type) k (v v' : V) d :
  od_set k v' (od_set k v d) = od_set k v' d.
Proof.
  induction d as [ | [k0 v0] d IH]; simpl.
  - rewrite String.eqb_refl. reflexivity.
  - destruct (String.eqb k k0) eqn:E; simpl; rewrite ?String.eqb_refl, ?E; auto.
    rewrite IH. reflexivity.
Qed.

Lemma od_set_get (V : Type) k (v : V) d :
  od_get k d = Some v -> od_set k v d = d.
Proof.
  induction d as [ | [k0 v0] d IH]; simpl; [ discriminate | ].
  destruct (String.eqb k k0) eqn:E.
  - apply String.eqb_eq in E. subst. intros H; inversion H; reflexivity.
  - intros H. rewrite IH; auto.
Qed.

(** ** The sweep of notebook 1 *)

Lemma oob_step_ok h X y label i clf er clf' er' tr :
  run h (oob_step oob_score_ X y label i (clf, er)) = (Ok (clf', er'), tr) ->
  exists m q l0,
    h _ (Fit (set_params clf "n_estimators" (PInt i)) X y) = Ok m /\
    oob_score_ m = Some q /\ od_get label er = Some l0 /\
    clf' = with_fitted (set_params clf "n_estimators" (PInt i)) m /\
    er' = od_set label (l0 ++ [(i, (1 - q)%Q)]) er /\
    tr = [Ev (Fit (set_params clf "n_estimators" (PInt i)) X y) (Ok m)].
Proof.
  unfold oob_step, curve in *. simpl.
  destruct (h _ (Fit (set_params clf "n_estimators" (PInt i)) X y))
    as [m | e] eqn:E; [ | intros; discriminate ].
  unfold attr_oob_score_, od_append. simpl.
  destruct (oob_score_ m) as [q | ] eqn:Eq; simpl; [ | intros; discriminate ].
  destruct (od_get label er) as [l0 | ] eqn:El; simpl; [ | intros; discriminate ].
  intros H. inversion H; subst. exists m, q, l0. auto 10.
Qed.

Lemma inner_loop_ok h X y label (l : list Z) :
  forall clf er l0 clf' er' tr,
    od_get label er = Some l0 ->
    run h (for_each l (oob_step oob_score_ X y label) (clf, er))
      = (Ok (clf', er'), tr) ->
    exists ms qs,
      List.length ms = List.length l /\ List.length qs = List.length l /\
      Forall2 (fun m q => oob_score_ m = Some q) ms qs /\
      tr = fit_events X y clf l ms /\
      er' = od_set label (l0 ++ curve_of l qs) er.
Proof.
  induction l as [ | i l IH]; intros clf er l0 clf' er' tr Hget Hrun.
  - simpl in Hrun. inversion Hrun; subst. exists [], []. simpl.
    rewrite app_nil_r, od_set_get by assumption. auto.
  - apply run_for_each_cons in Hrun.
    destruct Hrun as ([clf1 er1] & t1 & t2 & Hstep & Hrest & ->).
    apply oob_step_ok in Hstep.
    destruct Hstep as (m & q & l0' & Hfit & Hq & Hget' & -> & -> & ->).
    rewrite Hget in Hget'. inversion Hget'; subst l0'.
    eapply IH in Hrest; [ | apply od_get_set_same ].
    destruct Hrest as (ms & qs & Hlm & Hlq & Hall & -> & ->).
    exists (m :: ms), (q :: qs). simpl.
    rewrite od_set_set, <- app_assoc. simpl. auto 10.
Qed.

Lemma outer_body_ok h X y (lc : string * estimator Model) done er l0 st' tr :
  od_get (fst lc) er = Some l0 ->
  run h (ce <- for_each sizes (oob_step oob_score_ X y (fst lc)) (snd lc, er) ;;
         ret (done ++ [(fst lc, fst ce)], snd ce)) = (Ok st', tr) ->
  exists ms qs,
    scored oob_score_ (ms, qs) /\
    tr = fit_events X y (snd lc) sizes ms /\
    snd st' = od_set (fst lc) (l0 ++ curve_of sizes qs) er.
Proof.
  intros Hget Hrun. cbn [bind Monad_prog] in Hrun.
  apply run_bind_ok in Hrun.
  destruct Hrun as ([clf' er'] & t1 & t2 & Hloop & Hret & ->).
  apply run_ret_ok in Hret. destruct Hret as [-> ->].
  eapply inner_loop_ok in Hloop; eauto.
  destruct Hloop as (ms & qs & Hlm & Hlq & Hall & -> & ->).
  exists ms, qs. rewrite app_nil_r. unfold scored. cbn [fst snd]. auto.
Qed.

Lemma oob_sweep_ok h ns tr :
  run h (oob_sweep oob_score_) = (Ok ns, tr) ->
  exists answers,
    List.length answers = 3%nat /\
    Forall (scored oob_score_) answers /\
    tr = Ev (Print (RText __doc__)) (Ok tt)
         :: Ev (MakeClassification dataset_args) (Ok (oob_X ns, oob_y ns))
         :: sweep_events (oob_X ns) (oob_y ns) answers /\
    error_rate ns = sweep_curves answers.
Proof.
  intros Hrun. unfold oob_sweep in Hrun. cbn [bind Monad_prog] in Hrun.
  apply run_bind_ok in Hrun. destruct Hrun as ([] & ta & tb & Hp & Hrun & ->).
  apply run_call_ok in Hp. destruct Hp as [_ ->].
  apply run_bind_ok in Hrun. destruct Hrun as ([X y] & tc & td & Hm & Hrun & ->).
  apply run_call_ok in Hm. destruct Hm as [_ ->].
  apply run_bind_ok in Hrun. destruct Hrun as (st & te & tf & Hloop & Hret & ->).
  apply run_ret_ok in Hret. destruct Hret as [-> ->]. simpl oob_X. simpl oob_y.
  simpl error_rate. rewrite app_nil_r.
  change (range min_estimators (max_estimators + 1)) with sizes in Hloop.
  unfold ensemble_clfs at 1 in Hloop.
  apply run_for_each_cons in Hloop.
  destruct Hloop as ([d1 e1] & t1 & t1' & H1 & Hloop & ->).
  apply run_for_each_cons in Hloop.
  destruct Hloop as ([d2 e2] & t2 & t2' & H2 & Hloop & ->).
  apply run_for_each_cons in Hloop.
  destruct Hloop as ([d3 e3] & t3 & t3' & H3 & Hloop & ->).
  apply run_ret_ok in Hloop. destruct Hloop as [-> ->].
  eapply outer_body_ok with (l0 := []) in H1; [ | reflexivity ].
  destruct H1 as (ms1 & qs1 & Hs1 & -> & He1). simpl in He1. subst e1.
  eapply outer_body_ok with (l0 := []) in H2; [ | reflexivity ].
  destruct H2 as (ms2 & qs2 & Hs2 & -> & He2). simpl in He2. subst e2.
  eapply outer_body_ok with (l0 := []) in H3; [ | reflexivity ].
  destruct H3 as (ms3 & qs3 & Hs3 & -> & He3). simpl in He3. subst e3.
  exists [(ms1, qs1); (ms2, qs2); (ms3, qs3)].
  split; [ reflexivity | ]. split; [ repeat (apply Forall_cons; [ assumption | ]); apply Forall_nil | ].
  split.
  - unfold sweep_events, ensemble_clfs. cbn [combine flat_map fst snd app].
    rewrite !app_nil_r. reflexivity.
  - reflexivity.
Qed.

Lemma run_bind_intro h (A B : Type) (p : prog Model A) (f : A -> prog Model B)
  a t1 r t2 :
  run h p = (Ok a, t1) -> run h (f a) = (r, t2) ->
  run h (pbind p f) = (r, t1 ++ t2).
Proof. intros Hp Hf. rewrite run_bind, Hp, Hf. reflexivity. Qed.

Lemma plot_loop_ok h (er : OrderedDict curve) u tr :
  run h (for_each er
           (fun lc _ =>
              xy <- lift (unzip_curve (snd lc)) ;;
              call (PltPlot (fst xy) (snd xy) (fst lc))) tt) = (Ok u, tr) ->
  tr = map (fun lc => Ev (PltPlot (fst (List.split (snd lc)))
                                  (snd (List.split (snd lc))) (fst lc)) (Ok tt))
           er.
Proof.
  revert u tr. induction er as [ | [label c] er IH]; intros u tr Hrun.
  - simpl in Hrun. inversion Hrun; reflexivity.
  - apply run_for_each_cons in Hrun.
    destruct Hrun as ([] & t1 & t2 & Hstep & Hrest & ->).
    apply IH in Hrest. subst t2.
    cbn [bind Monad_prog] in Hstep. apply run_bind_ok in Hstep.
    destruct Hstep as ([xs ys] & ta & tb & Hz & Hc & ->).
    apply run_lift_ok in Hz. destruct Hz as [Hz ->].
    apply run_call_ok in Hc. destruct Hc as [_ ->].
    simpl in Hz. unfold unzip_curve in Hz.
    destruct c as [ | p c]; [ discriminate | ].
    inversion Hz as [Hs]. simpl. rewrite Hs. reflexivity.
Qed.

Lemma oob_plot_ok h (er : OrderedDict curve) u tr :
  run h (oob_plot er) = (Ok u, tr) -> tr = plot_events er.
Proof.
  unfold oob_plot. cbn [bind Monad_prog]. intros Hrun.
  apply run_bind_ok in Hrun. destruct Hrun as ([] & t1 & t2 & Hl & Hrun & ->).
  apply plot_loop_ok in Hl. subst t1.
  simpl in Hrun.
  repeat match type of Hrun with
         | context [h ?T ?op] => destruct (h T op) as [[] | ?]; [ | discriminate ]
         end.
  inversion Hrun; subst. reflexivity.
Qed.

Lemma notebook_ok h ns tr :
  run h (plot_ensemble_oob oob_score_) = (Ok ns, tr) ->
  exists answers,
    List.length answers = 3%nat /\
    Forall (scored oob_score_) answers /\
    tr = Ev (Print (RText __doc__)) (Ok tt)
         :: Ev (MakeClassification dataset_args) (Ok (oob_X ns, oob_y ns))
         :: sweep_events (oob_X ns) (oob_y ns) answers
         ++ plot_events (error_rate ns) /\
    error_rate ns = sweep_curves answers.
Proof.
  unfold plot_ensemble_oob. cbn [bind Monad_prog]. intros Hrun.
  apply run_bind_ok in Hrun. destruct Hrun as (ns' & t1 & t2 & Hs & Hrun & ->).
  apply run_bind_ok in Hrun. destruct Hrun as ([] & t3 & t4 & Hp & Hr & ->).
  apply run_ret_ok in Hr. destruct Hr as [-> ->].
  apply oob_plot_ok in Hp. subst t3.
  apply oob_sweep_ok in Hs. destruct Hs as (answers & Hl & Hsc & -> & Her).
  exists answers. rewrite app_nil_r. simpl. auto.
Qed.

(** ** Reading the sweep's trace *)

Lemma fit_log_app tr1 tr2 : fit_log (tr1 ++ tr2) = fit_log tr1 ++ fit_log tr2.
Proof.
  induction tr1 as [ | ev tr1 IH]; simpl; auto.
  destruct (fit_of ev); simpl; rewrite IH; reflexivity.
Qed.

Lemma fit_log_plot_events er : fit_log (plot_events (Model := Model) er) = [].
Proof.
  unfold plot_events. rewrite fit_log_app. simpl. rewrite app_nil_r.
  induction er as [ | lc er IH]; simpl; auto.
Qed.

Lemma same_config_set_params (c clf : estimator Model) i :
  same_config c (set_params clf "n_estimators" (PInt i)) = same_config c clf.
Proof.
  unfold same_config. simpl.
  rewrite kw_get_set_other by discriminate. reflexivity.
Qed.

Lemma chain_recorded X y (l : list Z) :
  forall (ms : list Model) qs (clf : estimator Model),
    List.length ms = List.length l ->
    Forall2 (fun m q => oob_score_ m = Some q) ms qs ->
    Forall2 (recorded oob_score_ X y)
            (fit_log (fit_events X y clf l ms)) (curve_of l qs).
Proof.
  induction l as [ | i l IH]; intros ms qs clf Hlen Hall.
  - destruct ms; simpl; constructor.
  - destruct ms as [ | m ms]; [ discriminate | ].
    inversion Hall as [ | m' q ms' qs' Hq Hall' ]; subst.
    simpl. constructor.
    + unfold recorded. simpl. rewrite kw_get_set_same. eauto 10.
    + apply IH; auto.
Qed.

Lemma chain_config X y (c : estimator Model) (l : list Z) :
  forall (ms : list Model) (clf : estimator Model),
    Forall (fun f => same_config c (fit_clf f) = same_config c clf)
           (fit_log (fit_events X y clf l ms)).
Proof.
  induction l as [ | i l IH]; intros ms clf.
  - destruct ms; simpl; constructor.
  - destruct ms as [ | m ms]; simpl; constructor.
    + simpl. apply same_config_set_params.
    + specialize (IH ms (with_fitted (set_params clf "n_estimators" (PInt i)) m)).
      eapply Forall_impl; [ | exact IH ]. simpl. intros f Hf. rewrite Hf.
      apply same_config_set_params.
Qed.

Lemma chain_warm X y (l : list Z) :
  forall (ms : list Model) (clf : estimator Model),
    warm_chain (fitted clf) (fit_log (fit_events X y clf l ms)).
Proof.
  induction l as [ | i l IH]; intros ms clf.
  - destruct ms; simpl; auto.
  - destruct ms as [ | m ms]; simpl; auto. split; auto.
    apply (IH ms (with_fitted (set_params clf "n_estimators" (PInt i)) m)).
Qed.

Lemma chain_length X y (l : list Z) :
  forall (ms : list Model) (clf : estimator Model),
    List.length ms = List.length l ->
    List.length (fit_log (fit_events X y clf l ms)) = List.length l.
Proof.
  induction l as [ | i l IH]; intros ms clf Hlen.
  - destruct ms; reflexivity.
  - destruct ms as [ | m ms]; [ discriminate | ]. simpl. f_equal.
    apply IH. simpl in Hlen. lia.
Qed.

Lemma filter_all (A : Type) (f : A -> bool) l :
  Forall (fun a => f a = true) l -> filter f l = l.
Proof.
  induction 1 as [ | a l Ha _ IH]; simpl; auto. rewrite Ha, IH. reflexivity.
Qed.

Lemma filter_none (A : Type) (f : A -> bool) l :
  Forall (fun a => f a = false) l -> filter f l = [].
Proof.
  induction 1 as [ | a l Ha _ IH]; simpl; auto. rewrite Ha, IH. reflexivity.
Qed.

Lemma chain_fits_same X y (c clf : estimator Model) l ms :
  same_config c clf = true ->
  filter (fun f => same_config c (fit_clf f)) (fit_log (fit_events X y clf l ms))
  = fit_log (fit_events X y clf l ms).
Proof.
  intros Hc. apply filter_all. eapply Forall_impl; [ | apply chain_config ].
  simpl. intros f Hf. rewrite Hf. exact Hc.
Qed.

Lemma chain_fits_other X y (c clf : estimator Model) l ms :
  same_config c clf = false ->
  filter (fun f => same_config c (fit_clf f)) (fit_log (fit_events X y clf l ms))
  = [].
Proof.
  intros Hc. apply filter_none. eapply Forall_impl; [ | apply chain_config ].
  simpl. intros f Hf. rewrite Hf. exact Hc.
Qed.

(** ** The first notebook completes when the library answers *)

Lemma run_for_each_total h (A S : Type) (Inv : S -> Prop) (l : list A)
  (body : A -> S -> prog Model S) :
  (forall a s, In a l -> Inv s ->
               exists s' t, run h (body a s) = (Ok s', t) /\ Inv s') ->
  forall s, Inv s ->
            exists s' t, run h (for_each l body s) = (Ok s', t) /\ Inv s'.
Proof.
  induction l as [ | a l IH]; intros Hbody s Hs.
  - exists s, []. simpl. auto.
  - destruct (Hbody a s) as (s1 & t1 & H1 & Hs1); simpl; auto.
    destruct (IH (fun a' s' Hin => Hbody a' s' (or_intror Hin)) s1 Hs1)
      as (s2 & t2 & H2 & Hs2).
    exists s2, (t1 ++ t2). split; auto.
    eapply run_bind_intro; eauto.
Qed.

Lemma has_key_od_set (V : Type) k k' (v : V) d :
  has_key k d -> has_key k (od_set k' v d).
Proof.
  unfold has_key. induction d as [ | [k0 v0] d IH]; simpl.
  - intros H; contradiction.
  - destruct (String.eqb k k0) eqn:E; destruct (String.eqb k' k0) eqn:E'; simpl.
    + apply String.eqb_eq in E, E'. subst. rewrite String.eqb_refl. discriminate.
    + rewrite E. discriminate.
    + apply String.eqb_eq in E'. subst k0. rewrite E. auto.
    + rewrite E. auto.
Qed.

Lemma wants_oob_set_params (clf : estimator Model) i :
  wants_oob (set_params clf "n_estimators" (PInt i)) = wants_oob clf.
Proof.
  unfold wants_oob. simpl. rewrite kw_get_set_other by discriminate.
  reflexivity.
Qed.

Lemma oob_step_total h X y label i clf er :
  library_total oob_score_ h ->
  wants_oob clf = true -> has_key label er -> keys_kept Model er ->
  exists st t,
    run h (oob_step oob_score_ X y label i (clf, er)) = (Ok st, t) /\
    wants_oob (fst st) = true /\ has_key label (snd st) /\ keys_kept Model (snd st).
Proof.
  intros [Hall Hoob] Hw Hk Hks. unfold oob_step, curve in *. simpl.
  destruct (Hall _ (Fit (set_params clf "n_estimators" (PInt i)) X y) I)
    as [m Hm].
  rewrite Hm. unfold attr_oob_score_, od_append. simpl.
  destruct (Hoob _ _ _ _ Hm) as [q Hq].
  { rewrite wants_oob_set_params. exact Hw. }
  rewrite Hq. simpl.
  destruct (od_get label er) as [l0 | ] eqn:El; [ | elim Hk; exact El ].
  simpl. eexists. eexists. split; [ reflexivity | ]. simpl.
  split; [ change (wants_oob (set_params clf "n_estimators" (PInt i)) = true);
           rewrite wants_oob_set_params; exact Hw | ].
  split; [ apply has_key_od_set; exact Hk | ].
  unfold keys_kept in *. eapply Forall_impl; [ | exact Hks ].
  simpl. intros lc Hlc. apply has_key_od_set. exact Hlc.
Qed.

Lemma oob_sweep_total h :
  library_total oob_score_ h ->
  exists ns tr, run h (oob_sweep oob_score_) = (Ok ns, tr).
Proof.
  intros Htot. unfold oob_sweep. cbn [bind Monad_prog].
  destruct (proj1 Htot _ (Print (RText __doc__)) I) as [[] Hp].
  destruct (proj1 Htot _ (MakeClassification dataset_args) eq_refl)
    as [[X y] Hm].
  destruct (run_for_each_total h
              (fun st : list (string * estimator Model) * OrderedDict curve =>
                 keys_kept Model (snd st))
              (ensemble_clfs Model)
              (fun lc st =>
                 ce <- for_each (range min_estimators (max_estimators + 1))
                         (oob_step oob_score_ X y (fst lc)) (snd lc, snd st) ;;
                 ret (fst st ++ [(fst lc, fst ce)], snd ce)))
    with (s := ([] : list (string * estimator Model),
                fold_left (fun d (lc : string * estimator Model) =>
                             od_set (fst lc) ([] : curve) d)
                          (ensemble_clfs Model) []))
    as (st & t & Hloop & _).
  - intros lc [done er] Hin Hks. simpl in Hks. cbn [bind Monad_prog].
    destruct (run_for_each_total h
                (fun st : estimator Model * OrderedDict curve =>
                   wants_oob (fst st) = true /\ has_key (fst lc) (snd st)
                   /\ keys_kept Model (snd st))
                (range min_estimators (max_estimators + 1))
                (oob_step oob_score_ X y (fst lc)))
      with (s := (snd lc, er)) as ([clf' er'] & t & Hin' & _ & _ & Hks').
    + intros i [clf0 er0] _ (Hw & Hk & Hks0). simpl in *.
      destruct (@oob_step_total h X y (fst lc) i clf0 er0 Htot Hw Hk Hks0)
        as (st & t & Hrun & H1 & H2 & H3).
      exists st, t. auto.
    + simpl. split; [ | split; [ | exact Hks ] ].
      * assert (Hin2 := Hin). simpl in Hin2.
        destruct Hin2 as [<- | [<- | [<- | []]]]; reflexivity.
      * unfold keys_kept in Hks. rewrite Forall_forall in Hks.
        apply (Hks lc Hin).
    + eexists. exists t. split.
      * rewrite run_bind. cbn [fst snd]. rewrite Hin'. simpl.
        rewrite app_nil_r. reflexivity.
      * exact Hks'.
  - simpl. unfold keys_kept, has_key.
    repeat (apply Forall_cons; [ simpl; discriminate | ]). apply Forall_nil.
  - eexists. eexists.
    eapply run_bind_intro; [ simpl; rewrite Hp; reflexivity | ].
    eapply run_bind_intro; [ simpl; rewrite Hm; reflexivity | ].
    eapply run_bind_intro; [ exact Hloop | ]. reflexivity.
Qed.

Lemma curve_of_length (l : list Z) :
  forall qs, List.length qs = List.length l ->
             List.length (curve_of l qs) = List.length l.
Proof.
  unfold curve_of. intros qs H. rewrite length_map, length_combine. lia.
Qed.

Lemma curve_of_fst (l : list Z) :
  forall qs, List.length qs = List.length l -> map fst (curve_of l qs) = l.
Proof.
  unfold curve_of. induction l as [ | i l IH]; intros [ | q qs] H; simpl in *;
    try discriminate; auto.
  f_equal. apply IH. lia.
Qed.

Lemma sizes_length : List.length sizes = 161%nat.
Proof. reflexivity. Qed.

Lemma plot_loop_total h (er : OrderedDict curve) :
  library_total oob_score_ h ->
  Forall (fun lc => snd lc <> []) er ->
  exists t,
    run h (for_each er
             (fun lc _ =>
                xy <- lift (unzip_curve (snd lc)) ;;
                call (PltPlot (fst xy) (snd xy) (fst lc))) tt) = (Ok tt, t).
Proof.
  intros [Hall _] Hne. induction Hne as [ | [label c] er Hc _ IH].
  - exists []. reflexivity.
  - destruct IH as [t Ht]. simpl in Hc.
    destruct c as [ | p c]; [ elim Hc; reflexivity | ].
    destruct (Hall _ (PltPlot (fst (List.split (p :: c)))
                              (snd (List.split (p :: c))) label) I)
      as [[] Hp].
    eexists. cbn [for_each bind Monad_prog].
    eapply run_bind_intro; [ | exact Ht ].
    rewrite run_bind. cbn [snd fst unzip_curve lift run call].
    rewrite Hp. reflexivity.
Qed.

Lemma oob_plot_total h (er : OrderedDict curve) :
  library_total oob_score_ h ->
  Forall (fun lc => snd lc <> []) er ->
  exists t, run h (oob_plot er) = (Ok tt, t).
Proof.
  intros Htot Hne. destruct (plot_loop_total Htot Hne) as [t Ht].
  destruct Htot as [Hall _].
  destruct (Hall _ (PltXlim min_estimators max_estimators) I) as [[] H1].
  destruct (Hall _ (PltXlabel "n_estimators") I) as [[] H2].
  destruct (Hall _ (PltYlabel "OOB error rate") I) as [[] H3].
  destruct (Hall _ (PltLegend "upper right") I) as [[] H4].
  destruct (Hall _ PltShow I) as [[] H5].
  eexists. unfold oob_plot. cbn [bind Monad_prog].
  eapply run_bind_intro; [ exact Ht | ].
  simpl. rewrite H1, H2, H3, H4, H5. reflexivity.
Qed.

Lemma sweep_curves_nonempty (answers : list (list Model * list Q)) :
  Forall (scored oob_score_) answers ->
  Forall (fun lc : string * curve => snd lc <> []) (sweep_curves answers).
Proof.
  unfold sweep_curves. generalize (ensemble_clfs Model).
  intros cs Hsc. revert cs.
  induction Hsc as [ | a answers Ha _ IH]; intros [ | c cs]; simpl;
    try constructor; auto.
  simpl. destruct Ha as (_ & Hq & _). intros Hnil.
  apply (f_equal (@List.length _)) in Hnil.
  rewrite curve_of_length in Hnil by assumption. discriminate.
Qed.

Lemma notebook_total h :
  library_total oob_score_ h ->
  exists ns tr, run h (plot_ensemble_oob oob_score_) = (Ok ns, tr).
Proof.
  intros Htot. destruct (oob_sweep_total Htot) as (ns & t1 & Hs).
  destruct (oob_sweep_ok _ Hs) as (answers & _ & Hsc & _ & Her).
  destruct (@oob_plot_total h (error_rate ns) Htot) as [t2 Hp].
  { rewrite Her. apply sweep_curves_nonempty. exact Hsc. }
  exists ns. eexists. unfold plot_ensemble_oob. cbn [bind Monad_prog].
  eapply run_bind_intro; [ exact Hs | ].
  eapply run_bind_intro; [ exact Hp | ]. reflexivity.
Qed.

Lemma plot_log_app tr1 tr2 : plot_log (tr1 ++ tr2) = plot_log tr1 ++ plot_log tr2.
Proof.
  induction tr1 as [ | [T op r] tr1 IH]; simpl; auto.
  destruct op; simpl; rewrite ?IH; reflexivity.
Qed.

Lemma plot_log_chain X y (l : list Z) :
  forall (ms : list Model) (clf : estimator Model),
    plot_log (fit_events X y clf l ms) = [].
Proof.
  induction l as [ | i l IH]; intros [ | m ms] clf; simpl; auto.
Qed.

Lemma plot_log_plot_events (er : OrderedDict curve) :
  plot_log (plot_events (Model := Model) er) = map plotted er.
Proof.
  unfold plot_events. rewrite plot_log_app. simpl. rewrite app_nil_r.
  induction er as [ | lc er IH]; simpl; auto. rewrite IH. reflexivity.
Qed.

Lemma fit_log_sweep X y (a1 a2 a3 : list Model * list Q) er :
  fit_log (Ev (Print (RText __doc__)) (Ok tt)
           :: Ev (MakeClassification dataset_args) (Ok (X, y))
           :: sweep_events X y [a1; a2; a3] ++ plot_events er)
  = fit_log (fit_events X y (forest Model 0) sizes (fst a1))
    ++ fit_log (fit_events X y (forest Model 1) sizes (fst a2))
    ++ fit_log (fit_events X y (forest Model 2) sizes (fst a3)).
Proof.
  cbn [fit_log fit_of]. rewrite fit_log_app, fit_log_plot_events, app_nil_r.
  unfold sweep_events, forest, ensemble_clfs. cbn [combine flat_map fst snd nth].
  rewrite !fit_log_app. cbn [fit_log]. rewrite app_nil_r. reflexivity.
Qed.

Lemma chain_fits X y (c clf : estimator Model) l ms :
  filter (fun f => same_config c (fit_clf f)) (fit_log (fit_events X y clf l ms))
  = if same_config c clf then fit_log (fit_events X y clf l ms) else [].
Proof.
  destruct (same_config c clf) eqn:E.
  - apply chain_fits_same; assumption.
  - apply chain_fits_other; assumption.
Qed.

Lemma forest_config j k :
  (j < 3)%nat -> (k < 3)%nat ->
  same_config (forest Model j) (forest Model k) = Nat.eqb j k.
Proof.
  intros Hj Hk.
  destruct j as [ | [ | [ | j]]]; destruct k as [ | [ | [ | k]]];
    try lia; reflexivity.
Qed.

Lemma ensemble_In label (clf : estimator Model) :
  In (label, clf) (ensemble_clfs Model) ->
  exists k, (k < 3)%nat /\ clf = forest Model k /\
            label = fst (nth k (ensemble_clfs Model)
                             (EmptyString, new_estimator EmptyString [])).
Proof.
  intros Hin.
  apply In_nth with (d := (EmptyString, new_estimator EmptyString [])) in Hin.
  destruct Hin as (k & Hk & E). exists k. unfold forest. rewrite E.
  simpl in Hk. auto.
Qed.

Lemma notebook_facts h ns tr :
  run h (plot_ensemble_oob oob_score_) = (Ok ns, tr) ->
  map fst (error_rate ns) = map fst (ensemble_clfs Model) /\
  (forall label clf,
      In (label, clf) (ensemble_clfs Model) ->
      exists c,
        od_get label (error_rate ns) = Some c /\
        map fst c = sizes /\
        Forall2 (recorded oob_score_ (oob_X ns) (oob_y ns)) (fits_of clf tr) c /\
        warm_chain None (fits_of clf tr)) /\
  plot_log tr = map plotted (error_rate ns).
Proof.
  intros Hrun. apply notebook_ok in Hrun.
  destruct Hrun as (answers & Hlen & Hsc & -> & Her).
  destruct answers as [ | [ms1 qs1] [ | [ms2 qs2] [ | [ms3 qs3] [ | ]]]];
    try discriminate.
  inversion Hsc as [ | ? ? (Hm1 & Hq1 & Ho1) Hsc' ]; subst.
  inversion Hsc' as [ | ? ? (Hm2 & Hq2 & Ho2) Hsc'' ]; subst.
  inversion Hsc'' as [ | ? ? (Hm3 & Hq3 & Ho3) _ ]; subst.
  simpl fst in *. simpl snd in *.
  split; [ rewrite Her; reflexivity | ]. split.
  - intros label clf Hin. apply ensemble_In in Hin.
    destruct Hin as (k & Hk & -> & ->).
    unfold fits_of. rewrite fit_log_sweep.
    rewrite !filter_app, !chain_fits, !forest_config by lia.
    rewrite Her. cbn [fst snd].
    destruct k as [ | [ | [ | k]]]; try lia; cbn [Nat.eqb app];
      rewrite ?app_nil_r;
      [ exists (curve_of sizes qs1) | exists (curve_of sizes qs2)
      | exists (curve_of sizes qs3) ];
      (split; [ reflexivity | ]);
      (split; [ apply curve_of_fst; assumption | ]);
      (split; [ apply chain_recorded; assumption | ]).
    + apply (chain_warm _ _ sizes ms1 (forest Model 0)).
    + apply (chain_warm _ _ sizes ms2 (forest Model 1)).
    + apply (chain_warm _ _ sizes ms3 (forest Model 2)).
  - rewrite Her.
    change (Ev (Print (RText __doc__)) (Ok tt)
            :: Ev (MakeClassification dataset_args) (Ok (oob_X ns, oob_y ns))
            :: sweep_events (oob_X ns) (oob_y ns)
                 [(ms1, qs1); (ms2, qs2); (ms3, qs3)]
               ++ plot_events (sweep_curves [(ms1, qs1); (ms2, qs2); (ms3, qs3)]))
      with ([Ev (Print (RText __doc__)) (Ok tt);
             Ev (MakeClassification (Model := Model) dataset_args)
                (Ok (oob_X ns, oob_y ns))]
            ++ sweep_events (oob_X ns) (oob_y ns)
                 [(ms1, qs1); (ms2, qs2); (ms3, qs3)]
            ++ plot_events (sweep_curves [(ms1, qs1); (ms2, qs2); (ms3, qs3)])).
    rewrite !plot_log_app, plot_log_plot_events.
    unfold sweep_events, ensemble_clfs. cbn [combine flat_map fst snd].
    rewrite !plot_log_app, !plot_log_chain. reflexivity.
Qed.

(** ** Notebook 1: the sweep *)

Lemma range_In lo hi i : In i (range lo hi) <-> lo <= i < hi.
Proof.
  unfold range. rewrite in_map_iff. split.
  - intros (k & <- & Hk). apply in_seq in Hk. lia.
  - intros Hi. exists (Z.to_nat (i - lo)). split; [ lia | ].
    apply in_seq. lia.
Qed.

(** C1. When the library answers its calls, the first notebook runs to the
    end.  Its three forests are the ones with [max_features] 'sqrt', 'log2'
    and None, and [error_rate] has one curve per forest, in that order.  The
    curve of a forest has one pair per integer size from 15 to 175
    inclusive, in order, and
    its pairs match that forest's fits one for one: the fit was made with
    [n_estimators] set to the pair's size, on the generated [X] and [y], and
    the pair's value is one minus the [oob_score_] the fit came back with.
    Each curve is then handed to [plt.plot] under its label. *)
Theorem oob_sweep_records_every_size h :
  library_total oob_score_ h ->
  exists ns tr,
    run h (plot_ensemble_oob oob_score_) = (Ok ns, tr) /\
    map (fun lc => kw_get "max_features" (params (snd lc)))
        (ensemble_clfs Model)
      = [Some (PStr "sqrt"); Some (PStr "log2"); Some PNone] /\
    map fst (error_rate ns) = map fst (ensemble_clfs Model) /\
    (forall i, In i (range 15 (175 + 1)) <-> 15 <= i <= 175) /\
    (forall label clf,
        In (label, clf) (ensemble_clfs Model) ->
        exists c,
          od_get label (error_rate ns) = Some c /\
          map fst c = range 15 (175 + 1) /\
          Forall2 (recorded oob_score_ (oob_X ns) (oob_y ns))
                  (fits_of clf tr) c) /\
    plot_log tr = map plotted (error_rate ns).
Proof.
  intros Htot. destruct (notebook_total Htot) as (ns & tr & Hrun).
  exists ns, tr. split; [ exact Hrun | ].
  pose proof Hrun as Hf. apply notebook_facts in Hf.
  destruct Hf as (Hkeys & Hcurves & Hplots).
  split; [ reflexivity | ]. split; [ exact Hkeys | ].
  split; [ intros i; rewrite range_In; lia | ].
  split; [ | exact Hplots ].
  intros label clf Hin. destruct (Hcurves label clf Hin) as (c & Hc & Hs & Hr & _).
  exists c. auto.
Qed.

(** ** Notebook 2, cell by cell *)

Ltac symex h H :=
  cbn [run pbind bind Monad_prog call ret lift] in H;
  repeat (match type of H with
          | context [h ?T ?op] => destruct (h T op) eqn:?
          | context [lift ?r] => destruct r eqn:?
          end;
          cbn [run pbind bind Monad_prog call ret lift] in H;
          try discriminate H).

Lemma soge_read_ok h df0 tr :
  run h soge_read = (Ok df0, tr) ->
  h _ (ReadCsv data_path data_names) = Ok df0 /\
  tr = [Ev (ReadCsv data_path data_names) (Ok df0);
        Ev (Display (RFrame (head df0))) (Ok tt)].
Proof.
  unfold soge_read. intros H. symex h H.
  inversion H; subst. destruct a0. auto.
Qed.

Lemma get_item_get_column df name v w :
  get_item df name = Ok v -> get_column df name = Ok w -> v = w.
Proof.
  unfold get_item, get_column. destruct (index_of name (columns df)).
  - intros H1 H2. inversion H1. inversion H2. reflexivity.
  - discriminate.
Qed.

Lemma soge_upsample_ok h df0 fr tr :
  run h (soge_upsample df0) = (Ok fr, tr) ->
  exists balance0 balance balance_up counts counts_up,
    get_column df0 "balance" = Ok balance0 /\
    set_item df0 "balance" (binarize balance0) = Ok (df fr) /\
    get_column (df fr) "balance" = Ok balance /\
    df_majority fr
      = select_rows (df fr) (map (fun b => cell_eq_int b 0) balance) /\
    df_minority fr
      = select_rows (df fr) (map (fun b => cell_eq_int b 1) balance) /\
    h _ (Resample (df_minority fr) resample_args)
      = Ok (df_minority_upsampled fr) /\
    df_upsampled fr = concat (df_majority fr) (df_minority_upsampled fr) /\
    get_column (df_upsampled fr) "balance" = Ok balance_up /\
    tr = [Ev (ValueCounts balance) (Ok counts);
          Ev (Resample (df_minority fr) resample_args)
             (Ok (df_minority_upsampled fr));
          Ev (ValueCounts balance_up) (Ok counts_up);
          Ev (Display (RCounts counts_up)) (Ok tt)].
Proof.
  unfold soge_upsample. intros H. symex h H.
  inversion H; subst. simpl.
  repeat match goal with u : unit |- _ => destruct u end.
  match goal with
  | Hi : get_item _ _ = Ok ?v, Hc : get_column _ _ = Ok ?w |- _ =>
      pose proof (get_item_get_column _ _ Hi Hc); subst v
  end.
  do 5 eexists. repeat split; eauto.
Qed.

Lemma soge_logistic_ok h dfu c tr :
  run h (soge_logistic dfu) = (Ok c, tr) ->
  exists y X m pred u acc,
    get_column dfu "balance" = Ok y /\ drop dfu "balance" = Ok X /\
    c = with_fitted LogisticRegression m /\
    tr = accuracy_events LogisticRegression (values X) y m pred u acc.
Proof.
  unfold soge_logistic. intros H. symex h H.
  inversion H; subst.
  repeat match goal with u : unit |- _ => destruct u end.
  do 6 eexists. repeat split; eauto.
Qed.

Lemma soge_svc_ok h d c tr :
  run h (soge_svc d) = (Ok c, tr) ->
  exists y X m pred u acc probs scores auc,
    get_column d "balance" = Ok y /\ drop d "balance" = Ok X /\
    c = with_fitted SVC m /\ second_column probs = Ok scores /\
    tr = accuracy_events SVC (values X) y m pred u acc
         ++ auroc_events (with_fitted SVC m) (values X) y probs scores auc.
Proof.
  unfold soge_svc. intros H. symex h H.
  inversion H; subst.
  repeat match goal with u : unit |- _ => destruct u end.
  do 9 eexists. repeat split; eauto.
Qed.

Lemma soge_forest_ok h d c tr :
  run h (soge_forest d) = (Ok c, tr) ->
  exists y X m pred u acc probs scores auc,
    get_column d "balance" = Ok y /\ drop d "balance" = Ok X /\
    c = with_fitted RandomForestClassifier m /\
    second_column probs = Ok scores /\
    tr = accuracy_events RandomForestClassifier (values X) y m pred u acc
         ++ auroc_events (with_fitted RandomForestClassifier m) (values X) y
              probs scores auc.
Proof.
  unfold soge_forest. intros H. symex h H.
  inversion H; subst.
  repeat match goal with u : unit |- _ => destruct u end.
  do 9 eexists. repeat split; eauto.
Qed.

(** The whole second notebook, when it runs to the end. *)
Lemma soge2_ok h ns tr :
  run h soge2 = (Ok ns, tr) ->
  exists df0 tr_up yu Xu y X,
    h _ (ReadCsv data_path data_names) = Ok df0 /\
    run h (soge_upsample df0) = (Ok (soge_frames ns), tr_up) /\
    get_column (df_upsampled (soge_frames ns)) "balance" = Ok yu /\
    drop (df_upsampled (soge_frames ns)) "balance" = Ok Xu /\
    get_column (df (soge_frames ns)) "balance" = Ok y /\
    drop (df (soge_frames ns)) "balance" = Ok X /\
    exists m1 p1 u1 a1 m3 p3 u3 a3 pr3 sc3 auc3 m4 p4 u4 a4 pr4 sc4 auc4,
      clf_1 ns = with_fitted LogisticRegression m1 /\
      clf_3 ns = with_fitted SVC m3 /\
      clf_4 ns = with_fitted RandomForestClassifier m4 /\
      tr = [Ev (ReadCsv data_path data_names) (Ok df0);
            Ev (Display (RFrame (head df0))) (Ok tt)]
           ++ tr_up
           ++ accuracy_events LogisticRegression (values Xu) yu m1 p1 u1 a1
           ++ (accuracy_events SVC (values X) y m3 p3 u3 a3
               ++ auroc_events (with_fitted SVC m3) (values X) y pr3 sc3 auc3)
           ++ (accuracy_events RandomForestClassifier (values X) y m4 p4 u4 a4
               ++ auroc_events (with_fitted RandomForestClassifier m4)
                    (values X) y pr4 sc4 auc4).
Proof.
  unfold soge2. cbn [bind Monad_prog]. intros H.
  apply run_bind_ok in H. destruct H as (df0 & t1 & t1' & Hr & H & ->).
  apply run_bind_ok in H. destruct H as (fr & t2 & t2' & Hu & H & ->).
  apply run_bind_ok in H. destruct H as (c1 & t3 & t3' & H1 & H & ->).
  apply run_bind_ok in H. destruct H as (c3 & t4 & t4' & H3 & H & ->).
  apply run_bind_ok in H. destruct H as (c4 & t5 & t5' & H4 & H & ->).
  apply run_ret_ok in H. destruct H as [-> ->]. simpl.
  apply soge_read_ok in Hr. destruct Hr as [Hr ->].
  apply soge_logistic_ok in H1.
  destruct H1 as (yu & Xu & m1 & p1 & u1 & a1 & Hyu & HXu & -> & ->).
  apply soge_svc_ok in H3.
  destruct H3 as (y & X & m3 & p3 & u3 & a3 & pr3 & sc3 & auc3
                  & Hy & HX & -> & Hsc3 & ->).
  apply soge_forest_ok in H4.
  destruct H4 as (y' & X' & m4 & p4 & u4 & a4 & pr4 & sc4 & auc4
                  & Hy' & HX' & -> & Hsc4 & ->).
  rewrite Hy in Hy'. inversion Hy'; subst y'.
  rewrite HX in HX'. inversion HX'; subst X'.
  exists df0, t2, yu, Xu, y, X. repeat (split; [ assumption | ]).
  exists m1, p1, u1, a1, m3, p3, u3, a3, pr3, sc3, auc3, m4, p4, u4, a4,
         pr4, sc4, auc4.
  rewrite app_nil_r. auto.
Qed.

(** ** The curves after the sweep *)

Lemma range_sorted lo hi : StronglySorted Z.lt (range lo hi).
Proof.
  unfold range. generalize (Z.to_nat (hi - lo)) as n. intros n.
  generalize 0%nat as s. induction n as [ | n IH]; intros s; simpl.
  - constructor.
  - constructor; [ apply IH | ].
    rewrite Forall_map. apply Forall_forall. intros k Hk.
    apply in_seq in Hk. lia.
Qed.

Lemma chain_bounded h X y (l : list Z) :
  oob_score_contract oob_score_ h ->
  forall (ms : list Model) qs (clf : estimator Model),
    Forall (answered_by h) (fit_events X y clf l ms) ->
    List.length ms = List.length l ->
    Forall2 (fun m q => oob_score_ m = Some q) ms qs ->
    Forall (fun q => (0 <= q)%Q /\ (q <= 1)%Q) qs.
Proof.
  intros Hc. induction l as [ | i l IH]; intros ms qs clf Hans Hlen Hall.
  - destruct ms; [ | discriminate ]. inversion Hall. constructor.
  - destruct ms as [ | m ms]; [ discriminate | ].
    inversion Hall as [ | m' q ms' qs' Hq Hall' ]; subst.
    simpl in Hans. inversion Hans as [ | ev evs Hev Hans' ]; subst.
    simpl in Hev. constructor.
    + eapply Hc; eauto.
    + eapply IH; eauto.
Qed.

Lemma curve_of_bounded (l : list Z) :
  forall qs,
    Forall (fun q => (0 <= q)%Q /\ (q <= 1)%Q) qs ->
    Forall (fun p : Z * Q => (0 <= snd p)%Q /\ (snd p <= 1)%Q) (curve_of l qs).
Proof.
  unfold curve_of. induction l as [ | i l IH]; intros qs Hqs; simpl.
  - constructor.
  - destruct Hqs as [ | q qs [H0 H1] Hqs]; simpl; constructor; auto.
    simpl. split; lra.
Qed.

(** C9. When the sweep loop has completed, [error_rate] holds three curves.
    Each has exactly 161 pairs, whose first components are the integers 15
    to 175 in strictly increasing order.  Given that the library's
    out-of-bag score is a fraction between 0 and 1, every recorded error
    [1 - oob_score_] lies between 0 and 1 as well. *)
Theorem sweep_curves_shape h ns tr :
  oob_score_contract oob_score_ h ->
  run h (oob_sweep oob_score_) = (Ok ns, tr) ->
  List.length (error_rate ns) = 3%nat /\
  Forall (fun lc : string * curve =>
            List.length (snd lc) = 161%nat /\
            map fst (snd lc) = range 15 (175 + 1) /\
            StronglySorted Z.lt (map fst (snd lc)) /\
            Forall (fun p : Z * Q => (0 <= snd p)%Q /\ (snd p <= 1)%Q) (snd lc))
         (error_rate ns).
Proof.
  intros Hc Hrun. pose proof (run_answered h (oob_sweep oob_score_)) as Hans.
  rewrite Hrun in Hans. simpl in Hans.
  apply oob_sweep_ok in Hrun.
  destruct Hrun as (answers & Hlen & Hsc & -> & ->).
  destruct answers as [ | [ms1 qs1] [ | [ms2 qs2] [ | [ms3 qs3] [ | ]]]];
    try discriminate.
  split; [ reflexivity | ].
  inversion Hans as [ | ? ? _ Hans1 ]; subst.
  inversion Hans1 as [ | ? ? _ Hans2 ]; subst. clear Hans Hans1.
  unfold sweep_events, ensemble_clfs in Hans2.
  cbn [combine flat_map fst snd] in Hans2.
  apply Forall_app in Hans2. destruct Hans2 as [Ha1 Hans2].
  apply Forall_app in Hans2. destruct Hans2 as [Ha2 Hans2].
  apply Forall_app in Hans2. destruct Hans2 as [Ha3 _].
  inversion Hsc as [ | ? ? (Hm1 & Hq1 & Ho1) Hsc' ]; subst.
  inversion Hsc' as [ | ? ? (Hm2 & Hq2 & Ho2) Hsc'' ]; subst.
  inversion Hsc'' as [ | ? ? (Hm3 & Hq3 & Ho3) _ ]; subst.
  simpl fst in *. simpl snd in *.
  unfold sweep_curves, ensemble_clfs. cbn [combine map fst snd].
  repeat apply Forall_cons; try apply Forall_nil; cbn [snd];
    (split; [ rewrite curve_of_length by assumption; reflexivity | ]);
    (split; [ apply curve_of_fst; assumption | ]);
    (split; [ rewrite curve_of_fst by assumption; apply range_sorted | ]);
    apply curve_of_bounded.
  - eapply chain_bounded; [ exact Hc | exact Ha1 | exact Hm1 | exact Ho1 ].
  - eapply chain_bounded; [ exact Hc | exact Ha2 | exact Hm2 | exact Ho2 ].
  - eapply chain_bounded; [ exact Hc | exact Ha3 | exact Hm3 | exact Ho3 ].
Qed.

(** ** Seeds *)

Lemma oob_step_pinned h X y label i clf er :
  seeded clf ->
  issues h (@pinned Model) (fun st => seeded (fst st))
         (oob_step oob_score_ X y label i (clf, er)).
Proof.
  intros Hs. unfold oob_step. simpl. split.
  - unfold pinned, seeded_with. simpl.
    rewrite kw_get_set_other by discriminate. rewrite Hs. auto.
  - intros m _. unfold attr_oob_score_. simpl.
    destruct (oob_score_ m); simpl; auto.
    destruct (od_append _ _ _); simpl; auto.
    unfold seeded. simpl. rewrite kw_get_set_other by discriminate. exact Hs.
Qed.

Lemma oob_sweep_pinned h :
  issues h (@pinned Model) (fun _ => True) (oob_sweep oob_score_).
Proof.
  unfold oob_sweep. cbn [bind Monad_prog].
  eapply issues_bind; [ apply issues_call; split; [ reflexivity | exact I ] | ].
  intros _ _.
  eapply issues_bind;
    [ apply issues_call; split; [ reflexivity | reflexivity ] | ].
  intros [X y] _.
  eapply issues_bind with (Q := fun _ => True); [ | simpl; auto ].
  apply issues_for_each; [ | exact I ].
  intros lc [done er] Hin _. cbn [bind Monad_prog].
  eapply issues_bind with (Q := fun st => seeded (fst st)); [ | simpl; auto ].
  apply issues_for_each.
  - intros i [clf er'] _ Hs. apply oob_step_pinned. exact Hs.
  - simpl in Hin. destruct Hin as [<- | [<- | [<- | []]]]; reflexivity.
Qed.

Lemma oob_plot_renders h (P : event Model -> Prop) (er : OrderedDict curve) :
  (forall ev, renders ev = true -> P ev) ->
  issues h P (fun _ => True) (oob_plot er).
Proof.
  intros HP. unfold oob_plot. cbn [bind Monad_prog].
  eapply issues_bind with (Q := fun _ => True).
  - apply issues_for_each; [ | exact I ].
    intros lc [] _ _. cbn [bind Monad_prog].
    eapply issues_bind; [ apply issues_lift | ].
    intros xy _. simpl. split; [ apply HP; reflexivity | auto ].
  - intros _ _. simpl. repeat split; auto; apply HP; reflexivity.
Qed.

Lemma renders_pinned (ev : event Model) : renders ev = true -> pinned ev.
Proof.
  destruct ev as [T op r]. destruct op; simpl; try discriminate;
    intros _; split; simpl; auto.
Qed.

Lemma renders_dataset_ok (ev : event Model) :
  renders ev = true -> dataset_ok ev.
Proof.
  destruct ev as [T op r]. destruct op; simpl; try discriminate;
    intros _; exact I.
Qed.

Lemma notebook_pinned h :
  issues h (@pinned Model) (fun _ => True) (plot_ensemble_oob oob_score_).
Proof.
  unfold plot_ensemble_oob. cbn [bind Monad_prog].
  eapply issues_bind; [ apply oob_sweep_pinned | ].
  intros ns _.
  eapply issues_bind; [ apply oob_plot_renders; apply renders_pinned | ].
  intros _ _. exact I.
Qed.

Lemma pinned_not_external h (A : Type) (Q : A -> Prop) (p : prog Model A) :
  issues h (@pinned Model) Q p ->
  issues h (fun ev => external_call ev = false) Q p.
Proof.
  induction p as [? a | ? e | ? X op k IH | ? X body IHb hd IHh k IH];
    simpl; auto; try contradiction.
  intros [[HP _] Hk]. split; auto.
Qed.

(** C8. The first notebook leaves nothing to chance.  [RANDOM_STATE] is
    123; every randomised call it makes (the dataset generation and every
    fit of the three forests) carries [random_state=123], and it makes no
    external call.  So two runs against one library, whatever the files on
    disk and the ambient randomness, make the same calls and get the same
    answers, and when the sweep completes in both they end with the same
    [error_rate]. *)
Theorem oob_notebook_deterministic h1 h2 :
  same_library h1 h2 ->
  RANDOM_STATE = 123 /\
  Forall (seeded_with 123) (snd (run h1 (plot_ensemble_oob oob_score_))) /\
  run h1 (plot_ensemble_oob oob_score_) = run h2 (plot_ensemble_oob oob_score_) /\
  forall ns1 tr1 ns2 tr2,
    run h1 (oob_sweep oob_score_) = (Ok ns1, tr1) ->
    run h2 (oob_sweep oob_score_) = (Ok ns2, tr2) ->
    error_rate ns1 = error_rate ns2.
Proof.
  intros Hsame. split; [ reflexivity | ]. split; [ | split ].
  - eapply Forall_impl; [ | eapply issues_trace; apply notebook_pinned ].
    intros ev [_ Hs]. exact Hs.
  - eapply issues_same_run; [ exact Hsame | ].
    apply pinned_not_external. apply notebook_pinned.
  - intros ns1 tr1 ns2 tr2 H1 H2.
    assert (E : run h1 (oob_sweep oob_score_) = run h2 (oob_sweep oob_score_)).
    { eapply issues_same_run; [ exact Hsame | ].
      apply pinned_not_external. apply oob_sweep_pinned. }
    rewrite H1, H2 in E. inversion E. reflexivity.
Qed.

(** ** Exceptions *)

Lemma no_handler_bind (A B : Type) (p : prog Model A) (f : A -> prog Model B) :
  no_handler p -> (forall a, no_handler (f a)) -> no_handler (pbind p f).
Proof.
  intros Hp Hf.
  induction p as [? a | ? e | ? X op k IH | ? X body IHb hd IHh k IH];
    simpl in *; auto.
Qed.

Lemma no_handler_call (X : Type) (op : libop Model X) : no_handler (call op).
Proof. simpl. auto. Qed.

Lemma no_handler_lift (A : Type) (r : result A) :
  no_handler (lift (Model := Model) r).
Proof. destruct r; exact I. Qed.

Lemma no_handler_for_each (A S : Type) (l : list A)
  (body : A -> S -> prog Model S) :
  (forall a s, no_handler (body a s)) ->
  forall s, no_handler (for_each l body s).
Proof.
  intros Hbody. induction l as [ | a l IH]; intros s; simpl.
  - exact I.
  - apply no_handler_bind; auto.
Qed.

Ltac no_handler_steps :=
  repeat (cbn [bind ret Monad_prog];
          first [ exact I
                | apply no_handler_call
                | apply no_handler_lift
                | apply no_handler_for_each; intros
                | apply no_handler_bind; [ | intros ] ]).

Lemma oob_step_no_handler X y label i st :
  no_handler (oob_step oob_score_ X y label i st).
Proof. destruct st as [clf er]. unfold oob_step. no_handler_steps. Qed.

Lemma notebook_no_handler : no_handler (plot_ensemble_oob oob_score_).
Proof.
  unfold plot_ensemble_oob, oob_sweep, oob_plot. no_handler_steps.
  apply oob_step_no_handler.
Qed.

Lemma soge2_no_handler : no_handler (soge2 (Model := Model)).
Proof.
  unfold soge2, soge_read, soge_upsample, soge_logistic, soge_svc,
    soge_forest.
  no_handler_steps.
Qed.

(** C3. Neither notebook has error-handling logic of its own: on no path
    through either script, whatever the library answers, is there a [try]
    statement.  So in any run of either one, a library call that raises is
    the last call made (nothing is retried, nothing recovers and nothing
    runs after it), and the exception it raised is how the run ends.  In
    particular, when [read_csv] raises (a missing file, rows it cannot
    parse), the second notebook ends with that exception after that one
    call, and a [fit] of the sweep that raises ends the first. *)
Theorem failures_propagate h :
  no_handler (plot_ensemble_oob oob_score_) /\
  no_handler (soge2 (Model := Model)) /\
  propagates (run h (plot_ensemble_oob oob_score_)) /\
  propagates (run h soge2) /\
  (forall e,
      h _ (ReadCsv data_path data_names) = Err e ->
      run h soge2 = (Err e, [Ev (ReadCsv data_path data_names) (Err e)])) /\
  (forall clf X y e pre post,
      snd (run h (plot_ensemble_oob oob_score_))
        = pre ++ Ev (Fit clf X y) (Err e) :: post ->
      post = [] /\ fst (run h (plot_ensemble_oob oob_score_)) = Err e).
Proof.
  split; [ apply notebook_no_handler | ].
  split; [ apply soge2_no_handler | ].
  split; [ apply run_propagates; apply notebook_no_handler | ].
  split; [ apply run_propagates; apply soge2_no_handler | ].
  split.
  - intros e He. unfold soge2, soge_read. simpl. rewrite He. reflexivity.
  - intros clf X y e pre post Htr.
    eapply (run_propagates h (plot_ensemble_oob oob_score_));
      [ apply notebook_no_handler | exact Htr | reflexivity ].
Qed.

(** ** Frames stay well formed *)

Lemma index_of_lt name cols j :
  index_of name cols = Some j -> (j < List.length cols)%nat.
Proof.
  revert j. induction cols as [ | c cols IH]; simpl; intros j; [ discriminate | ].
  destruct (String.eqb name c).
  - intros H; inversion H; lia.
  - destruct (index_of name cols) as [j' | ]; simpl; [ | discriminate ].
    intros H; inversion H; subst. specialize (IH j' eq_refl). lia.
Qed.

Lemma replace_nth_length (A : Type) n (x : A) l :
  List.length (replace_nth n x l) = List.length l.
Proof.
  revert n. induction l as [ | a l IH]; intros [ | n]; simpl; auto.
Qed.

Lemma remove_nth_length (A : Type) n (l : list A) :
  (n < List.length l)%nat ->
  S (List.length (remove_nth n l)) = List.length l.
Proof.
  revert n. induction l as [ | a l IH]; intros [ | n]; simpl; intros H;
    try lia. rewrite IH; lia.
Qed.

Lemma set_item_well_formed d name vals d' :
  well_formed d -> set_item d name vals = Ok d' -> well_formed d'.
Proof.
  unfold well_formed, rectangular, set_item. intros Hwf.
  destruct (Nat.eqb _ _); [ | discriminate ].
  rewrite Forall_forall in Hwf.
  destruct (index_of name (columns d)) as [j | ]; intros H; inversion H; subst;
    simpl; apply Forall_forall; intros row Hrow; apply in_map_iff in Hrow;
    destruct Hrow as ([r v] & <- & Hin); apply in_combine_l in Hin; simpl.
  - rewrite replace_nth_length. auto.
  - rewrite !length_app. simpl. rewrite (Hwf r Hin). reflexivity.
Qed.

Lemma select_rows_incl d mask : incl (values (select_rows d mask)) (values d).
Proof.
  unfold select_rows. simpl. intros row Hrow. apply in_map_iff in Hrow.
  destruct Hrow as ([r b] & <- & Hin). apply filter_In in Hin.
  destruct Hin as [Hin _]. apply in_combine_l in Hin. exact Hin.
Qed.

Lemma incl_well_formed d d' :
  well_formed d -> columns d' = columns d -> incl (values d') (values d) ->
  well_formed d'.
Proof.
  unfold well_formed, rectangular. intros Hwf Hc Hi. rewrite Hc.
  rewrite Forall_forall in *. auto.
Qed.

Lemma select_rows_well_formed d mask :
  well_formed d -> well_formed (select_rows d mask).
Proof.
  intros Hwf. eapply incl_well_formed; eauto. apply select_rows_incl.
Qed.

Lemma resample_well_formed h d kw d' :
  resample_contract h -> well_formed d ->
  h _ (Resample d kw) = Ok d' -> well_formed d'.
Proof.
  intros Hc Hwf Hr. destruct (Hc _ _ _ Hr) as (Hcols & Hincl & _).
  eapply incl_well_formed; eauto.
Qed.

Lemma concat_well_formed a b :
  well_formed a -> well_formed b -> columns b = columns a ->
  well_formed (concat a b).
Proof.
  unfold well_formed, rectangular, concat. simpl. intros Ha Hb Hc.
  apply Forall_app. split; auto. rewrite <- Hc. exact Hb.
Qed.

Lemma drop_well_formed d name X :
  well_formed d -> drop d name = Ok X -> well_formed X.
Proof.
  unfold well_formed, rectangular, drop. intros Hwf.
  destruct (index_of name (columns d)) as [j | ] eqn:E; [ | discriminate ].
  intros H; inversion H; subst; simpl. apply index_of_lt in E.
  rewrite Forall_forall in *. intros row Hrow. apply in_map_iff in Hrow.
  destruct Hrow as (r & <- & Hin). specialize (Hwf r Hin).
  pose proof (@remove_nth_length _ j r).
  pose proof (@remove_nth_length _ j (columns d)).
  lia.
Qed.

Lemma get_column_length d name v :
  get_column d name = Ok v -> List.length v = List.length (values d).
Proof.
  unfold get_column. destruct (index_of name (columns d)); [ | discriminate ].
  intros H; inversion H. apply length_map.
Qed.

Lemma drop_length d name X :
  drop d name = Ok X -> List.length (values X) = List.length (values d).
Proof.
  unfold drop. destruct (index_of name (columns d)); [ | discriminate ].
  intros H; inversion H. simpl. apply length_map.
Qed.

Lemma training_set_ok d name y X :
  well_formed d -> get_column d name = Ok y -> drop d name = Ok X ->
  well_formed_dataset (values X, Some y) /\
  well_formed_dataset (values X, None).
Proof.
  intros Hwf Hy HX.
  assert (HwX : well_formed X) by (eapply drop_well_formed; eauto).
  unfold well_formed_dataset. simpl. repeat split.
  - exists (List.length (columns X)). exact HwX.
  - pose proof (@get_column_length d name y Hy).
    pose proof (@drop_length d name X HX). lia.
  - exists (List.length (columns X)). exact HwX.
Qed.

(** ** Every dataset handed to an estimator is well formed *)

Ltac issues_steps solver :=
  repeat (cbn [issues pbind bind Monad_prog call ret lift];
          match goal with
          | |- dataset_ok _ => solver
          | |- True => exact I
          | |- _ /\ _ => split
          | |- forall _, _ => intro
          | |- context [lift ?r] => destruct r eqn:?
          end).

Ltac training_set_solver :=
  unfold dataset_ok; cbn [dataset_of];
  first [ exact I
        | eapply training_set_ok; eassumption ].

Lemma soge_logistic_datasets h d :
  well_formed d ->
  issues h (@dataset_ok Model) (fun _ => True) (soge_logistic d).
Proof.
  intros Hwf. unfold soge_logistic. issues_steps training_set_solver.
Qed.

Lemma soge_svc_datasets h d :
  well_formed d ->
  issues h (@dataset_ok Model) (fun _ => True) (soge_svc d).
Proof.
  intros Hwf. unfold soge_svc. issues_steps training_set_solver.
Qed.

Lemma soge_forest_datasets h d :
  well_formed d ->
  issues h (@dataset_ok Model) (fun _ => True) (soge_forest d).
Proof.
  intros Hwf. unfold soge_forest. issues_steps training_set_solver.
Qed.

Lemma set_item_columns d name vals d' j :
  index_of name (columns d) = Some j ->
  set_item d name vals = Ok d' -> columns d' = columns d.
Proof.
  unfold set_item. intros E. rewrite E.
  destruct (Nat.eqb _ _); [ | discriminate ].
  intros H; inversion H; reflexivity.
Qed.

Lemma soge_upsample_frames h df0 fr tr :
  resample_contract h -> well_formed df0 ->
  run h (soge_upsample df0) = (Ok fr, tr) ->
  well_formed (df fr) /\ well_formed (df_majority fr) /\
  well_formed (df_minority fr) /\ well_formed (df_minority_upsampled fr) /\
  well_formed (df_upsampled fr).
Proof.
  intros Hc Hwf Hrun. apply soge_upsample_ok in Hrun.
  destruct Hrun as (b0 & b & bu & c1 & c2 & Hb0 & Hset & Hb & Hmaj & Hmin
                    & Hres & Hup & Hbu & _).
  assert (Hd : well_formed (df fr)) by (eapply set_item_well_formed; eauto).
  assert (Hma : well_formed (df_majority fr))
    by (rewrite Hmaj; apply select_rows_well_formed; exact Hd).
  assert (Hmi : well_formed (df_minority fr))
    by (rewrite Hmin; apply select_rows_well_formed; exact Hd).
  assert (Hru : well_formed (df_minority_upsampled fr))
    by (eapply resample_well_formed; eauto).
  repeat (split; [ assumption | ]).
  rewrite Hup. apply concat_well_formed; auto.
  destruct (Hc _ _ _ Hres) as (Hcols & _ & _). rewrite Hcols, Hmin, Hmaj.
  reflexivity.
Qed.

Lemma issues_post h (P : event Model -> Prop) (A : Type) (Q Q' : A -> Prop)
  (p : prog Model A) :
  issues h P Q p ->
  (forall a tr, run h p = (Ok a, tr) -> Q' a) ->
  issues h P Q' p.
Proof.
  induction p as [? a | ? e | ? X op k IH | ? X body IHb hd IHh k IH];
    simpl; intros Hp Hpost.
  - eapply Hpost. reflexivity.
  - exact I.
  - destruct Hp as [HP Hk]. split; [ exact HP | ].
    intros x Hx. apply (IH x Q); [ apply Hk; exact Hx | ].
    intros a tr Hrun. rewrite Hx in Hpost.
    eapply (Hpost a (Ev op (Ok x) :: tr)). rewrite Hrun. reflexivity.
  - contradiction.
Qed.

Lemma soge_upsample_datasets h df0 :
  issues h (@dataset_ok Model) (fun _ => True) (soge_upsample df0).
Proof.
  unfold soge_upsample. issues_steps training_set_solver.
Qed.

Lemma soge2_datasets h :
  read_csv_contract h -> resample_contract h ->
  issues h (@dataset_ok Model) (fun _ => True) soge2.
Proof.
  intros Hread Hres. unfold soge2. cbn [bind Monad_prog].
  eapply issues_bind with (Q := fun d => well_formed d).
  - unfold soge_read. simpl. split; [ exact I | ]. intros df0 Hdf0.
    split; [ exact I | ]. intros ? _. apply (Hread _ _ _ Hdf0).
  - intros df0 Hwf.
    eapply issues_bind
      with (Q := fun fr => well_formed (df fr) /\ well_formed (df_upsampled fr)).
    + eapply issues_post; [ apply soge_upsample_datasets | ].
      intros fr tr Hrun.
      destruct (soge_upsample_frames Hres Hwf Hrun) as (? & _ & _ & _ & ?).
      auto.
    + intros fr [Hd Hu].
      eapply issues_bind; [ apply soge_logistic_datasets; exact Hu | ].
      intros ? _.
      eapply issues_bind; [ apply soge_svc_datasets; exact Hd | ].
      intros ? _.
      eapply issues_bind; [ apply soge_forest_datasets; exact Hd | ].
      intros ? _. exact I.
Qed.

Lemma notebook_datasets h :
  make_classification_contract h ->
  issues h (@dataset_ok Model) (fun _ => True) (plot_ensemble_oob oob_score_).
Proof.
  intros Hmake. unfold plot_ensemble_oob, oob_sweep. cbn [bind Monad_prog].
  eapply issues_bind with (Q := fun _ => True).
  - eapply issues_bind; [ apply issues_call; exact I | ].
    intros ? _.
    eapply issues_bind; [ apply issues_call; exact I | ].
    intros [X y] HXy. cbn beta in HXy.
    destruct (Hmake _ _ _ 500 25 HXy eq_refl eq_refl) as (Hrect & HlX & Hly).
    assert (Hok : well_formed_dataset (X, Some y)).
    { split; simpl; [ eexists; exact Hrect | lia ]. }
    eapply issues_bind with (Q := fun _ => True); [ | simpl; auto ].
    apply issues_for_each; [ | exact I ].
    intros lc [done er] _ _. cbn [bind Monad_prog].
    eapply issues_bind with (Q := fun _ => True); [ | simpl; auto ].
    apply issues_for_each; [ | exact I ].
    intros i [clf er'] _ _. unfold oob_step. simpl. split; [ exact Hok | ].
    intros m _. destruct (attr_oob_score_ _ _); simpl; auto.
    destruct (od_append _ _ _); simpl; auto.
  - intros ns _. eapply issues_bind with (Q := fun _ => True).
    + apply oob_plot_renders. apply renders_dataset_ok.
    + intros ? _. exact I.
Qed.

(** C6. Given what [make_classification], [read_csv] and [resample]
    promise about shapes, every feature matrix handed to [fit], [predict] or
    [predict_proba], in any run of either notebook, has rows of one length,
    and every label vector handed to [fit] has one label per row.  Each
    transformation the second notebook applies keeps a frame well formed:
    the binarised column assignment, the row filter, the resampling, the
    concatenation and the column drop; so all five frames it binds are well
    formed. *)
Theorem datasets_are_well_formed h :
  make_classification_contract h -> read_csv_contract h ->
  resample_contract h ->
  Forall (@dataset_ok Model) (snd (run h (plot_ensemble_oob oob_score_))) /\
  Forall (@dataset_ok Model) (snd (run h soge2)) /\
  (forall ns tr,
      run h soge2 = (Ok ns, tr) ->
      well_formed (df (soge_frames ns)) /\
      well_formed (df_majority (soge_frames ns)) /\
      well_formed (df_minority (soge_frames ns)) /\
      well_formed (df_minority_upsampled (soge_frames ns)) /\
      well_formed (df_upsampled (soge_frames ns))) /\
  (forall d balance d',
      well_formed d -> set_item d "balance" (binarize balance) = Ok d' ->
      well_formed d') /\
  (forall d mask, well_formed d -> well_formed (select_rows d mask)) /\
  (forall d kw d',
      well_formed d -> h _ (Resample d kw) = Ok d' -> well_formed d') /\
  (forall a b,
      well_formed a -> well_formed b -> columns b = columns a ->
      well_formed (concat a b)) /\
  (forall d name X, well_formed d -> drop d name = Ok X -> well_formed X).
Proof.
  intros Hmake Hread Hres.
  split; [ eapply issues_trace; apply notebook_datasets; exact Hmake | ].
  split; [ eapply issues_trace; apply soge2_datasets; assumption | ].
  split.
  - intros ns tr Hrun. apply soge2_ok in Hrun.
    destruct Hrun as (df0 & tr_up & _ & _ & _ & _ & Hdf0 & Hup & _).
    eapply soge_upsample_frames; eauto. apply (Hread _ _ _ Hdf0).
  - split; [ intros; eapply set_item_well_formed; eauto | ].
    split; [ intros; apply select_rows_well_formed; assumption | ].
    split; [ intros; eapply resample_well_formed; eauto | ].
    split; [ intros; apply concat_well_formed; assumption | ].
    intros; eapply drop_well_formed; eauto.
Qed.

(** ** The resampled frame *)

Lemma labels_after_set (rows : matrix) :
  forall vals : vector,
    Forall (fun r => r <> []) rows ->
    List.length vals = List.length rows ->
    map label_of (map (fun rv => replace_nth 0 (snd rv) (fst rv))
                      (combine rows vals)) = vals.
Proof.
  induction rows as [ | r rows IH]; intros [ | v vals] Hne Hlen; simpl in *;
    try discriminate; auto.
  inversion Hne as [ | ? ? Hr Hne' ]; subst.
  destruct r as [ | c r]; [ elim Hr; reflexivity | ]. simpl.
  unfold label_of at 1. simpl. f_equal. apply IH; auto.
Qed.

Lemma mask_filter (A : Type) (g : A -> bool) (l : list A) :
  map fst (filter snd (combine l (map g l))) = filter g l.
Proof.
  induction l as [ | a l IH]; simpl; auto.
  destruct (g a); simpl; rewrite IH; reflexivity.
Qed.

Lemma filter_map_length (A B : Type) (f : B -> bool) (g : A -> B) l :
  List.length (filter (fun a => f (g a)) l) = List.length (filter f (map g l)).
Proof.
  induction l as [ | a l IH]; simpl; auto.
  destruct (f (g a)); simpl; rewrite IH; reflexivity.
Qed.

Lemma binarize_labels v :
  Forall (fun c => c = CInt 0 \/ c = CInt 1) (binarize v).
Proof.
  unfold binarize. apply Forall_forall. intros c Hc.
  apply in_map_iff in Hc. destruct Hc as (b & <- & _).
  destruct (cell_eq_str b "B"); auto.
Qed.

Lemma binarize_count0 v : count_label 0 (binarize v) = count_not_B v.
Proof.
  unfold count_label, count_not_B, binarize.
  induction v as [ | b v IH]; simpl; auto.
  destruct (cell_eq_str b "B"); simpl; rewrite IH; reflexivity.
Qed.

Lemma count_label_app z a b :
  count_label z (a ++ b) = (count_label z a + count_label z b)%nat.
Proof. unfold count_label. rewrite filter_app, length_app. reflexivity. Qed.

Lemma count_label_all z z' v :
  Forall (fun c => c = CInt z') v ->
  count_label z v = if Z.eqb z' z then List.length v else 0%nat.
Proof.
  unfold count_label. induction 1 as [ | c v Hc _ IH]; simpl.
  - destruct (Z.eqb z' z); reflexivity.
  - subst c. simpl. destruct (Z.eqb z' z); simpl; rewrite IH; reflexivity.
Qed.

Lemma get_column_balance d :
  columns d = data_names ->
  get_column d "balance" = Ok (map label_of (values d)).
Proof. unfold get_column. intros ->. reflexivity. Qed.

Lemma selected_labels (rows : matrix) z :
  Forall (fun c => c = CInt 0 \/ c = CInt 1) (map label_of rows) ->
  (z = 0 \/ z = 1) ->
  Forall (fun c => c = CInt z)
         (map label_of (filter (fun r => cell_eq_int (label_of r) z) rows)).
Proof.
  intros Hbin Hz. apply Forall_forall. intros c Hc.
  apply in_map_iff in Hc. destruct Hc as (r & <- & Hr).
  apply filter_In in Hr. destruct Hr as [Hr Hz'].
  rewrite Forall_forall in Hbin.
  destruct (Hbin (label_of r)) as [E | E]; [ apply in_map; exact Hr | | ];
    rewrite E in *; simpl in Hz'; destruct Hz as [-> | ->];
    try reflexivity; discriminate.
Qed.

Lemma soge_upsample_labels h df0 fr tr :
  resample_contract h -> well_formed df0 -> columns df0 = data_names ->
  run h (soge_upsample df0) = (Ok fr, tr) ->
  get_column (df fr) "balance" = Ok (binarize (map label_of (values df0))) /\
  Forall (fun c => c = CInt 0) (map label_of (values (df_majority fr))) /\
  List.length (values (df_majority fr))
    = count_not_B (map label_of (values df0)) /\
  Forall (fun c => c = CInt 1)
         (map label_of (values (df_minority_upsampled fr))) /\
  List.length (values (df_minority_upsampled fr)) = 576%nat /\
  get_column (df_upsampled fr) "balance"
    = Ok (map label_of (values (df_majority fr))
          ++ map label_of (values (df_minority_upsampled fr))) /\
  In (Ev (Resample (df_minority fr) resample_args)
         (Ok (df_minority_upsampled fr))) tr.
Proof.
  intros Hc Hwf Hcols Hrun. apply soge_upsample_ok in Hrun.
  destruct Hrun as (b0 & b & bu & c1 & c2 & Hb0 & Hset & Hb & Hmaj & Hmin
                    & Hres & Hup & Hbu & Htr).
  rewrite (get_column_balance _ Hcols) in Hb0. inversion Hb0; subst b0.
  clear Hb0.
  (* the frame after the assignment *)
  assert (Hdf : columns (df fr) = data_names /\
                map label_of (values (df fr))
                  = binarize (map label_of (values df0))).
  { unfold set_item in Hset. rewrite Hcols in Hset.
    unfold binarize in Hset at 1. rewrite !length_map, Nat.eqb_refl in Hset.
    simpl in Hset. inversion Hset as [Hd]. simpl. split; [ reflexivity | ].
    apply labels_after_set.
    - unfold well_formed, rectangular in Hwf. rewrite Hcols in Hwf.
      eapply Forall_impl; [ | exact Hwf ]. simpl. intros r Hr ->. discriminate.
    - unfold binarize. rewrite !length_map. reflexivity. }
  destruct Hdf as [Hdc Hdl].
  rewrite (get_column_balance _ Hdc) in Hb. inversion Hb; subst b. clear Hb.
  assert (Hbin : Forall (fun c => c = CInt 0 \/ c = CInt 1)
                        (map label_of (values (df fr)))).
  { rewrite Hdl. apply binarize_labels. }
  assert (Vmaj : values (df_majority fr)
                 = filter (fun r => cell_eq_int (label_of r) 0) (values (df fr))).
  { rewrite Hmaj. unfold select_rows. simpl. rewrite map_map.
    apply mask_filter. }
  assert (Vmin : values (df_minority fr)
                 = filter (fun r => cell_eq_int (label_of r) 1) (values (df fr))).
  { rewrite Hmin. unfold select_rows. simpl. rewrite map_map.
    apply mask_filter. }
  destruct (Hc _ _ _ Hres) as (Hrc & Hri & Hrn).
  split; [ rewrite (get_column_balance _ Hdc), Hdl; reflexivity | ].
  split; [ rewrite Vmaj; apply selected_labels; auto | ].
  split.
  { rewrite Vmaj.
    rewrite (filter_map_length (fun c => cell_eq_int c 0) label_of).
    rewrite Hdl. apply binarize_count0. }
  split.
  { apply Forall_forall. intros c Hcin. apply in_map_iff in Hcin.
    destruct Hcin as (r & <- & Hr). apply Hri in Hr. rewrite Vmin in Hr.
    assert (Hall := @selected_labels (values (df fr)) 1 Hbin (or_intror eq_refl)).
    rewrite Forall_forall in Hall. apply Hall. apply in_map. exact Hr. }
  split.
  { specialize (Hrn 576 eq_refl). lia. }
  split.
  { rewrite get_column_balance.
    - rewrite Hup. unfold concat. simpl. rewrite map_app. reflexivity.
    - rewrite Hup. unfold concat. simpl. rewrite Hmaj. simpl. exact Hdc. }
  rewrite Htr. simpl. auto.
Qed.

(** C10. Given what [read_csv] and [resample] promise, and on a data file
    with 576 rows whose class is not 'B' (as the balance-scale file has),
    when the second notebook has run: the labels of [df] are 1 where the
    class was 'B' and 0 elsewhere; [resample] was called on the label-1 rows
    with [replace=True] and [n_samples=576] and gave back exactly 576 rows;
    and [df_upsampled] holds exactly 576 rows with label 1 and 576 rows with
    label 0, every row's label being 0 or 1. *)
Theorem upsampled_classes_balanced h ns tr df0 balance0 :
  read_csv_contract h -> resample_contract h ->
  run h soge2 = (Ok ns, tr) ->
  h _ (ReadCsv data_path data_names) = Ok df0 ->
  get_column df0 "balance" = Ok balance0 ->
  count_not_B balance0 = 576%nat ->
  get_column (df (soge_frames ns)) "balance" = Ok (binarize balance0) /\
  In (Ev (Resample (df_minority (soge_frames ns)) resample_args)
         (Ok (df_minority_upsampled (soge_frames ns)))) tr /\
  kw_get "replace" resample_args = Some (PBool true) /\
  kw_get "n_samples" resample_args = Some (PInt 576) /\
  List.length (values (df_minority_upsampled (soge_frames ns))) = 576%nat /\
  exists balance_up,
    get_column (df_upsampled (soge_frames ns)) "balance" = Ok balance_up /\
    count_label 1 balance_up = 576%nat /\
    count_label 0 balance_up = 576%nat /\
    Forall (fun c => c = CInt 0 \/ c = CInt 1) balance_up.
Proof.
  intros Hread Hres Hrun Hdf0 Hb0 Hcount.
  apply soge2_ok in Hrun.
  destruct Hrun as (df0' & tr_up & yu & Xu & y & X & Hdf0' & Hup & _ & _ & _
                    & _ & m1 & p1 & u1 & a1 & m3 & p3 & u3 & a3 & pr3 & sc3 & auc3
                    & m4 & p4 & u4 & a4 & pr4 & sc4 & auc4 & _ & _ & _ & ->).
  rewrite Hdf0 in Hdf0'. inversion Hdf0'; subst df0'. clear Hdf0'.
  destruct (Hread _ _ _ Hdf0) as [Hcols Hwf].
  rewrite (get_column_balance _ Hcols) in Hb0. inversion Hb0; subst balance0.
  destruct (@soge_upsample_labels h df0 _ _ Hres Hwf Hcols Hup)
    as (Hdf & Hmaj & Hnmaj & Hmin & Hnmin & Hbu & Hin).
  split; [ exact Hdf | ].
  split; [ apply in_or_app; right; apply in_or_app; left; exact Hin | ].
  split; [ reflexivity | ]. split; [ reflexivity | ].
  split; [ exact Hnmin | ].
  eexists. split; [ exact Hbu | ].
  rewrite !count_label_app.
  rewrite (@count_label_all 1 _ _ Hmaj), (@count_label_all 1 _ _ Hmin).
  rewrite (@count_label_all 0 _ _ Hmaj), (@count_label_all 0 _ _ Hmin). simpl.
  rewrite !length_map. split; [ lia | ]. split; [ lia | ].
  apply Forall_app. split.
  - eapply Forall_impl; [ | exact Hmaj ]. simpl. auto.
  - eapply Forall_impl; [ | exact Hmin ]. simpl. auto.
Qed.

(** ** Which data each classifier of notebook 2 is fit on *)

Lemma training_set_intro d y X :
  get_column d "balance" = Ok y -> drop d "balance" = Ok X ->
  training_set d = Ok (values X, y).
Proof. unfold training_set. intros -> ->. reflexivity. Qed.

Lemma training_set_rows d X y :
  training_set d = Ok (X, y) -> List.length X = List.length (values d).
Proof.
  unfold training_set.
  destruct (get_column d "balance") as [y' | e]; [ | discriminate ].
  destruct (drop d "balance") as [X' | e] eqn:E; [ | discriminate ].
  intros H. inversion H; subst. eapply drop_length; eauto.
Qed.

Lemma fit_log_upsample h df0 fr tr :
  run h (soge_upsample df0) = (Ok fr, tr) ->
  fit_log tr = [] /\ (forall seen, models_local seen tr) /\
  count_calls (@is_load Model) tr = 0%nat /\
  immediately_rendered tr = true.
Proof.
  intros Hrun. apply soge_upsample_ok in Hrun.
  destruct Hrun as (b0 & b & bu & c1 & c2 & _ & _ & _ & _ & _ & _ & _ & _ & ->).
  repeat split; try reflexivity.
Qed.

(** C2 (as the code has it).  When the second notebook has run, it has made
    exactly three fits, in this order: a logistic regression, a linear SVC
    and a random forest; each is followed by a prediction on its own
    training matrix and an accuracy score against its own labels.  Only the
    logistic regression is fit on the training set of the resampled
    [df_upsampled]; the SVC and the forest are fit on the training set of
    [df], the frame that was not resampled.  The SVC is built with
    [class_weight='balanced']; the logistic regression and the forest are
    built without arguments. *)
Theorem only_logistic_is_fit_on_resampled h ns tr :
  run h soge2 = (Ok ns, tr) ->
  exists Xu yu X y m1 m3 m4,
    training_set (df_upsampled (soge_frames ns)) = Ok (Xu, yu) /\
    training_set (df (soge_frames ns)) = Ok (X, y) /\
    fit_log tr = [mkFit LogisticRegression Xu yu m1;
                  mkFit SVC X y m3;
                  mkFit RandomForestClassifier X y m4] /\
    kw_get "class_weight" (params (SVC (Model := Model)))
      = Some (PStr "balanced") /\
    params (LogisticRegression (Model := Model)) = [] /\
    params (RandomForestClassifier (Model := Model)) = [] /\
    exists pre p1 u1 a1 p3 u3 a3 pr3 sc3 auc3 p4 u4 a4 pr4 sc4 auc4,
      fit_log pre = [] /\
      tr = pre
           ++ accuracy_events LogisticRegression Xu yu m1 p1 u1 a1
           ++ (accuracy_events SVC X y m3 p3 u3 a3
               ++ auroc_events (with_fitted SVC m3) X y pr3 sc3 auc3)
           ++ (accuracy_events RandomForestClassifier X y m4 p4 u4 a4
               ++ auroc_events (with_fitted RandomForestClassifier m4) X y
                    pr4 sc4 auc4).
Proof.
  intros Hrun. apply soge2_ok in Hrun.
  destruct Hrun as (df0 & tr_up & yu & Xu & y & X & Hdf0 & Hup & Hyu & HXu & Hy
                    & HX & m1 & p1 & u1 & a1 & m3 & p3 & u3 & a3 & pr3 & sc3 & auc3
                    & m4 & p4 & u4 & a4 & pr4 & sc4 & auc4 & _ & _ & _ & ->).
  apply fit_log_upsample in Hup. destruct Hup as (Hfl & _).
  exists (values Xu), yu, (values X), y, m1, m3, m4.
  split; [ apply training_set_intro; assumption | ].
  split; [ apply training_set_intro; assumption | ].
  split.
  { rewrite !fit_log_app, Hfl. reflexivity. }
  split; [ reflexivity | ]. split; [ reflexivity | ]. split; [ reflexivity | ].
  exists ([Ev (ReadCsv data_path data_names) (Ok df0);
           Ev (Display (RFrame (head df0))) (Ok tt)] ++ tr_up).
  exists p1, u1, a1, p3, u3, a3, pr3, sc3, auc3, p4, u4, a4, pr4, sc4, auc4.
  split.
  - rewrite fit_log_app, Hfl. reflexivity.
  - rewrite <- app_assoc. reflexivity.
Qed.

(** ** Fitted state never comes from outside the run *)

Lemma models_local_mono tr :
  forall seen seen' : list Model,
    incl seen seen' -> models_local seen tr -> models_local seen' tr.
Proof.
  induction tr as [ | ev tr IH]; simpl; auto.
  intros seen seen' Hincl [Hev Htr]. split.
  - destruct (estimator_of ev) as [clf | ]; auto.
    destruct (fitted clf); auto.
  - eapply IH; [ | exact Htr ].
    destruct (fit_of ev); auto. apply incl_cons; simpl; auto.
    apply incl_tl. exact Hincl.
Qed.

Lemma models_local_app tr1 tr2 :
  forall seen : list Model,
    models_local seen tr1 -> (forall seen', models_local seen' tr2) ->
    models_local seen (tr1 ++ tr2).
Proof.
  induction tr1 as [ | ev tr1 IH]; simpl; intros seen H1 H2; auto.
  destruct H1 as [Hev H1]. split; auto.
Qed.

Lemma chain_local X y (l : list Z) :
  forall (ms : list Model) (clf : estimator Model) seen,
    match fitted clf with
    | Some m => In m seen
    | None => True
    end ->
    models_local seen (fit_events X y clf l ms).
Proof.
  induction l as [ | i l IH]; intros [ | m ms] clf seen Hclf; simpl; auto.
  split; [ exact Hclf | ]. apply IH. simpl. auto.
Qed.

Lemma plot_events_local (er : OrderedDict curve) :
  forall seen : list Model, models_local seen (plot_events er).
Proof.
  intros seen. unfold plot_events. apply models_local_app.
  - revert seen. induction er as [ | lc er IH]; intros seen; simpl; auto.
  - intros seen'. simpl. auto 10.
Qed.

Lemma sweep_events_local X y (a1 a2 a3 : list Model * list Q) :
  forall seen, models_local seen (sweep_events X y [a1; a2; a3]).
Proof.
  intros seen. unfold sweep_events, ensemble_clfs.
  cbn [combine flat_map fst snd].
  apply models_local_app; [ apply chain_local; exact I | ]. intros s1.
  apply models_local_app; [ apply chain_local; exact I | ]. intros s2.
  apply models_local_app; [ apply chain_local; exact I | ]. intros s3.
  exact I.
Qed.

Lemma count_calls_app (f : event Model -> bool) tr1 tr2 :
  count_calls f (tr1 ++ tr2) = (count_calls f tr1 + count_calls f tr2)%nat.
Proof. unfold count_calls. rewrite filter_app, length_app. reflexivity. Qed.

Lemma chain_metrics X y (l : list Z) :
  forall (ms : list Model) (clf : estimator Model),
    wants_oob clf = true -> List.length ms = List.length l ->
    count_calls (@computes_metric Model) (fit_events X y clf l ms)
      = List.length l /\
    count_calls (@is_load Model) (fit_events X y clf l ms) = 0%nat.
Proof.
  unfold count_calls.
  induction l as [ | i l IH]; intros [ | m ms] clf Hw Hlen; simpl in *;
    try discriminate; auto.
  rewrite wants_oob_set_params, Hw. simpl.
  destruct (IH ms (with_fitted (set_params clf "n_estimators" (PInt i)) m))
    as [H1 H2].
  - unfold wants_oob. simpl. rewrite kw_get_set_other by discriminate.
    exact Hw.
  - lia.
  - rewrite H1, H2. auto.
Qed.

Lemma plot_events_counts (er : OrderedDict curve) :
  count_calls (@is_load Model) (plot_events er) = 0%nat.
Proof.
  unfold plot_events. rewrite count_calls_app. simpl.
  unfold count_calls. induction er as [ | lc er IH]; simpl; auto.
Qed.

(** ** The life of a run *)

Lemma notebook_lifecycle h ns tr :
  run h (plot_ensemble_oob oob_score_) = (Ok ns, tr) ->
  count_calls (@is_load Model) tr = 1%nat /\
  models_local [] tr /\
  List.length (fit_log tr) = 483%nat /\
  exists pre,
    tr = pre ++ plot_events (error_rate ns) /\
    plot_log pre = [] /\
    count_calls (@computes_metric Model) pre = 483%nat.
Proof.
  intros Hrun. apply notebook_ok in Hrun.
  destruct Hrun as (answers & Hlen & Hsc & -> & Her).
  destruct answers as [ | [ms1 qs1] [ | [ms2 qs2] [ | [ms3 qs3] [ | ]]]];
    try discriminate.
  inversion Hsc as [ | ? ? (Hm1 & Hq1 & Ho1) Hsc' ]; subst.
  inversion Hsc' as [ | ? ? (Hm2 & Hq2 & Ho2) Hsc'' ]; subst.
  inversion Hsc'' as [ | ? ? (Hm3 & Hq3 & Ho3) _ ]; subst.
  simpl fst in *. simpl snd in *.
  set (X := oob_X ns). set (y := oob_y ns).
  destruct (@chain_metrics X y sizes ms1 (forest Model 0) eq_refl Hm1) as [M1 L1].
  destruct (@chain_metrics X y sizes ms2 (forest Model 1) eq_refl Hm2) as [M2 L2].
  destruct (@chain_metrics X y sizes ms3 (forest Model 2) eq_refl Hm3) as [M3 L3].
  assert (Esw : sweep_events X y [(ms1, qs1); (ms2, qs2); (ms3, qs3)]
                = fit_events X y (forest Model 0) sizes ms1
                  ++ fit_events X y (forest Model 1) sizes ms2
                  ++ fit_events X y (forest Model 2) sizes ms3).
  { unfold sweep_events, forest, ensemble_clfs.
    cbn [combine flat_map fst snd nth]. rewrite app_nil_r. reflexivity. }
  split; [ | split; [ | split ] ].
  - change (count_calls (@is_load Model)
              ([Ev (Print (RText __doc__)) (Ok tt);
                Ev (MakeClassification (Model := Model) dataset_args)
                   (Ok (X, y))]
               ++ sweep_events X y [(ms1, qs1); (ms2, qs2); (ms3, qs3)]
               ++ plot_events (error_rate ns)) = 1%nat).
    rewrite Esw, !count_calls_app, L1, L2, L3, plot_events_counts.
    reflexivity.
  - simpl. split; [ exact I | ]. split; [ exact I | ].
    apply models_local_app; [ apply sweep_events_local | ].
    apply plot_events_local.
  - rewrite fit_log_sweep. rewrite !length_app.
    rewrite !chain_length by assumption. reflexivity.
  - exists (Ev (Print (RText __doc__)) (Ok tt)
            :: Ev (MakeClassification dataset_args) (Ok (X, y))
            :: sweep_events X y [(ms1, qs1); (ms2, qs2); (ms3, qs3)]).
    split; [ reflexivity | ]. split.
    + cbn [plot_log]. rewrite Esw, !plot_log_app, !plot_log_chain. reflexivity.
    + change (count_calls (@computes_metric Model)
                ([Ev (Print (RText __doc__)) (Ok tt);
                  Ev (MakeClassification (Model := Model) dataset_args)
                     (Ok (X, y))]
                 ++ sweep_events X y [(ms1, qs1); (ms2, qs2); (ms3, qs3)])
              = 483%nat).
      rewrite Esw, !count_calls_app, M1, M2, M3. reflexivity.
Qed.

Lemma accuracy_events_local (clf : estimator Model) X y m pred u acc :
  fitted clf = None ->
  forall seen, models_local seen (accuracy_events clf X y m pred u acc).
Proof.
  intros Hclf seen. unfold accuracy_events.
  cbn [models_local estimator_of fit_of fitted with_fitted fit_model In].
  rewrite Hclf. auto 10.
Qed.

Lemma evaluation_local (clf : estimator Model) X y m pred u acc probs scores auc :
  fitted clf = None ->
  forall seen,
    models_local seen (accuracy_events clf X y m pred u acc
                       ++ auroc_events (with_fitted clf m) X y probs scores auc).
Proof.
  intros Hclf seen. unfold accuracy_events, auroc_events.
  cbn [models_local estimator_of fit_of fitted with_fitted fit_model In app].
  rewrite Hclf. auto 15.
Qed.

Lemma soge2_lifecycle h ns tr :
  run h soge2 = (Ok ns, tr) ->
  count_calls (@is_load Model) tr = 1%nat /\
  models_local [] tr /\
  immediately_rendered tr = true /\
  List.length (fit_log tr) = 3%nat /\
  forall clf,
    In clf [LogisticRegression; SVC; RandomForestClassifier] ->
    exists f pred,
      fits_of clf tr = [f] /\ fit_clf f = clf /\
      In (Ev (Predict (with_fitted clf (fit_model f)) (fit_X f)) (Ok pred)) tr.
Proof.
  intros Hrun. apply soge2_ok in Hrun.
  destruct Hrun as (df0 & tr_up & yu & Xu & y & X & Hdf0 & Hup & Hyu & HXu & Hy
                    & HX & m1 & p1 & u1 & a1 & m3 & p3 & u3 & a3 & pr3 & sc3 & auc3
                    & m4 & p4 & u4 & a4 & pr4 & sc4 & auc4 & _ & _ & _ & ->).
  apply soge_upsample_ok in Hup.
  destruct Hup as (b0 & b & bu & c1 & c2 & _ & _ & _ & _ & _ & _ & _ & _ & ->).
  split; [ reflexivity | ].
  split.
  { apply models_local_app; [ simpl; auto | ]. intros s0.
    apply models_local_app; [ simpl; auto | ]. intros s1.
    apply models_local_app; [ apply accuracy_events_local; reflexivity | ].
    intros s2.
    apply models_local_app; [ apply evaluation_local; reflexivity | ].
    intros s3. apply evaluation_local; reflexivity. }
  split; [ reflexivity | ]. split; [ reflexivity | ].
  intros clf [<- | [<- | [<- | []]]]; eexists; eexists;
    (split; [ reflexivity | ]); (split; [ reflexivity | ]); cbn [fit_model fit_X].
  - do 2 (apply in_or_app; right). apply in_or_app; left.
    right; left; reflexivity.
  - do 3 (apply in_or_app; right). apply in_or_app; left.
    apply in_or_app; left. right; left; reflexivity.
  - do 4 (apply in_or_app; right). apply in_or_app; left.
    right; left; reflexivity.
Qed.

(** C5 (as the code has it).  In the second notebook each of the three
    estimators is fit exactly once, from a fresh object, and the fitted
    object is then used to predict on its training matrix.  In the first
    notebook each of the three forests is built with [warm_start=True] and
    fit 161 times, once per ensemble size, every fit after the first
    starting from the state the previous fit left.  In both, every fitted
    state a call is made on was produced by a fit of the same run. *)
Theorem classifier_fit_cycles h :
  (forall ns tr,
      run h soge2 = (Ok ns, tr) ->
      List.length (fit_log tr) = 3%nat /\
      models_local [] tr /\
      forall clf,
        In clf [LogisticRegression; SVC; RandomForestClassifier] ->
        exists f pred,
          fits_of clf tr = [f] /\ fit_clf f = clf /\ fitted clf = None /\
          In (Ev (Predict (with_fitted clf (fit_model f)) (fit_X f)) (Ok pred))
             tr) /\
  (forall ns tr,
      run h (plot_ensemble_oob oob_score_) = (Ok ns, tr) ->
      List.length (fit_log tr) = 483%nat /\
      models_local [] tr /\
      forall label clf,
        In (label, clf) (ensemble_clfs Model) ->
        kw_get "warm_start" (params clf) = Some (PBool true) /\
        List.length (fits_of clf tr) = 161%nat /\
        warm_chain None (fits_of clf tr)).
Proof.
  split.
  - intros ns tr Hrun. apply soge2_lifecycle in Hrun.
    destruct Hrun as (_ & Hlocal & _ & Hfits & Hclf).
    split; [ exact Hfits | ]. split; [ exact Hlocal | ].
    intros clf Hin. destruct (Hclf clf Hin) as (f & pred & H1 & H2 & H3).
    exists f, pred. repeat split; auto.
    destruct Hin as [<- | [<- | [<- | []]]]; reflexivity.
  - intros ns tr Hrun. pose proof Hrun as Hlife.
    apply notebook_lifecycle in Hlife.
    destruct Hlife as (_ & Hlocal & Hfits & _).
    split; [ exact Hfits | ]. split; [ exact Hlocal | ].
    intros label clf Hin. apply notebook_facts in Hrun.
    destruct Hrun as (_ & Hcurves & _).
    destruct (Hcurves label clf Hin) as (c & _ & Hs & Hrec & Hwarm).
    split; [ | split; [ | exact Hwarm ] ].
    + simpl in Hin. destruct Hin as [E | [E | [E | []]]]; inversion E;
        reflexivity.
    + apply Forall2_length in Hrec. rewrite Hrec.
      rewrite <- (length_map fst), Hs. reflexivity.
Qed.

Lemma snd_run_call h (X A : Type) (op : libop Model X) (k : X -> prog Model A) :
  snd (run h (Call op k))
  = Ev op (h _ op)
    :: match h _ op with
       | Ok x => snd (run h (k x))
       | Err _ => []
       end.
Proof.
  simpl. destruct (h X op) as [x | e]; [ | reflexivity ].
  destruct (run h (k x)); reflexivity.
Qed.

Lemma oob_sweep_calls h (P : event Model -> Prop) :
  (forall ev, sweep_call ev = true -> P ev) ->
  issues h P (fun _ => True) (oob_sweep oob_score_).
Proof.
  intros HP. unfold oob_sweep. cbn [bind Monad_prog].
  eapply issues_bind; [ apply issues_call; apply HP; reflexivity | ].
  intros ? _.
  eapply issues_bind; [ apply issues_call; apply HP; reflexivity | ].
  intros [X y] _.
  eapply issues_bind with (Q := fun _ => True); [ | simpl; auto ].
  apply issues_for_each; [ | exact I ].
  intros lc [done er] Hin _. cbn [bind Monad_prog].
  eapply issues_bind with (Q := fun _ => True); [ | simpl; auto ].
  apply issues_for_each; [ | exact I ].
  intros i [clf er'] _ _. unfold oob_step. simpl. split.
  - apply HP. reflexivity.
  - intros m _. unfold attr_oob_score_. simpl.
    destruct (oob_score_ m); simpl; auto.
    destruct (od_append _ _ _); simpl; auto.
Qed.

(** ** Lifecycle: what holds of every run *)







(** ** What comes from outside *)

Ltac no_read_steps :=
  repeat (cbn [issues pbind bind Monad_prog call ret lift];
          match goal with
          | |- reads_file _ = false => reflexivity
          | |- True => exact I
          | |- _ /\ _ => split
          | |- forall _, _ => intro
          | |- context [lift ?r] => destruct r eqn:?
          end).

Lemma soge_rest_reads_nothing h df0 :
  issues h (fun ev : event Model => reads_file ev = false) (fun _ => True)
    (fr <- soge_upsample df0 ;;
     c1 <- soge_logistic (df_upsampled fr) ;;
     c3 <- soge_svc (df fr) ;;
     c4 <- soge_forest (df fr) ;;
     ret {| soge_frames := fr; clf_1 := c1; clf_3 := c3; clf_4 := c4 |}).
Proof.
  cbn [bind Monad_prog].
  eapply issues_bind with (Q := fun _ => True);
    [ unfold soge_upsample; no_read_steps | intros fr _ ].
  eapply issues_bind with (Q := fun _ => True);
    [ unfold soge_logistic; no_read_steps | intros c1 _ ].
  eapply issues_bind with (Q := fun _ => True);
    [ unfold soge_svc; no_read_steps | intros c3 _ ].
  eapply issues_bind with (Q := fun _ => True);
    [ unfold soge_forest; no_read_steps | intros c4 _ ].
  exact I.
Qed.

(** C7 (as the code has it).  Only the second notebook reads a file: its
    first call is [read_csv] on the balance-scale path, before any estimator
    is built, fit or evaluated, and it reads no other file.  The first
    notebook reads no file and makes no external call at all: after
    printing its docstring it generates its dataset with
    [make_classification], before any call on an estimator, and its whole
    run is the same whatever the files on disk and the ambient
    randomness. *)
Theorem external_inputs h :
  (exists r rest,
      snd (run h soge2) = Ev (ReadCsv data_path data_names) r :: rest /\
      Forall (fun ev => reads_file ev = false) rest) /\
  load_first (snd (run h soge2)) = true /\
  Forall (fun ev => external_call ev = false)
         (snd (run h (plot_ensemble_oob oob_score_))) /\
  Forall (fun ev => reads_file ev = false)
         (snd (run h (plot_ensemble_oob oob_score_))) /\
  load_first (snd (run h (plot_ensemble_oob oob_score_))) = true /\
  (forall ns tr,
      run h (plot_ensemble_oob oob_score_) = (Ok ns, tr) ->
      exists rest,
        tr = Ev (Print (RText __doc__)) (Ok tt)
             :: Ev (MakeClassification dataset_args) (Ok (oob_X ns, oob_y ns))
             :: rest /\
        count_calls (@is_load Model) rest = 0%nat) /\
  (forall h',
      same_library h h' ->
      run h (plot_ensemble_oob oob_score_)
      = run h' (plot_ensemble_oob oob_score_)).
Proof.
  assert (Hsoge : exists r rest,
             snd (run h soge2) = Ev (ReadCsv data_path data_names) r :: rest /\
             Forall (fun ev : event Model => reads_file ev = false) rest).
  { unfold soge2, soge_read. cbn [bind Monad_prog pbind call].
    rewrite snd_run_call. eexists. eexists. split; [ reflexivity | ].
    destruct (h _ (ReadCsv data_path data_names)) as [df0 | e];
      [ | constructor ].
    cbn [pbind]. rewrite snd_run_call. constructor; [ reflexivity | ].
    destruct (h _ (Display (RFrame (head df0)))) as [[] | e];
      [ | constructor ].
    cbn [pbind]. eapply issues_trace. apply soge_rest_reads_nothing. }
  assert (Hext : Forall (fun ev : event Model => external_call ev = false)
                        (snd (run h (plot_ensemble_oob oob_score_)))).
  { eapply issues_trace. apply pinned_not_external. apply notebook_pinned. }
  split; [ exact Hsoge | ]. split.
  { destruct Hsoge as (r & rest & -> & _). reflexivity. }
  split; [ exact Hext | ]. split.
  { eapply Forall_impl; [ | exact Hext ]. intros [T op r]. simpl.
    destruct op; simpl; auto; discriminate. }
  split.
  { unfold plot_ensemble_oob, oob_sweep. cbn [bind Monad_prog pbind call].
    rewrite snd_run_call. cbn [load_first is_load is_estimator_call estimator_of].
    destruct (h _ (Print (RText __doc__))); [ | reflexivity ].
    cbn [pbind]. rewrite snd_run_call. reflexivity. }
  split.
  { intros ns tr Hrun. pose proof Hrun as Hlife.
    apply notebook_lifecycle in Hlife. destruct Hlife as (Hload & _).
    apply notebook_ok in Hrun. destruct Hrun as (answers & _ & _ & -> & _).
    eexists. split; [ reflexivity | ].
    unfold count_calls in *. simpl in Hload. lia. }
  intros h' Hsame. eapply issues_same_run; [ exact Hsame | ].
  apply pinned_not_external. apply notebook_pinned.
Qed.

End Scripts.

(** * The small library meets the hypotheses *)

Lemma completed (Model A : Type) (x : result A * list (event Model)) :
  outcome (fst x) = None -> exists a tr, x = (Ok a, tr).
Proof.
  destruct x as [[a | e] tr]; simpl; intros H; [ | discriminate ].
  exists a, tr. reflexivity.
Qed.

Lemma toy_total fs entropy :
  library_total Toy.oob_score_ (Toy.library fs entropy).
Proof.
  split.
  - intros X op Hop. destruct op; simpl in Hop; try contradiction;
      try (eexists; reflexivity).
    subst kw. eexists. reflexivity.
  - intros clf X y m H Hw. simpl in H. inversion H; subst.
    unfold Toy.oob_score_, Toy.fit. simpl. rewrite Hw. eauto.
Qed.

Lemma toy_oob_score_contract fs entropy :
  oob_score_contract Toy.oob_score_ (Toy.library fs entropy).
Proof.
  intros clf X y m q H Hq. simpl in H. inversion H; subst.
  unfold Toy.oob_score_, Toy.fit in Hq. simpl in Hq.
  destruct (wants_oob clf); inversion Hq; subst.
  unfold Qle. simpl. rewrite Z2Pos.id by lia. lia.
Qed.

Lemma toy_read_csv_contract fs entropy :
  read_csv_contract (Toy.library fs entropy).
Proof.
  intros path names d H. simpl in H. unfold Toy.read_csv in H.
  destruct (fs path) as [rows | ]; [ | discriminate ].
  destruct (forallb _ rows) eqn:F; [ | discriminate ].
  inversion H; subst. split; [ reflexivity | ].
  unfold well_formed, rectangular. simpl. apply Forall_forall.
  intros r Hr. rewrite forallb_forall in F. apply Nat.eqb_eq. auto.
Qed.

Lemma toy_resample_contract fs entropy :
  resample_contract (Toy.library fs entropy).
Proof.
  intros d kw d' H. cbn [Toy.library] in H. unfold Toy.resample in H.
  destruct (values d) as [ | r0 rows] eqn:V; [ discriminate | ].
  destruct (Z.ltb _ 0) eqn:N; [ discriminate | ].
  match type of H with
  | Ok ?v = Ok _ => assert (E : d' = v) by congruence
  end.
  rewrite E. clear H E. cbn [columns values].
  split; [ reflexivity | ]. split.
  - intros r Hr. apply in_map_iff in Hr. destruct Hr as (k & <- & _).
    rewrite ?V. apply nth_In. apply Nat.mod_upper_bound. simpl. discriminate.
  - intros n Hn. rewrite length_map, length_seq.
    unfold Toy.kw_int in *. rewrite Hn in *. apply Z.ltb_ge in N. lia.
Qed.

Lemma toy_make_classification_contract fs entropy :
  make_classification_contract (Toy.library fs entropy).
Proof.
  intros kw X y n f H Hn Hf. simpl in H.
  unfold Toy.make_classification, Toy.kw_int in H. rewrite Hn, Hf in H.
  destruct ((n <? 0) || (f <? 0)) eqn:B; [ discriminate | ].
  apply orb_false_elim in B. destruct B as [Bn Bf].
  apply Z.ltb_ge in Bn, Bf. inversion H; subst. split; [ | split ].
  - apply Forall_forall. intros r Hr. apply repeat_spec in Hr. subst r.
    apply repeat_length.
  - rewrite repeat_length. lia.
  - rewrite length_map, length_seq. lia.
Qed.

Lemma toy_same_library fs1 fs2 e1 e2 :
  same_library (Toy.library fs1 e1) (Toy.library fs2 e2).
Proof.
  intros X op Hext. destruct op; simpl in *; try reflexivity;
    try discriminate.
  unfold Toy.fit, Toy.draw.
  destruct (kw_get "random_state" (params clf)) as [[ | | s | ] | ];
    try discriminate; reflexivity.
Qed.

(** ** Runs that satisfy the hypotheses *)

Lemma oob_sweep_records_every_size_witness :
  library_total Toy.oob_score_ Toy.lib /\
  exists ns tr,
    run Toy.lib (plot_ensemble_oob Toy.oob_score_) = (Ok ns, tr) /\
    map fst (error_rate ns) = map fst (ensemble_clfs Toy.model) /\
    plot_log tr = map plotted (error_rate ns).
Proof.
  split; [ apply toy_total | ].
  destruct (@oob_sweep_records_every_size Toy.model Toy.oob_score_ Toy.lib
              (@toy_total Toy.disk 0))
    as (ns & tr & Hrun & _ & Hkeys & _ & _ & Hplots).
  exists ns, tr. auto.
Defined.

Lemma sweep_curves_shape_witness :
  oob_score_contract Toy.oob_score_ Toy.lib /\
  exists ns tr,
    run Toy.lib (oob_sweep Toy.oob_score_) = (Ok ns, tr) /\
    List.length (error_rate ns) = 3%nat /\
    Forall (fun lc : string * curve => List.length (snd lc) = 161%nat)
           (error_rate ns).
Proof.
  split; [ apply toy_oob_score_contract | ].
  destruct (@completed Toy.model _ (run Toy.lib (oob_sweep Toy.oob_score_)))
    as (ns & tr & E); [ vm_compute; reflexivity | ].
  exists ns, tr. split; [ exact E | ].
  destruct (@sweep_curves_shape Toy.model Toy.oob_score_ Toy.lib ns tr
              (@toy_oob_score_contract Toy.disk 0) E) as [Hlen Hall].
  split; [ exact Hlen | ].
  eapply Forall_impl; [ | exact Hall ]. intros lc (H & _). exact H.
Defined.

Lemma oob_notebook_deterministic_witness :
  same_library (Toy.library Toy.disk 1) (Toy.library Toy.empty_disk 2) /\
  run (Toy.library Toy.disk 1) (plot_ensemble_oob Toy.oob_score_)
  = run (Toy.library Toy.empty_disk 2) (plot_ensemble_oob Toy.oob_score_).
Proof.
  split; [ apply toy_same_library | ].
  apply (@oob_notebook_deterministic Toy.model Toy.oob_score_
           (Toy.library Toy.disk 1) (Toy.library Toy.empty_disk 2)
           (@toy_same_library Toy.disk Toy.empty_disk 1 2)).
Defined.

Lemma failures_propagate_witness :
  @Toy.offline _ (ReadCsv data_path data_names) = Err FileNotFoundError /\
  run Toy.offline soge2
  = (Err FileNotFoundError,
     [Ev (ReadCsv data_path data_names) (Err FileNotFoundError)]).
Proof.
  split; [ reflexivity | ].
  apply (proj1 (proj2 (proj2 (proj2 (proj2
           (@failures_propagate Toy.model Toy.oob_score_ Toy.offline)))))).
  reflexivity.
Defined.

Lemma datasets_are_well_formed_witness :
  make_classification_contract Toy.lib /\ read_csv_contract Toy.lib /\
  resample_contract Toy.lib /\
  Forall (@dataset_ok Toy.model) (snd (run Toy.lib soge2)).
Proof.
  split; [ apply toy_make_classification_contract | ].
  split; [ apply toy_read_csv_contract | ].
  split; [ apply toy_resample_contract | ].
  apply (proj1 (proj2
           (@datasets_are_well_formed Toy.model Toy.oob_score_ Toy.lib
              (@toy_make_classification_contract Toy.disk 0)
              (@toy_read_csv_contract Toy.disk 0)
              (@toy_resample_contract Toy.disk 0)))).
Defined.

Lemma upsampled_classes_balanced_witness :
  read_csv_contract Toy.lib /\ resample_contract Toy.lib /\
  @Toy.lib _ (ReadCsv data_path data_names) = Ok Toy.raw /\
  get_column Toy.raw "balance" = Ok (map label_of Toy.balance_scale) /\
  count_not_B (map label_of Toy.balance_scale) = 576%nat /\
  exists ns tr,
    run Toy.lib soge2 = (Ok ns, tr) /\
    exists balance_up,
      get_column (df_upsampled (soge_frames ns)) "balance" = Ok balance_up /\
      count_label 1 balance_up = 576%nat /\
      count_label 0 balance_up = 576%nat.
Proof.
  assert (Hread : @Toy.lib _ (ReadCsv data_path data_names) = Ok Toy.raw)
    by (vm_compute; reflexivity).
  assert (Hcol : get_column Toy.raw "balance"
                 = Ok (map label_of Toy.balance_scale)) by reflexivity.
  assert (Hcount : count_not_B (map label_of Toy.balance_scale) = 576%nat)
    by (vm_compute; reflexivity).
  split; [ apply toy_read_csv_contract | ].
  split; [ apply toy_resample_contract | ].
  split; [ exact Hread | ]. split; [ exact Hcol | ]. split; [ exact Hcount | ].
  destruct (@completed Toy.model _ (run Toy.lib soge2)) as (ns & tr & E);
    [ vm_compute; reflexivity | ].
  exists ns, tr. split; [ exact E | ].
  destruct (@upsampled_classes_balanced Toy.model Toy.lib ns tr Toy.raw
              (map label_of Toy.balance_scale)
              (@toy_read_csv_contract Toy.disk 0)
              (@toy_resample_contract Toy.disk 0) E Hread Hcol Hcount)
    as (_ & _ & _ & _ & _ & bu & H1 & H2 & H3 & _).
  exists bu. auto.
Defined.

Lemma only_logistic_is_fit_on_resampled_witness :
  exists ns tr,
    run Toy.lib soge2 = (Ok ns, tr) /\ List.length (fit_log tr) = 3%nat.
Proof.
  destruct (@completed Toy.model _ (run Toy.lib soge2)) as (ns & tr & E);
    [ vm_compute; reflexivity | ].
  exists ns, tr. split; [ exact E | ].
  destruct (@only_logistic_is_fit_on_resampled Toy.model Toy.lib ns tr E)
    as (Xu & yu & X & y & m1 & m3 & m4 & _ & _ & Hlog & _).
  rewrite Hlog. reflexivity.
Defined.

Lemma classifier_fit_cycles_witness :
  exists ns tr,
    run Toy.lib (plot_ensemble_oob Toy.oob_score_) = (Ok ns, tr) /\
    List.length (fit_log tr) = 483%nat.
Proof.
  destruct (@completed Toy.model _
              (run Toy.lib (plot_ensemble_oob Toy.oob_score_)))
    as (ns & tr & E); [ vm_compute; reflexivity | ].
  exists ns, tr. split; [ exact E | ].
  apply (proj2 (@classifier_fit_cycles Toy.model Toy.oob_score_ Toy.lib)
           ns tr E).
Defined.


Lemma external_inputs_witness :
  same_library Toy.lib Toy.offline /\
  run Toy.lib (plot_ensemble_oob Toy.oob_score_)
  = run Toy.offline (plot_ensemble_oob Toy.oob_score_).
Proof.
  split; [ apply toy_same_library | ].
  apply (proj2 (proj2 (proj2 (proj2 (proj2 (proj2
           (@external_inputs Toy.model Toy.oob_score_ Toy.lib))))))).
  apply toy_same_library.
Defined.

(** ** Runs that refute the specification as worded *)

(** C2, as worded: not every classifier of the second notebook is fit on
    the resampled frame.  On the balance-scale table [df_upsampled] has 1152
    rows, and the second and third fits are made on 625 rows. *)
Lemma not_every_classifier_fit_on_resampled :
  ~ (forall ns tr,
        run Toy.lib soge2 = (Ok ns, tr) ->
        Forall (fit_on (df_upsampled (soge_frames ns))) (fit_log tr)).
Proof.
  intros H.
  destruct (@completed Toy.model _ (run Toy.lib soge2)) as (ns & tr & E);
    [ vm_compute; reflexivity | ].
  specialize (H ns tr E).
  assert (F : match run Toy.lib soge2 with
              | (Ok ns, tr) =>
                  (List.length (values (df_upsampled (soge_frames ns))),
                   map (fun f => List.length (fit_X f)) (fit_log tr))
              | _ => (0%nat, [])
              end = (1152%nat, [1152; 625; 625]%nat))
    by (vm_compute; reflexivity).
  rewrite E in F. inversion F as [[F1 F2]]. clear F.
  destruct (fit_log tr) as [ | f1 [ | f2 fs]]; try discriminate.
  inversion H as [ | ? ? _ H' ]; subst.
  inversion H' as [ | ? ? Hf2 _ ]; subst.
  unfold fit_on in Hf2. apply training_set_rows in Hf2.
  simpl in F2. inversion F2 as [[G1 G2 G3]].
  rewrite F1, G2 in Hf2. discriminate Hf2.
Qed.


(** C5, as worded: a forest of the first notebook is not fit once but 161
    times. *)
Lemma forest_is_not_fit_once :
  outcome (fst (run Toy.lib (plot_ensemble_oob Toy.oob_score_))) = None /\
  List.length (fits_of (forest Toy.model 0)
                 (snd (run Toy.lib (plot_ensemble_oob Toy.oob_score_))))
  <> 1%nat.
Proof. split; vm_compute; [ reflexivity | discriminate ]. Qed.

(** C7, as worded: a run of the first notebook reads no input file. *)
Lemma oob_notebook_reads_no_file :
  outcome (fst (run Toy.lib (plot_ensemble_oob Toy.oob_score_))) = None /\
  count_calls (@reads_file Toy.model)
    (snd (run Toy.lib (plot_ensemble_oob Toy.oob_score_))) = 0%nat.
Proof. split; vm_compute; reflexivity. Qed.

(** ** The seeds matter

    The second notebook builds its random forest without a seed, so what it
    ends with does depend on the ambient randomness: the relation
    [same_library] does not force two runs to agree in general. *)
Remark soge2_depends_on_ambient_randomness :
  same_library (Toy.library Toy.disk 1) (Toy.library Toy.disk 2) /\
  run (Toy.library Toy.disk 1) soge2 <> run (Toy.library Toy.disk 2) soge2.
Proof.
  split; [ apply toy_same_library | ].
  intros E.
  apply (f_equal (fun x : result (soge_namespace Toy.model) * list (event Toy.model) =>
                    match fst x with
                    | Ok ns => option_map Toy.size (fitted (clf_4 ns))
                    | Err _ => None
                    end)) in E.
  vm_compute in E. discriminate E.
Qed.

(** ** A handler would show

    That no exception is caught is a property of the two notebooks, not of
    every script: a cell that calls [read_csv] again when it fails has a
    handler, and against the empty disk its failed first call is followed
    by another call. *)
Remark a_retry_does_not_propagate :
  ~ no_handler Toy.read_with_retry /\
  snd (run Toy.offline Toy.read_with_retry)
  = [Ev (ReadCsv data_path data_names) (Err FileNotFoundError);
     Ev (ReadCsv data_path data_names) (Err FileNotFoundError)] /\
  ~ propagates (run Toy.offline Toy.read_with_retry).
Proof.
  split; [ intros H; exact H | ]. split; [ reflexivity | ].
  intros H.
  destruct (H [] (Ev (ReadCsv data_path data_names) (Err FileNotFoundError))
              [Ev (ReadCsv data_path data_names) (Err FileNotFoundError)]
              FileNotFoundError eq_refl eq_refl) as [Hpost _].
  discriminate Hpost.
Qed.

(** * Further properties of the two notebooks *)

Section Further.

Variable Model : Type.
Variable oob_score_ : Model -> option Q.

Implicit Types (h : handler Model) (tr : list (event Model)).

(** ** Small steps of the scripts *)

(** X7. [[p[1] for p in probs]] gives the second entry of every row, one
    per row, when every row has at least two entries; otherwise it raises
    [IndexError], and that is the only exception it can raise. *)
Theorem second_column_spec (probs : list (list Q)) :
  (Forall (fun p => (2 <= List.length p)%nat) probs ->
   second_column probs = Ok (map (fun p => nth 1 p 0%Q) probs)) /\
  (forall qs, second_column probs = Ok qs ->
              List.length qs = List.length probs /\
              Forall (fun p => (2 <= List.length p)%nat) probs) /\
  (forall e, second_column probs = Err e ->
             e = IndexError /\
             Exists (fun p => (List.length p < 2)%nat) probs).
Proof.
  induction probs as [ | p probs (IH1 & IH2 & IH3)]; simpl.
  - split; [ reflexivity | ]. split.
    + intros qs H. inversion H. auto.
    + intros e H. discriminate.
  - split; [ | split ].
    + intros Hall. inversion Hall as [ | ? ? Hp Hrest ]; subst.
      destruct p as [ | a [ | b p]]; simpl in Hp; try lia. simpl.
      rewrite (IH1 Hrest). reflexivity.
    + intros qs H.
      destruct p as [ | a [ | b p]]; simpl in H; try discriminate.
      destruct (second_column probs) as [qs' | e]; [ | discriminate ].
      inversion H; subst. destruct (IH2 qs' eq_refl) as [Hl Hall].
      simpl. split; [ lia | ]. constructor; auto. simpl. lia.
    + intros e H.
      destruct p as [ | a [ | b p]]; simpl in H.
      * inversion H. split; auto; apply Exists_cons_hd; simpl; lia.
      * inversion H. split; auto; apply Exists_cons_hd; simpl; lia.
      * destruct (second_column probs) as [qs' | e']; [ discriminate | ].
        inversion H; subst. destruct (IH3 e eq_refl) as [He Hex].
        split; auto.
Qed.

(** X12. [xs, ys = zip( *clf_err )] loses nothing: when it succeeds, zipping
    [xs] and [ys] back gives the curve, both are as long as the curve, and
    [xs] are its sizes; it raises [ValueError] exactly on an empty curve. *)
Theorem unzip_curve_round_trip (c : curve) :
  (forall xs ys,
      unzip_curve c = Ok (xs, ys) ->
      c <> [] /\ combine xs ys = c /\ xs = map fst c /\ ys = map snd c /\
      List.length xs = List.length c /\ List.length ys = List.length c) /\
  (forall e, unzip_curve c = Err e -> e = ValueError /\ c = []) /\
  (c <> [] -> exists xs ys, unzip_curve c = Ok (xs, ys)).
Proof.
  assert (Hsplit : forall l : curve,
             List.split l = (map fst l, map snd l)).
  { induction l as [ | [i q] l IH]; simpl; auto. rewrite IH. reflexivity. }
  split; [ | split ].
  - intros xs ys H. destruct c as [ | p c]; [ discriminate | ].
    unfold unzip_curve in H. rewrite Hsplit in H.
    inversion H; subst xs ys. clear H.
    split; [ discriminate | ].
    assert (Hc : forall l : curve, combine (map fst l) (map snd l) = l).
    { induction l as [ | [i q] l IH]; simpl; auto. rewrite IH. reflexivity. }
    change (fst p :: map fst c) with (map fst (p :: c)).
    change (snd p :: map snd c) with (map snd (p :: c)).
    rewrite Hc. repeat split; auto; apply length_map.
  - intros e H. destruct c; simpl in H; inversion H; auto.
  - intros Hne. destruct c as [ | p c]; [ elim Hne; reflexivity | ].
    unfold unzip_curve. rewrite Hsplit. eauto.
Qed.

(** X8. The binarisation keeps one label per row, 1 for every 'B' and 0 for
    everything else, so the ones and the zeros add up to the number of
    rows.  It overwrites the column it reads and is not idempotent: applied
    to its own output it gives 0 everywhere, so no row has label 1 any
    more. *)
Theorem binarize_counts (v : vector) :
  List.length (binarize v) = List.length v /\
  (count_label 1 (binarize v) + count_label 0 (binarize v))%nat
    = List.length v /\
  count_label 0 (binarize v) = count_not_B v /\
  binarize (binarize v) = map (fun _ => CInt 0) v /\
  count_label 1 (binarize (binarize v)) = 0%nat.
Proof.
  unfold count_label, count_not_B, binarize.
  induction v as [ | b v (H1 & H2 & H3 & H4 & H5)]; simpl.
  - auto.
  - destruct (cell_eq_str b "B") eqn:E; simpl; rewrite ?H4;
      repeat split; try lia; try congruence.
Qed.

(** ** The frames of the second notebook *)

Lemma relabel_rows (rows : matrix) :
  Forall (fun r => r <> []) rows ->
  map (fun rv => replace_nth 0 (snd rv) (fst rv))
      (combine rows (binarize (map label_of rows)))
  = map relabel rows.
Proof.
  induction rows as [ | r rows IH]; intros Hne; simpl; auto.
  inversion Hne as [ | ? ? Hr Hne' ]; subst.
  destruct r as [ | c r]; [ elim Hr; reflexivity | ].
  simpl. f_equal. apply IH. assumption.
Qed.

Lemma label_relabel r :
  label_of (relabel r) = if is_B r then CInt 1 else CInt 0.
Proof. reflexivity. Qed.

Lemma filter_map_comm (A B : Type) (p : B -> bool) (g : A -> B) l :
  filter p (map g l) = map g (filter (fun a => p (g a)) l).
Proof.
  induction l as [ | a l IH]; simpl; auto.
  destruct (p (g a)); simpl; rewrite IH; reflexivity.
Qed.

Lemma filter_ext_eq (A : Type) (p q : A -> bool) l :
  (forall a, p a = q a) -> filter p l = filter q l.
Proof.
  intros E. induction l as [ | a l IH]; simpl; auto.
  rewrite E, IH. reflexivity.
Qed.

Lemma relabel_majority rows :
  filter (fun r => cell_eq_int (label_of r) 0) (map relabel rows)
  = map relabel (filter (fun r => negb (is_B r)) rows).
Proof.
  rewrite filter_map_comm. f_equal. apply filter_ext_eq. intros r.
  rewrite label_relabel. destruct (is_B r); reflexivity.
Qed.

Lemma relabel_minority rows :
  filter (fun r => cell_eq_int (label_of r) 1) (map relabel rows)
  = map relabel (filter is_B rows).
Proof.
  rewrite filter_map_comm. f_equal. apply filter_ext_eq. intros r.
  rewrite label_relabel. destruct (is_B r); reflexivity.
Qed.

Lemma filter_split_length (A : Type) (p : A -> bool) l :
  (List.length (filter (fun a => negb (p a)) l)
   + List.length (filter p l))%nat = List.length l.
Proof.
  induction l as [ | a l IH]; simpl; auto.
  destruct (p a); simpl; lia.
Qed.

Lemma map_tl_relabel rows : map (@tl cell) (map relabel rows) = map (@tl cell) rows.
Proof. rewrite map_map. reflexivity. Qed.

Lemma Forall_repeat (A : Type) (a : A) l :
  Forall (fun c => c = a) l -> l = repeat a (List.length l).
Proof.
  induction 1 as [ | c l Hc _ IH]; simpl; auto. rewrite <- IH, Hc.
  reflexivity.
Qed.

Lemma count_not_B_rows rows :
  count_not_B (map label_of rows)
  = List.length (filter (fun r => negb (is_B r)) rows).
Proof.
  unfold count_not_B.
  rewrite <- (filter_map_length (fun b => negb (cell_eq_str b "B")) label_of).
  reflexivity.
Qed.

(** The frames cell 3 builds, row by row, in terms of the rows of the
    file. *)
Lemma soge_upsample_rows h df0 fr tr :
  well_formed df0 -> columns df0 = data_names ->
  run h (soge_upsample df0) = (Ok fr, tr) ->
  df fr = {| columns := data_names; values := map relabel (values df0) |} /\
  df_majority fr
    = {| columns := data_names;
         values := map relabel (filter (fun r => negb (is_B r)) (values df0)) |} /\
  df_minority fr
    = {| columns := data_names;
         values := map relabel (filter is_B (values df0)) |} /\
  h _ (Resample (df_minority fr) resample_args)
    = Ok (df_minority_upsampled fr) /\
  df_upsampled fr
    = {| columns := data_names;
         values := values (df_majority fr)
                   ++ values (df_minority_upsampled fr) |}.
Proof.
  intros Hwf Hcols Hrun. apply soge_upsample_ok in Hrun.
  destruct Hrun as (b0 & b & bu & c1 & c2 & Hb0 & Hset & Hb & Hmaj & Hmin
                    & Hres & Hup & Hbu & Htr).
  rewrite (get_column_balance _ Hcols) in Hb0. inversion Hb0; subst b0.
  clear Hb0.
  assert (Hdf : df fr = {| columns := data_names;
                           values := map relabel (values df0) |}).
  { unfold set_item in Hset. rewrite Hcols in Hset.
    unfold binarize in Hset at 1. rewrite !length_map, Nat.eqb_refl in Hset.
    simpl in Hset. inversion Hset as [Hd]. f_equal.
    apply relabel_rows.
    unfold well_formed, rectangular in Hwf. rewrite Hcols in Hwf.
    eapply Forall_impl; [ | exact Hwf ]. simpl. intros r Hr ->. discriminate. }
  rewrite Hdf in Hb. rewrite get_column_balance in Hb by reflexivity.
  inversion Hb; subst b. clear Hb.
  assert (Emaj : df_majority fr
    = {| columns := data_names;
         values := map relabel (filter (fun r => negb (is_B r)) (values df0)) |}).
  { rewrite Hmaj, Hdf. unfold select_rows. cbn [columns values]. f_equal.
    rewrite map_map.
    rewrite (mask_filter (fun r => cell_eq_int (label_of r) 0)).
    apply relabel_majority. }
  assert (Emin : df_minority fr
    = {| columns := data_names;
         values := map relabel (filter is_B (values df0)) |}).
  { rewrite Hmin, Hdf. unfold select_rows. cbn [columns values]. f_equal.
    rewrite map_map.
    rewrite (mask_filter (fun r => cell_eq_int (label_of r) 1)).
    apply relabel_minority. }
  split; [ exact Hdf | ]. split; [ exact Emaj | ]. split; [ exact Emin | ].
  split; [ exact Hres | ].
  rewrite Hup. unfold concat. rewrite Emaj. reflexivity.
Qed.

(** What a completed run of the second notebook went through, with the
    scores handed to [roc_auc_score]. *)
Lemma soge2_cells h ns tr :
  run h soge2 = (Ok ns, tr) ->
  exists df0 tr_up yu Xu y X,
    h _ (ReadCsv data_path data_names) = Ok df0 /\
    run h (soge_upsample df0) = (Ok (soge_frames ns), tr_up) /\
    training_set (df_upsampled (soge_frames ns)) = Ok (Xu, yu) /\
    training_set (df (soge_frames ns)) = Ok (X, y) /\
    exists m1 p1 u1 a1 m3 p3 u3 a3 pr3 sc3 auc3 m4 p4 u4 a4 pr4 sc4 auc4,
      clf_1 ns = with_fitted LogisticRegression m1 /\
      clf_3 ns = with_fitted SVC m3 /\
      clf_4 ns = with_fitted RandomForestClassifier m4 /\
      second_column pr3 = Ok sc3 /\ second_column pr4 = Ok sc4 /\
      tr = [Ev (ReadCsv data_path data_names) (Ok df0);
            Ev (Display (RFrame (head df0))) (Ok tt)]
           ++ tr_up
           ++ accuracy_events LogisticRegression Xu yu m1 p1 u1 a1
           ++ (accuracy_events SVC X y m3 p3 u3 a3
               ++ auroc_events (with_fitted SVC m3) X y pr3 sc3 auc3)
           ++ (accuracy_events RandomForestClassifier X y m4 p4 u4 a4
               ++ auroc_events (with_fitted RandomForestClassifier m4)
                    X y pr4 sc4 auc4).
Proof.
  unfold soge2. cbn [bind Monad_prog]. intros H.
  apply run_bind_ok in H. destruct H as (df0 & t1 & t1' & Hr & H & ->).
  apply run_bind_ok in H. destruct H as (fr & t2 & t2' & Hu & H & ->).
  apply run_bind_ok in H. destruct H as (c1 & t3 & t3' & H1 & H & ->).
  apply run_bind_ok in H. destruct H as (c3 & t4 & t4' & H3 & H & ->).
  apply run_bind_ok in H. destruct H as (c4 & t5 & t5' & H4 & H & ->).
  apply run_ret_ok in H. destruct H as [-> ->]. simpl.
  apply soge_read_ok in Hr. destruct Hr as [Hr ->].
  apply soge_logistic_ok in H1.
  destruct H1 as (yu & Xu & m1 & p1 & u1 & a1 & Hyu & HXu & -> & ->).
  apply soge_svc_ok in H3.
  destruct H3 as (y & X & m3 & p3 & u3 & a3 & pr3 & sc3 & auc3
                  & Hy & HX & -> & Hsc3 & ->).
  apply soge_forest_ok in H4.
  destruct H4 as (y' & X' & m4 & p4 & u4 & a4 & pr4 & sc4 & auc4
                  & Hy' & HX' & -> & Hsc4 & ->).
  rewrite Hy in Hy'. inversion Hy'; subst y'.
  rewrite HX in HX'. inversion HX'; subst X'.
  exists df0, t2, yu, (values Xu), y, (values X).
  split; [ assumption | ]. split; [ assumption | ].
  split; [ apply training_set_intro; assumption | ].
  split; [ apply training_set_intro; assumption | ].
  exists m1, p1, u1, a1, m3, p3, u3, a3, pr3, sc3, auc3, m4, p4, u4, a4,
         pr4, sc4, auc4.
  rewrite app_nil_r. auto 10.
Qed.

(** The training set of a frame over the file's columns: the label column,
    and the other four cells of each row. *)
Lemma training_set_rows_of rows :
  training_set {| columns := data_names; values := rows |}
  = Ok (map (@tl cell) rows, map label_of rows).
Proof.
  unfold training_set. rewrite get_column_balance by reflexivity.
  unfold drop. cbn [columns values index_of data_names String.eqb Ascii.eqb
                    Bool.eqb].
  f_equal; f_equal; apply map_ext; intros [ | c r]; reflexivity.
Qed.

(** X1. Cell 3 splits the frame in two without losing or duplicating a row:
    the assignment replaces each row's class by 1 for 'B' and 0 otherwise
    and leaves the four features alone; [df_majority] holds, in file order,
    the rows whose class is not 'B', [df_minority] those whose class is 'B';
    their sizes add up to the number of rows of the file and every row of
    [df] is in exactly one of them. *)
Theorem majority_minority_partition h ns tr df0 :
  read_csv_contract h ->
  run h soge2 = (Ok ns, tr) ->
  h _ (ReadCsv data_path data_names) = Ok df0 ->
  values (df (soge_frames ns)) = map relabel (values df0) /\
  values (df_majority (soge_frames ns))
    = map relabel (filter (fun r => negb (is_B r)) (values df0)) /\
  values (df_minority (soge_frames ns))
    = map relabel (filter is_B (values df0)) /\
  (List.length (values (df_majority (soge_frames ns)))
   + List.length (values (df_minority (soge_frames ns))))%nat
    = List.length (values df0) /\
  (forall r, In r (values (df (soge_frames ns))) <->
             In r (values (df_majority (soge_frames ns))) \/
             In r (values (df_minority (soge_frames ns)))) /\
  (forall r, In r (values (df_majority (soge_frames ns))) ->
             In r (values (df_minority (soge_frames ns))) -> False).
Proof.
  intros Hcsv Hrun Hread. apply soge2_cells in Hrun.
  destruct Hrun as (df0' & tr_up & yu & Xu & y & X & Hread' & Hup & _).
  rewrite Hread in Hread'. inversion Hread'; subst df0'. clear Hread'.
  destruct (Hcsv _ _ _ Hread) as [Hcols Hwf].
  destruct (@soge_upsample_rows h df0 _ _ Hwf Hcols Hup)
    as (Hdf & Hmaj & Hmin & _).
  rewrite Hdf, Hmaj, Hmin. cbn [values].
  split; [ reflexivity | ]. split; [ reflexivity | ].
  split; [ reflexivity | ].
  split; [ rewrite !length_map; apply filter_split_length | ].
  split.
  - intros r. rewrite !in_map_iff. split.
    + intros (r0 & E & Hin). destruct (is_B r0) eqn:EB.
      * right. exists r0. split; auto. apply filter_In. auto.
      * left. exists r0. split; auto. apply filter_In. rewrite EB. auto.
    + intros [(r0 & E & Hin) | (r0 & E & Hin)];
        apply filter_In in Hin; destruct Hin as [Hin _]; eauto.
  - intros r Ha Hb. apply in_map_iff in Ha. apply in_map_iff in Hb.
    destruct Ha as (a & Ea & Ha). destruct Hb as (b & Eb & Hb).
    apply filter_In in Ha. apply filter_In in Hb.
    destruct Ha as [_ Ha]. destruct Hb as [_ Hb].
    assert (E : label_of (relabel a) = label_of (relabel b)) by congruence.
    rewrite !label_relabel in E. rewrite Hb in E.
    destruct (is_B a); simpl in Ha; discriminate.
Qed.

(** X4. The support-vector classifier and the random forest are trained on
    the file as it is, not on the resampled frame: their feature matrix is
    the four feature cells of every row of the file, in file order (the
    class column is dropped, so the label is not among the features), and
    their labels are the binarised classes of those rows, one per row. *)
Theorem svc_and_forest_train_on_file_rows h ns tr df0 :
  read_csv_contract h ->
  run h soge2 = (Ok ns, tr) ->
  h _ (ReadCsv data_path data_names) = Ok df0 ->
  drop (df (soge_frames ns)) "balance"
    = Ok {| columns := ["var1"; "var2"; "var3"; "var4"]%string;
            values := map (@tl cell) (values df0) |} /\
  Forall (fun row => List.length row = 4%nat) (map (@tl cell) (values df0)) /\
  List.length (binarize (map label_of (values df0)))
    = List.length (map (@tl cell) (values df0)) /\
  exists Xu yu m1 m3 m4,
    fit_log tr
    = [ mkFit LogisticRegression Xu yu m1;
        mkFit SVC (map (@tl cell) (values df0))
          (binarize (map label_of (values df0))) m3;
        mkFit RandomForestClassifier (map (@tl cell) (values df0))
          (binarize (map label_of (values df0))) m4 ].
Proof.
  intros Hcsv Hrun Hread. apply soge2_cells in Hrun.
  destruct Hrun as (df0' & tr_up & yu & Xu & y & X & Hread' & Hup & Hu & Hd
                    & m1 & p1 & u1 & a1 & m3 & p3 & u3 & a3 & pr3 & sc3 & auc3
                    & m4 & p4 & u4 & a4 & pr4 & sc4 & auc4
                    & E1 & E3 & E4 & _ & _ & ->).
  rewrite Hread in Hread'. inversion Hread'; subst df0'. clear Hread'.
  destruct (Hcsv _ _ _ Hread) as [Hcols Hwf].
  destruct (@soge_upsample_rows h df0 _ _ Hwf Hcols Hup)
    as (Hdf & Hmaj & Hmin & _ & Hdu).
  pose proof Hup as Hnofit. apply fit_log_upsample in Hnofit.
  destruct Hnofit as (Hnofit & _).
  rewrite Hdf in Hd. rewrite training_set_rows_of in Hd.
  rewrite map_tl_relabel in Hd.
  assert (Ey : map label_of (map relabel (values df0))
               = binarize (map label_of (values df0))).
  { unfold binarize. rewrite !map_map. reflexivity. }
  rewrite Ey in Hd. inversion Hd; subst X y. clear Hd.
  split.
  { rewrite Hdf. unfold drop.
    cbn [columns values index_of data_names String.eqb Ascii.eqb Bool.eqb
         remove_nth].
    f_equal; f_equal; rewrite map_map; apply map_ext;
      intros [ | c r]; reflexivity. }
  split.
  { unfold well_formed, rectangular in Hwf. rewrite Hcols in Hwf.
    apply Forall_forall. intros row Hin. apply in_map_iff in Hin.
    destruct Hin as (r & <- & Hr). rewrite Forall_forall in Hwf.
    specialize (Hwf r Hr). destruct r; simpl in *; [ discriminate | lia ]. }
  split.
  { unfold binarize. rewrite !length_map. reflexivity. }
  exists Xu, yu, m1, m3, m4.
  cbn [app]. cbn [fit_log]. rewrite !fit_log_app, Hnofit.
  reflexivity.
Qed.

(** X5. The logistic regression is trained on the rows of the file whose
    class is not 'B', in file order, followed by the 576 rows that
    [resample] returned; its labels are a block of zeros followed by 576
    ones.  Under the promise that [resample] returns rows of the frame it
    is given, every one of the 576 added rows repeats a 'B' row of the
    file: upsampling adds no row that is not in the data. *)
Theorem logistic_trains_on_upsampled_rows h ns tr df0 :
  read_csv_contract h -> resample_contract h ->
  run h soge2 = (Ok ns, tr) ->
  h _ (ReadCsv data_path data_names) = Ok df0 ->
  let kept := filter (fun r => negb (is_B r)) (values df0) in
  let drawn := values (df_minority_upsampled (soge_frames ns)) in
  List.length drawn = 576%nat /\
  Forall (fun r => exists r0, In r0 (values df0) /\ is_B r0 = true /\
                              r = relabel r0) drawn /\
  exists m1 X y m3 m4,
    fit_log tr
    = [ mkFit LogisticRegression
          (map (@tl cell) kept ++ map (@tl cell) drawn)
          (repeat (CInt 0) (List.length kept) ++ repeat (CInt 1) 576) m1;
        mkFit SVC X y m3;
        mkFit RandomForestClassifier X y m4 ].
Proof.
  intros Hcsv Hres Hrun Hread kept drawn. apply soge2_cells in Hrun.
  destruct Hrun as (df0' & tr_up & yu & Xu & y & X & Hread' & Hup & Hu & Hd
                    & m1 & p1 & u1 & a1 & m3 & p3 & u3 & a3 & pr3 & sc3 & auc3
                    & m4 & p4 & u4 & a4 & pr4 & sc4 & auc4
                    & E1 & E3 & E4 & _ & _ & ->).
  rewrite Hread in Hread'. inversion Hread'; subst df0'. clear Hread'.
  destruct (Hcsv _ _ _ Hread) as [Hcols Hwf].
  destruct (@soge_upsample_rows h df0 _ _ Hwf Hcols Hup)
    as (Hdf & Hmaj & Hmin & Hcall & Hdu).
  pose proof Hup as Hnofit. apply fit_log_upsample in Hnofit.
  destruct Hnofit as (Hnofit & _).
  destruct (Hres _ _ _ Hcall) as (_ & Hincl & Hn).
  specialize (Hn 576 eq_refl).
  assert (Hlen : List.length drawn = 576%nat) by (unfold drawn; lia).
  assert (Hdrawn : Forall (fun r => exists r0, In r0 (values df0) /\
                                      is_B r0 = true /\ r = relabel r0) drawn).
  { apply Forall_forall. intros r Hr. apply Hincl in Hr.
    rewrite Hmin in Hr. cbn [values] in Hr. apply in_map_iff in Hr.
    destruct Hr as (r0 & <- & Hr0). apply filter_In in Hr0.
    destruct Hr0 as [Hin HB]. exists r0. auto. }
  split; [ exact Hlen | ]. split; [ exact Hdrawn | ].
  rewrite Hdu in Hu. rewrite training_set_rows_of in Hu.
  rewrite Hmaj in Hu. cbn [values] in Hu. fold kept drawn in Hu.
  rewrite !map_app, map_tl_relabel in Hu.
  assert (E0 : map label_of (map relabel kept)
               = repeat (CInt 0) (List.length kept)).
  { rewrite (@Forall_repeat cell (CInt 0) (map label_of (map relabel kept))).
    - rewrite !length_map. reflexivity.
    - apply Forall_forall. intros c Hc. apply in_map_iff in Hc.
      destruct Hc as (r & <- & Hr). apply in_map_iff in Hr.
      destruct Hr as (r0 & <- & Hr0). apply filter_In in Hr0.
      destruct Hr0 as [_ HB]. rewrite label_relabel.
      destruct (is_B r0); [ discriminate | reflexivity ]. }
  assert (E1' : map label_of drawn = repeat (CInt 1) 576).
  { rewrite (@Forall_repeat cell (CInt 1) (map label_of drawn)).
    - rewrite length_map, Hlen. reflexivity.
    - apply Forall_forall. intros c Hc. apply in_map_iff in Hc.
      destruct Hc as (r & <- & Hr). rewrite Forall_forall in Hdrawn.
      destruct (Hdrawn r Hr) as (r0 & _ & HB & ->).
      rewrite label_relabel, HB. reflexivity. }
  rewrite E0, E1' in Hu. inversion Hu; subst Xu yu. clear Hu.
  exists m1, X, y, m3, m4.
  cbn [app]. cbn [fit_log]. rewrite !fit_log_app, Hnofit.
  reflexivity.
Qed.

(** X2. Whatever the file holds, the resampled frame has exactly 576 rows
    of label 1 and as many rows of label 0 as the file has rows whose class
    is not 'B'.  Its two classes are therefore balanced exactly when the
    file has 576 such rows: the sample size is a constant of the script and
    does not follow the data. *)
Theorem upsampled_class_counts h ns tr df0 :
  read_csv_contract h -> resample_contract h ->
  run h soge2 = (Ok ns, tr) ->
  h _ (ReadCsv data_path data_names) = Ok df0 ->
  exists balance_up,
    get_column (df_upsampled (soge_frames ns)) "balance" = Ok balance_up /\
    count_label 1 balance_up = 576%nat /\
    count_label 0 balance_up
      = List.length (filter (fun r => negb (is_B r)) (values df0)) /\
    List.length balance_up
      = (List.length (filter (fun r => negb (is_B r)) (values df0))
         + 576)%nat /\
    (count_label 0 balance_up = count_label 1 balance_up <->
     List.length (filter (fun r => negb (is_B r)) (values df0)) = 576%nat).
Proof.
  intros Hcsv Hres Hrun Hread. apply soge2_cells in Hrun.
  destruct Hrun as (df0' & tr_up & yu & Xu & y & X & Hread' & Hup & _).
  rewrite Hread in Hread'. inversion Hread'; subst df0'. clear Hread'.
  destruct (Hcsv _ _ _ Hread) as [Hcols Hwf].
  destruct (@soge_upsample_labels Model h df0 _ _ Hres Hwf Hcols Hup)
    as (_ & H0 & Hn0 & H1 & Hn1 & Hbu & _).
  rewrite count_not_B_rows in Hn0.
  exists (map label_of (values (df_majority (soge_frames ns)))
          ++ map label_of (values (df_minority_upsampled (soge_frames ns)))).
  split; [ exact Hbu | ].
  rewrite !count_label_app.
  rewrite (count_label_all 1 H0), (count_label_all 1 H1).
  rewrite (count_label_all 0 H0), (count_label_all 0 H1).
  rewrite length_app, !length_map. cbn [Z.eqb Pos.eqb].
  rewrite Hn0, Hn1. repeat split; lia.
Qed.

(** X3. The upsampling needs a minority to draw from: under the promise
    that [resample] returns 576 rows of the frame it is given, a run can
    only complete on a file with at least one row of class 'B'; on a file
    with none, the run ends in an exception. *)
Theorem upsampling_needs_a_minority_row h df0 :
  resample_contract h ->
  h _ (ReadCsv data_path data_names) = Ok df0 ->
  columns df0 = data_names -> well_formed df0 ->
  (forall ns tr, run h soge2 = (Ok ns, tr) ->
                 Exists (fun r => is_B r = true) (values df0)) /\
  (Forall (fun r => is_B r = false) (values df0) ->
   exists e, fst (run h soge2) = Err e).
Proof.
  intros Hres Hread Hcols Hwf.
  assert (Hpos : forall ns tr, run h soge2 = (Ok ns, tr) ->
                               Exists (fun r => is_B r = true) (values df0)).
  { intros ns tr Hrun. apply soge2_cells in Hrun.
    destruct Hrun as (df0' & tr_up & yu & Xu & y & X & Hread' & Hup & _).
    rewrite Hread in Hread'. inversion Hread'; subst df0'. clear Hread'.
    destruct (@soge_upsample_rows h df0 _ _ Hwf Hcols Hup)
      as (Hdf & Hmaj & Hmin & Hcall & Hdu).
    destruct (Hres _ _ _ Hcall) as (_ & Hincl & Hn).
    specialize (Hn 576 eq_refl).
    destruct (values (df_minority_upsampled (soge_frames ns))) as [ | r rest]
      eqn:E; [ simpl in Hn; lia | ].
    assert (Hr : In r (values (df_minority (soge_frames ns))))
      by (apply Hincl; left; reflexivity).
    rewrite Hmin in Hr. cbn [values] in Hr. apply in_map_iff in Hr.
    destruct Hr as (r0 & _ & Hr0). apply filter_In in Hr0.
    apply Exists_exists. exists r0. exact Hr0. }
  split; [ exact Hpos | ].
  intros Hnone. destruct (run h soge2) as [[ns | e] tr] eqn:Hrun.
  - specialize (Hpos ns tr eq_refl). apply Exists_exists in Hpos.
    destruct Hpos as (r & Hin & HB). rewrite Forall_forall in Hnone.
    rewrite (Hnone r Hin) in HB. discriminate.
  - exists e. reflexivity.
Qed.

(** ** Where an exception can come from *)

Lemma raises_only_blames h (own : exn -> Prop) (A : Type) (Q : A -> Prop)
  (p : prog Model A) :
  raises_only h own Q p ->
  blames own (run h p) /\ (forall a t, run h p = (Ok a, t) -> Q a).
Proof.
  induction p as [? a | ? e | ? X op k IH | ? X body IHb hd IHh k IH];
    simpl; intros H; [ | | | contradiction ].
  - split; [ exact I | ]. intros a' t E. inversion E; subst. exact H.
  - split; [ right; exact H | ]. intros a t E. discriminate.
  - destruct (h X op) as [x | e] eqn:E.
    + destruct (IH x Q (H x eq_refl)) as [Hb Hq].
      destruct (run h (k x)) as [r t] eqn:Er. split.
      * unfold blames in *. simpl in *. destruct r as [b | e]; auto.
        destruct Hb as [(pre & ev & -> & Hr) | Ho]; [ left | right; auto ].
        exists (Ev op (Ok x) :: pre), ev. auto.
      * intros a t' E'. inversion E'; subst. eapply Hq. reflexivity.
    + split; [ | intros; discriminate ].
      left. exists [], (Ev op (Err e)). auto.
Qed.

Lemma raises_only_weaken h (own : exn -> Prop) (A : Type) (Q Q' : A -> Prop)
  (p : prog Model A) :
  (forall a, Q a -> Q' a) -> raises_only h own Q p -> raises_only h own Q' p.
Proof.
  intros HQ.
  induction p as [? a | ? e | ? X op k IH | ? X body IHb hd IHh k IH];
    simpl; eauto.
Qed.

Lemma raises_only_bind h (own : exn -> Prop) (A B : Type) (Q : A -> Prop)
  (R : B -> Prop) (p : prog Model A) (f : A -> prog Model B) :
  raises_only h own Q p -> (forall a, Q a -> raises_only h own R (f a)) ->
  raises_only h own R (pbind p f).
Proof.
  intros Hp Hf.
  induction p as [? a | ? e | ? X op k IH | ? X body IHb hd IHh k IH];
    simpl in *; eauto.
Qed.

Lemma raises_only_for_each h (own : exn -> Prop) (A S : Type)
  (Inv : S -> Prop) (l : list A) (body : A -> S -> prog Model S) :
  (forall a s, In a l -> Inv s -> raises_only h own Inv (body a s)) ->
  forall s, Inv s -> raises_only h own Inv (for_each l body s).
Proof.
  induction l as [ | a l IH]; intros Hbody s Hs; simpl.
  - exact Hs.
  - apply raises_only_bind with (Q := Inv).
    + apply Hbody; simpl; auto.
    + intros s' Hs'. apply IH; auto. intros; apply Hbody; simpl; auto.
Qed.

Lemma blames_bind h (own : exn -> Prop) (A B : Type) (p : prog Model A)
  (f : A -> prog Model B) :
  blames own (run h p) ->
  (forall a t, run h p = (Ok a, t) -> blames own (run h (f a))) ->
  blames own (run h (pbind p f)).
Proof.
  intros Hp Hf. rewrite run_bind.
  destruct (run h p) as [[a | e] t]; [ | exact Hp ].
  specialize (Hf a t eq_refl). destruct (run h (f a)) as [[b | e] t'].
  - exact I.
  - unfold blames in *. simpl in *.
    destruct Hf as [(pre & ev & -> & Hr) | Ho]; [ left | right; auto ].
    exists (t ++ pre), ev. rewrite app_assoc. auto.
Qed.

Lemma blames_err (own : exn -> Prop) (A : Type) (r : result A) e tr :
  blames own (r, tr) -> r = Err e ->
  (exists pre ev, tr = pre ++ [ev] /\ raised ev = Some e) \/ own e.
Proof. intros H ->. exact H. Qed.

Lemma second_column_error probs e :
  second_column probs = Err e -> e = IndexError.
Proof.
  induction probs as [ | p probs IH]; cbn [second_column];
    [ discriminate | ].
  destruct (nth_error p 1); [ | intros H; congruence ].
  destruct (second_column probs); [ discriminate | ].
  intros H. apply IH. congruence.
Qed.

Lemma second_column_defined probs :
  Forall (fun p => (2 <= List.length p)%nat) probs ->
  exists qs, second_column probs = Ok qs.
Proof.
  induction 1 as [ | p probs Hp _ [qs IH]]; simpl; [ eauto | ].
  destruct p as [ | a [ | b p]]; simpl in Hp; try lia. simpl.
  rewrite IH. eauto.
Qed.

Ltac raise_steps :=
  repeat (cbn [raises_only pbind bind Monad_prog call ret lift];
          match goal with
          | |- True => exact I
          | |- forall _, _ => intro
          end).

Lemma drop_balance d :
  columns d = data_names ->
  drop d "balance"
  = Ok {| columns := ["var1"; "var2"; "var3"; "var4"]%string;
          values := map (remove_nth 0) (values d) |}.
Proof. intros E. unfold drop. rewrite E. reflexivity. Qed.

Lemma soge_logistic_raises h (own : exn -> Prop) d :
  columns d = data_names ->
  raises_only h own (fun _ => True) (soge_logistic d).
Proof.
  intros Hc. unfold soge_logistic.
  rewrite (get_column_balance _ Hc), (drop_balance _ Hc). raise_steps.
Qed.

Lemma soge_svc_raises h (own : exn -> Prop) d :
  columns d = data_names ->
  (forall c X probs e, h _ (PredictProba c X) = Ok probs ->
                       second_column probs = Err e -> own e) ->
  raises_only h own (fun _ => True) (soge_svc d).
Proof.
  intros Hc Hown. unfold soge_svc.
  rewrite (get_column_balance _ Hc), (drop_balance _ Hc). raise_steps.
  match goal with
  | Hp : h _ (PredictProba _ _) = Ok ?pr |- _ =>
      destruct (second_column pr) eqn:Esc;
        [ raise_steps | cbn [lift pbind raises_only]; eapply Hown; eassumption ]
  end.
Qed.

Lemma soge_forest_raises h (own : exn -> Prop) d :
  columns d = data_names ->
  (forall c X probs e, h _ (PredictProba c X) = Ok probs ->
                       second_column probs = Err e -> own e) ->
  raises_only h own (fun _ => True) (soge_forest d).
Proof.
  intros Hc Hown. unfold soge_forest.
  rewrite (get_column_balance _ Hc), (drop_balance _ Hc). raise_steps.
  match goal with
  | Hp : h _ (PredictProba _ _) = Ok ?pr |- _ =>
      destruct (second_column pr) eqn:Esc;
        [ raise_steps | cbn [lift pbind raises_only]; eapply Hown; eassumption ]
  end.
Qed.

Lemma soge_upsample_raises h (own : exn -> Prop) df0 :
  columns df0 = data_names ->
  raises_only h own
    (fun fr => columns (df fr) = data_names /\
               columns (df_upsampled fr) = data_names)
    (soge_upsample df0).
Proof.
  intros Hc. unfold soge_upsample.
  rewrite (get_column_balance _ Hc). cbn [lift bind Monad_prog pbind].
  unfold set_item. rewrite Hc. unfold binarize at 1.
  rewrite !length_map, Nat.eqb_refl.
  cbn [index_of data_names String.eqb Ascii.eqb Bool.eqb].
  cbn [lift bind Monad_prog pbind].
  set (d := {| columns := data_names; values := _ |}).
  assert (Hd : columns d = data_names) by reflexivity.
  unfold get_item at 1. rewrite Hd.
  cbn [index_of data_names String.eqb Ascii.eqb Bool.eqb].
  rewrite (get_column_balance _ Hd).
  raise_steps.
  rewrite get_column_balance by reflexivity. raise_steps.
  cbn [df df_upsampled]. split; reflexivity.
Qed.

Lemma soge2_raises h (own : exn -> Prop) :
  read_csv_contract h ->
  (forall c X probs e, h _ (PredictProba c X) = Ok probs ->
                       second_column probs = Err e -> own e) ->
  raises_only h own (fun _ => True) soge2.
Proof.
  intros Hcsv Hown. unfold soge2. cbn [bind Monad_prog].
  eapply raises_only_bind
    with (Q := fun df0 : DataFrame => columns df0 = data_names).
  { unfold soge_read. raise_steps.
    match goal with
    | Hr : h _ (ReadCsv _ _) = Ok _ |- _ => apply (Hcsv _ _ _ Hr)
    end. }
  intros df0 Hc.
  eapply raises_only_bind; [ apply soge_upsample_raises; exact Hc | ].
  intros fr [Hdf Hdu]. cbn beta in *.
  eapply raises_only_bind; [ apply soge_logistic_raises; exact Hdu | ].
  intros c1 _.
  eapply raises_only_bind; [ apply soge_svc_raises; assumption | ].
  intros c3 _.
  eapply raises_only_bind; [ apply soge_forest_raises; assumption | ].
  intros c4 _. exact I.
Qed.

(** *** With the import statements *)

Lemma import_module_error env m e :
  import_module env m = Err e -> e = ImportError.
Proof. unfold import_module. destruct (env m None); congruence. Qed.

Lemma from_import_error env m names e :
  from_import env m names = Err e -> e = ImportError.
Proof.
  unfold from_import.
  destruct (env m None && forallb (fun n => env m (Some n)) names);
    congruence.
Qed.

Lemma import_module_ok env m :
  (forall m' n, env m' n = true) -> import_module env m = Ok tt.
Proof. intros H. unfold import_module. rewrite H. reflexivity. Qed.

Lemma from_import_ok env m names :
  (forall m' n, env m' n = true) -> from_import env m names = Ok tt.
Proof.
  intros H. unfold from_import. rewrite H. simpl.
  replace (forallb (fun n => env m (Some n)) names) with true;
    [ reflexivity | ].
  symmetry. apply forallb_forall. intros n _. apply H.
Qed.

Ltac head_import p :=
  lazymatch p with
  | pbind ?q _ => head_import q
  | lift (from_import ?env ?m ?ns) => constr:(from_import env m ns)
  | lift (import_module ?env ?m) => constr:(import_module env m)
  end.

Ltac import_steps Himp :=
  repeat (cbn [bind ret Monad_prog pbind lift raises_only];
          match goal with
          | |- raises_only _ _ _ ?p =>
              let r := head_import p in
              let E := fresh "E" in
              destruct r as [[] | ?] eqn:E;
              [ | cbn [lift pbind raises_only];
                  first [ apply from_import_error in E
                        | apply import_module_error in E ];
                  subst; exact Himp ]
          end);
  cbn [bind ret Monad_prog pbind lift raises_only].

Lemma soge_upsample_cell_raises h (own : exn -> Prop) env df0 :
  own ImportError ->
  columns df0 = data_names ->
  raises_only h own
    (fun fr => columns (df fr) = data_names /\
               columns (df_upsampled fr) = data_names)
    (soge_upsample_cell env df0).
Proof.
  intros Himp Hc. unfold soge_upsample_cell, soge_binarize, soge_resample.
  rewrite (get_column_balance _ Hc). cbn [lift bind Monad_prog pbind].
  unfold set_item. rewrite Hc. unfold binarize at 1.
  rewrite !length_map, Nat.eqb_refl.
  cbn [index_of data_names String.eqb Ascii.eqb Bool.eqb].
  cbn [lift bind Monad_prog pbind].
  set (d := {| columns := data_names; values := _ |}).
  assert (Hd : columns d = data_names) by reflexivity.
  unfold get_item at 1. rewrite Hd.
  cbn [index_of data_names String.eqb Ascii.eqb Bool.eqb].
  raise_steps. import_steps Himp.
  rewrite (get_column_balance _ Hd). raise_steps.
  rewrite get_column_balance by reflexivity. raise_steps.
  cbn [df df_upsampled]. split; reflexivity.
Qed.

Lemma soge2_notebook_raises h (own : exn -> Prop) env :
  read_csv_contract h ->
  own ImportError ->
  (forall c X probs e, h _ (PredictProba c X) = Ok probs ->
                       second_column probs = Err e -> own e) ->
  raises_only h own (fun _ => True) (soge2_notebook env).
Proof.
  intros Hcsv Himp Hown. unfold soge2_notebook, soge_imports.
  import_steps Himp.
  eapply raises_only_bind
    with (Q := fun df0 : DataFrame => columns df0 = data_names).
  { unfold soge_read. raise_steps.
    match goal with
    | Hr : h _ (ReadCsv _ _) = Ok _ |- _ => apply (Hcsv _ _ _ Hr)
    end. }
  intros df0 Hc.
  eapply raises_only_bind;
    [ apply soge_upsample_cell_raises; assumption | ].
  intros fr [Hdf Hdu]. cbn beta in *.
  eapply raises_only_bind; [ apply soge_logistic_raises; exact Hdu | ].
  intros c1 _. import_steps Himp.
  eapply raises_only_bind; [ apply soge_svc_raises; assumption | ].
  intros c3 _. import_steps Himp.
  eapply raises_only_bind; [ apply soge_forest_raises; assumption | ].
  intros c4 _. exact I.
Qed.

(** With everything installed, cell 3 runs as [soge_upsample] does. *)
Lemma soge_upsample_cell_run h env df0 :
  (forall m n, env m n = true) ->
  run h (soge_upsample_cell env df0) = run h (soge_upsample df0).
Proof.
  intros Henv. unfold soge_upsample_cell, soge_binarize, soge_resample,
    soge_upsample.
  rewrite !from_import_ok by exact Henv.
  destruct (get_column df0 "balance") as [b0 | e]; [ | reflexivity ].
  cbn [bind ret Monad_prog pbind lift].
  destruct (set_item df0 "balance" (binarize b0)) as [d | e];
    [ | reflexivity ].
  cbn [bind ret Monad_prog pbind lift].
  destruct (get_item d "balance") as [b | e]; [ | reflexivity ].
  reflexivity.
Qed.

(** With everything installed, the notebook runs as its cells do. *)
Lemma soge2_notebook_run h env :
  (forall m n, env m n = true) ->
  run h (soge2_notebook env) = run h soge2.
Proof.
  intros Henv. unfold soge2_notebook, soge_imports, soge2.
  rewrite !from_import_ok, !import_module_ok by exact Henv.
  cbn [bind ret Monad_prog pbind lift].
  rewrite !(run_bind h soge_read).
  destruct (run h soge_read) as [[df0 | e] t]; [ | reflexivity ].
  rewrite !(run_bind h (soge_upsample_cell env df0)).
  rewrite !(run_bind h (soge_upsample df0)).
  rewrite (@soge_upsample_cell_run h env df0 Henv). reflexivity.
Qed.

(** X13. The second notebook, import statements included, raises nothing
    of its own but [ImportError] and [IndexError], when [read_csv] returns a
    frame over the names it was given: a run that ends in an exception ends
    in the one its last call raised, in the [ImportError] of an import that
    the installation cannot satisfy, or in the [IndexError] of [p[1]] on a
    probability row with fewer than two entries.  Where everything the
    notebook imports is installed it runs as its cells do, and if
    [predict_proba] returns rows of two entries or more, every failure is
    then the failure of the last library call. *)
Theorem soge2_failures_come_from_the_library env h e tr :
  read_csv_contract h ->
  run h (soge2_notebook env) = (Err e, tr) ->
  ((exists pre ev, tr = pre ++ [ev] /\ raised ev = Some e) \/
   e = ImportError \/ e = IndexError) /\
  ((forall m n, env m n = true) ->
   run h (soge2_notebook env) = run h soge2 /\
   ((forall c X probs, h _ (PredictProba c X) = Ok probs ->
                       Forall (fun p => (2 <= List.length p)%nat) probs) ->
    exists pre ev, tr = pre ++ [ev] /\ raised ev = Some e)).
Proof.
  intros Hcsv Hrun. split.
  - assert (H : raises_only h (fun e => e = ImportError \/ e = IndexError)
                  (fun _ => True) (soge2_notebook env)).
    { apply soge2_notebook_raises; [ exact Hcsv | left; reflexivity | ].
      intros c X probs e' _ He. right.
      eapply second_column_error; exact He. }
    apply raises_only_blames in H. destruct H as [H _]. rewrite Hrun in H.
    exact H.
  - intros Henv. split; [ apply soge2_notebook_run; exact Henv | ].
    intros Hp.
    assert (H : raises_only h (fun _ => False) (fun _ => True) soge2).
    { apply soge2_raises; [ exact Hcsv | ].
      intros c X probs e' Hc He.
      destruct (second_column_defined (Hp _ _ _ Hc)) as [qs Hq].
      rewrite Hq in He. discriminate. }
    apply raises_only_blames in H. destruct H as [H _].
    rewrite <- (@soge2_notebook_run h env Henv), Hrun in H.
    destruct H as [H | []]. exact H.
Qed.

Lemma oob_step_raises h (own : exn -> Prop) X y label i clf er :
  (forall c X y m, wants_oob c = true -> h _ (Fit c X y) = Ok m ->
                   oob_score_ m = None -> own AttributeError) ->
  wants_oob clf = true -> has_key label er -> keys_kept Model er ->
  raises_only h own
    (fun st => wants_oob (fst st) = true /\ has_key label (snd st) /\
               keys_kept Model (snd st))
    (oob_step oob_score_ X y label i (clf, er)).
Proof.
  intros Hown Hw Hk Hks. unfold oob_step, curve in *.
  cbn [raises_only pbind bind Monad_prog call]. intros m Hm.
  unfold attr_oob_score_. cbn [fitted with_fitted].
  destruct (oob_score_ m) as [q | ] eqn:Eq.
  - cbn [lift pbind]. unfold od_append.
    destruct (od_get label er) as [l0 | ] eqn:El; [ | elim Hk; exact El ].
    cbn [lift pbind raises_only ret Monad_prog fst snd].
    split; [ change (wants_oob (set_params clf "n_estimators" (PInt i)) = true);
             rewrite wants_oob_set_params; exact Hw | ].
    split; [ apply has_key_od_set; exact Hk | ].
    unfold keys_kept in *. eapply Forall_impl; [ | exact Hks ].
    simpl. intros lc Hlc. apply has_key_od_set. exact Hlc.
  - cbn [lift pbind raises_only]. eapply Hown; [ | exact Hm | exact Eq ].
    rewrite wants_oob_set_params. exact Hw.
Qed.

Lemma oob_sweep_raises h (own : exn -> Prop) :
  (forall c X y m, wants_oob c = true -> h _ (Fit c X y) = Ok m ->
                   oob_score_ m = None -> own AttributeError) ->
  raises_only h own (fun _ => True) (oob_sweep oob_score_).
Proof.
  intros Hown. unfold oob_sweep. cbn [bind Monad_prog].
  cbn [raises_only pbind call]. intros _ _ [X y] _. cbn [fst snd].
  eapply raises_only_bind
    with (Q := fun st : list (string * estimator Model) * OrderedDict curve =>
                 keys_kept Model (snd st)); [ | simpl; auto ].
  apply raises_only_for_each.
  - intros lc [done er] Hin Hks. cbn [bind Monad_prog fst snd] in *.
    eapply raises_only_bind
      with (Q := fun st : estimator Model * OrderedDict curve =>
                   wants_oob (fst st) = true /\ has_key (fst lc) (snd st)
                   /\ keys_kept Model (snd st)).
    + apply raises_only_for_each.
      * intros i [clf0 er0] _ (Hw & Hk & Hks0). cbn [fst snd] in *.
        apply oob_step_raises; assumption.
      * cbn [fst snd]. split; [ | split; [ | exact Hks ] ].
        -- assert (Hin2 := Hin). simpl in Hin2.
           destruct Hin2 as [<- | [<- | [<- | []]]]; reflexivity.
        -- unfold keys_kept in Hks. rewrite Forall_forall in Hks.
           apply (Hks lc Hin).
    + intros [clf' er'] (_ & _ & Hks'). exact Hks'.
  - simpl. unfold keys_kept, has_key.
    repeat (apply Forall_cons; [ simpl; discriminate | ]). apply Forall_nil.
Qed.

Lemma oob_plot_raises h (own : exn -> Prop) (er : OrderedDict curve) :
  Forall (fun lc => snd lc <> []) er ->
  raises_only h own (fun _ => True) (oob_plot er).
Proof.
  intros Hne. unfold oob_plot. cbn [bind Monad_prog].
  eapply raises_only_bind with (Q := fun _ => True).
  - apply raises_only_for_each; [ | exact I ].
    intros lc [] Hin _. cbn [bind Monad_prog].
    rewrite Forall_forall in Hne. specialize (Hne lc Hin).
    unfold unzip_curve, curve in *.
    destruct (snd lc) as [ | p c] eqn:E; [ elim Hne; reflexivity | ].
    raise_steps.
  - intros _ _. raise_steps.
Qed.

Lemma notebook_blames h (own : exn -> Prop) :
  (forall c X y m, wants_oob c = true -> h _ (Fit c X y) = Ok m ->
                   oob_score_ m = None -> own AttributeError) ->
  blames own (run h (plot_ensemble_oob oob_score_)).
Proof.
  intros Hown. unfold plot_ensemble_oob. cbn [bind Monad_prog].
  apply blames_bind.
  - eapply (@raises_only_blames h own _ (fun _ => True)).
    apply oob_sweep_raises. exact Hown.
  - intros ns t Hsweep. apply oob_sweep_ok in Hsweep.
    destruct Hsweep as (answers & _ & Hsc & _ & Her).
    eapply (@raises_only_blames h own _ (fun _ => True)).
    eapply raises_only_bind; [ apply oob_plot_raises | intros; exact I ].
    rewrite Her. eapply sweep_curves_nonempty. exact Hsc.
Qed.

(** X14. The statements of the first notebook raise nothing of their own
    except the [AttributeError] of reading [oob_score_] from a fitted
    forest that has none: [error_rate[label]] always finds its key and
    [zip( *clf_err )] never sees an empty curve, so no run ends in
    [KeyError] or [ValueError] unless a library call raised it.  When a
    forest fit with [oob_score=True] always has the attribute, every
    failure of a run is the failure of its last call. *)
Theorem oob_failures_come_from_the_library h e tr :
  run h (plot_ensemble_oob oob_score_) = (Err e, tr) ->
  ((exists pre ev, tr = pre ++ [ev] /\ raised ev = Some e) \/
   e = AttributeError) /\
  ((forall c X y m, wants_oob c = true -> h _ (Fit c X y) = Ok m ->
                    oob_score_ m <> None) ->
   exists pre ev, tr = pre ++ [ev] /\ raised ev = Some e).
Proof.
  intros Hrun. split.
  - assert (H := @notebook_blames h (fun e => e = AttributeError)
                   (fun _ _ _ _ _ _ _ => eq_refl)).
    rewrite Hrun in H. exact H.
  - intros Hscore.
    assert (H := @notebook_blames h (fun _ => False)
                   (fun c X y m Hw Hm Hn => Hscore c X y m Hw Hm Hn)).
    rewrite Hrun in H. destruct H as [H | []]. exact H.
Qed.

(** ** The sweep and the plot *)

Lemma existsb_none (A : Type) (p : A -> bool) l :
  Forall (fun a => p a = false) l -> existsb p l = false.
Proof.
  induction 1 as [ | a l Ha _ IH]; simpl; auto. rewrite Ha, IH. reflexivity.
Qed.

(** X10. Plotting is all or nothing.  The sweep makes no plotting call, and
    the plotting part starts only when the sweep is over: if a run makes a
    plotting call at all, then the whole sweep completed in it, with three
    curves of 161 points each.  A failure during the sweep ends the run
    with the sweep's exception and nothing plotted. *)
Theorem plots_need_the_whole_sweep h :
  existsb (@is_plot Model) (snd (run h (plot_ensemble_oob oob_score_))) = true ->
  exists ns t,
    run h (oob_sweep oob_score_) = (Ok ns, t) /\
    existsb (@is_plot Model) t = false /\
    List.length (error_rate ns) = 3%nat /\
    Forall (fun lc : string * curve => List.length (snd lc) = 161%nat)
           (error_rate ns).
Proof.
  intros Hplot.
  assert (Hno : existsb (@is_plot Model) (snd (run h (oob_sweep oob_score_)))
                = false).
  { apply existsb_none.
    apply (@issues_trace Model h _ _ (fun _ => True)).
    apply oob_sweep_calls.
    intros [X op r] Hev. destruct op; simpl in *; congruence. }
  unfold plot_ensemble_oob in Hplot. cbn [bind Monad_prog] in Hplot.
  rewrite run_bind in Hplot.
  destruct (run h (oob_sweep oob_score_)) as [[ns | e] t] eqn:Hsweep.
  - exists ns, t. split; [ reflexivity | ]. split; [ exact Hno | ].
    apply oob_sweep_ok in Hsweep.
    destruct Hsweep as (answers & Hlen & Hsc & _ & Her).
    rewrite Her. unfold sweep_curves.
    destruct answers as [ | a1 [ | a2 [ | a3 [ | ]]]]; try discriminate.
    inversion Hsc as [ | ? ? (_ & Hq1 & _) Hsc' ]; subst.
    inversion Hsc' as [ | ? ? (_ & Hq2 & _) Hsc'' ]; subst.
    inversion Hsc'' as [ | ? ? (_ & Hq3 & _) _ ]; subst.
    unfold ensemble_clfs. cbn [combine map fst snd List.length].
    split; [ reflexivity | ].
    repeat (apply Forall_cons;
            [ cbn [snd]; rewrite curve_of_length by assumption;
              apply sizes_length | ]).
    apply Forall_nil.
  - simpl in Hplot, Hno. rewrite Hno in Hplot. discriminate.
Qed.

Lemma kw_set_set k v v' kw : kw_set k v (kw_set k v' kw) = kw_set k v kw.
Proof.
  induction kw as [ | [k' w] kw IH]; simpl.
  - rewrite String.eqb_refl. reflexivity.
  - destruct (String.eqb k k') eqn:E; simpl.
    + rewrite String.eqb_refl. reflexivity.
    + rewrite E, IH. reflexivity.
Qed.

Lemma chain_params X y (l : list Z) :
  forall (ms : list Model) (clf : estimator Model),
    List.length ms = List.length l ->
    map (fun f => params (fit_clf f)) (fit_log (fit_events X y clf l ms))
    = map (fun i => kw_set "n_estimators" (PInt i) (params clf)) l.
Proof.
  induction l as [ | i l IH]; intros [ | m ms] clf Hlen; simpl in *;
    try discriminate; auto.
  f_equal. rewrite IH by lia. cbn [params with_fitted set_params].
  apply map_ext. intros j. apply kw_set_set.
Qed.

Lemma chain_data X y (l : list Z) :
  forall (ms : list Model) (clf : estimator Model),
    Forall (fun f => cls (fit_clf f) = cls clf /\ fit_X f = X /\ fit_y f = y)
           (fit_log (fit_events X y clf l ms)).
Proof.
  induction l as [ | i l IH]; intros [ | m ms] clf; simpl; auto.
  constructor; [ simpl; auto | ].
  apply (IH ms (with_fitted (set_params clf "n_estimators" (PInt i)) m)).
Qed.

(** The fits of a completed run of the first notebook, forest by forest. *)
Lemma notebook_chains h ns tr :
  run h (plot_ensemble_oob oob_score_) = (Ok ns, tr) ->
  exists ms : nat -> list Model,
    (forall k, (k < 3)%nat ->
               List.length (ms k) = List.length sizes /\
               fits_of (forest Model k) tr
               = fit_log (fit_events (oob_X ns) (oob_y ns) (forest Model k)
                                     sizes (ms k))) /\
    fit_log tr
    = fits_of (forest Model 0) tr ++ fits_of (forest Model 1) tr
      ++ fits_of (forest Model 2) tr.
Proof.
  intros Hrun. apply notebook_ok in Hrun.
  destruct Hrun as (answers & Hlen & Hsc & -> & Her).
  destruct answers as [ | [ms1 qs1] [ | [ms2 qs2] [ | [ms3 qs3] [ | ]]]];
    try discriminate.
  inversion Hsc as [ | ? ? (Hm1 & _) Hsc' ]; subst.
  inversion Hsc' as [ | ? ? (Hm2 & _) Hsc'' ]; subst.
  inversion Hsc'' as [ | ? ? (Hm3 & _) _ ]; subst.
  cbn [fst snd] in *.
  exists (fun k => match k with
                   | O => ms1 | S O => ms2 | _ => ms3
                   end).
  unfold fits_of. rewrite fit_log_sweep. cbn [fst]. split.
  - intros k Hk.
    rewrite !filter_app, !chain_fits, !forest_config by lia.
    destruct k as [ | [ | [ | k]]]; try lia; cbn [Nat.eqb app];
      rewrite ?app_nil_r; auto.
  - rewrite !filter_app, !chain_fits, !forest_config by lia.
    cbn [Nat.eqb app]. rewrite ?app_nil_r. reflexivity.
Qed.

(** X9. The sweep works on one dataset and changes nothing but
    [n_estimators].  A completed run calls [make_classification] once, as
    its second call and with the arguments of the script, and makes no other
    loading call; what that call returned is the [X], [y] of every fit.  The
    three forests are taken one after the other, and the fits of a forest
    are made with the parameters it was constructed with and [n_estimators]
    set to 15, 16, ..., 175 in turn. *)
Theorem sweep_changes_only_n_estimators h ns tr :
  run h (plot_ensemble_oob oob_score_) = (Ok ns, tr) ->
  (exists rest,
      tr = Ev (Print (RText __doc__)) (Ok tt)
           :: Ev (MakeClassification dataset_args) (Ok (oob_X ns, oob_y ns))
           :: rest /\
      count_calls (@is_load Model) rest = 0%nat /\
      fit_log rest = fit_log tr) /\
  fit_log tr
  = fits_of (forest Model 0) tr ++ fits_of (forest Model 1) tr
    ++ fits_of (forest Model 2) tr /\
  forall label clf,
    In (label, clf) (ensemble_clfs Model) ->
    map (fun f => params (fit_clf f)) (fits_of clf tr)
    = map (fun i => kw_set "n_estimators" (PInt i) (params clf))
          (range 15 176) /\
    Forall (fun f => cls (fit_clf f) = "RandomForestClassifier"%string /\
                     fit_X f = oob_X ns /\ fit_y f = oob_y ns)
           (fits_of clf tr).
Proof.
  intros Hrun. split.
  { pose proof Hrun as Hlife. apply notebook_lifecycle in Hlife.
    destruct Hlife as (Hload & _).
    pose proof Hrun as Hok. apply notebook_ok in Hok.
    destruct Hok as (answers & _ & _ & Htr & _). rewrite Htr in *.
    eexists. split; [ reflexivity | ]. split; [ | reflexivity ].
    unfold count_calls in *. cbn [filter is_load List.length] in Hload.
    lia. }
  apply notebook_chains in Hrun.
  destruct Hrun as (ms & Hms & Hall). split; [ exact Hall | ].
  intros label clf Hin. apply ensemble_In in Hin.
  destruct Hin as (k & Hk & -> & _).
  destruct (Hms k Hk) as [Hlen ->].
  split.
  - rewrite chain_params by exact Hlen. reflexivity.
  - eapply Forall_impl; [ | apply chain_data ].
    cbn beta. intros f (Hc & HX & Hy). split; [ | auto ].
    rewrite Hc. destruct k as [ | [ | [ | k]]]; try lia; reflexivity.
Qed.

Lemma split_fst (A B : Type) (l : list (A * B)) :
  fst (List.split l) = map fst l.
Proof.
  induction l as [ | [a b] l IH]; simpl; auto.
  destruct (List.split l). simpl in *. rewrite IH. reflexivity.
Qed.

Lemma split_snd (A B : Type) (l : list (A * B)) :
  snd (List.split l) = map snd l.
Proof.
  induction l as [ | [a b] l IH]; simpl; auto.
  destruct (List.split l). simpl in *. rewrite IH. reflexivity.
Qed.

Lemma combine_fst_snd (A B : Type) (l : list (A * B)) :
  combine (map fst l) (map snd l) = l.
Proof.
  induction l as [ | [a b] l IH]; simpl; auto. rewrite IH. reflexivity.
Qed.

(** What one curve of the sweep looks like when it is plotted. *)
Lemma plotted_curve label qs :
  List.length qs = List.length sizes ->
  exists ys,
    plotted (label, curve_of sizes qs) = (sizes, ys, label) /\
    List.length ys = 161%nat /\
    combine sizes ys = curve_of sizes qs.
Proof.
  intros Hlen. exists (map snd (curve_of sizes qs)).
  unfold plotted. cbn [fst snd]. rewrite split_fst, split_snd.
  rewrite curve_of_fst by exact Hlen.
  split; [ reflexivity | ]. split.
  - rewrite length_map, curve_of_length by exact Hlen. apply sizes_length.
  - rewrite <- (curve_of_fst sizes qs Hlen) at 1. apply combine_fst_snd.
Qed.

(** X11. What a completed run draws: one [plt.plot] call per forest, in
    the order of [ensemble_clfs] and under its label; the x values of each
    are 15, 16, ..., 175, all within the limits given to [plt.xlim]; there
    are 161 y values, and x and y zipped back are the curve stored in
    [error_rate] under that label.  The run ends with [xlim], [xlabel],
    [ylabel], [legend] and [show], in that order. *)
Theorem plotted_curves_fit_the_axis h ns tr :
  run h (plot_ensemble_oob oob_score_) = (Ok ns, tr) ->
  map (fun p : list Z * list Q * string => snd p) (plot_log tr)
    = map fst (ensemble_clfs Model) /\
  Forall (fun p : list Z * list Q * string =>
            fst (fst p) = range 15 176 /\
            Forall (fun x => min_estimators <= x <= max_estimators)
                   (fst (fst p)) /\
            List.length (snd (fst p)) = 161%nat /\
            od_get (snd p) (error_rate ns)
              = Some (combine (fst (fst p)) (snd (fst p))))
         (plot_log tr) /\
  exists pre,
    tr = pre ++ [Ev (PltXlim min_estimators max_estimators) (Ok tt);
                 Ev (PltXlabel "n_estimators") (Ok tt);
                 Ev (PltYlabel "OOB error rate") (Ok tt);
                 Ev (PltLegend "upper right") (Ok tt);
                 Ev PltShow (Ok tt)] /\
    plot_log pre = plot_log tr.
Proof.
  intros Hrun.
  pose proof Hrun as Hplot. apply notebook_facts in Hplot.
  destruct Hplot as (_ & _ & Hplot).
  apply notebook_ok in Hrun.
  destruct Hrun as (answers & Hlen & Hsc & Htr & Her).
  destruct answers as [ | [ms1 qs1] [ | [ms2 qs2] [ | [ms3 qs3] [ | ]]]];
    try discriminate.
  inversion Hsc as [ | ? ? (_ & Hq1 & _) Hsc' ]; subst.
  inversion Hsc' as [ | ? ? (_ & Hq2 & _) Hsc'' ]; subst.
  inversion Hsc'' as [ | ? ? (_ & Hq3 & _) _ ]; subst.
  cbn [fst snd] in *.
  assert (Hrange : Forall (fun x => min_estimators <= x <= max_estimators)
                          sizes).
  { apply Forall_forall. intros x Hx. apply range_In in Hx.
    unfold min_estimators, max_estimators in *. lia. }
  split; [ | split ].
  - rewrite Hplot, Her. reflexivity.
  - rewrite Hplot, Her. unfold sweep_curves, ensemble_clfs.
    cbn [combine map fst snd].
    destruct (@plotted_curve
                "RandomForestClassifier, max_features='sqrt'" qs1 Hq1)
      as (ys1 & -> & Hl1 & Hc1).
    destruct (@plotted_curve
                "RandomForestClassifier, max_features='log2'" qs2 Hq2)
      as (ys2 & -> & Hl2 & Hc2).
    destruct (@plotted_curve
                "RandomForestClassifier, max_features=None" qs3 Hq3)
      as (ys3 & -> & Hl3 & Hc3).
    repeat (apply Forall_cons;
            [ cbn [fst snd]; split; [ reflexivity | ];
              split; [ exact Hrange | ]; split; [ assumption | ];
              cbn [od_get String.eqb Ascii.eqb Bool.eqb];
              f_equal; symmetry; assumption | ]).
    apply Forall_nil.
  - exists (Ev (Print (RText __doc__)) (Ok tt)
            :: Ev (MakeClassification (Model := Model) dataset_args)
                  (Ok (oob_X ns, oob_y ns))
            :: sweep_events (oob_X ns) (oob_y ns)
                 [(ms1, qs1); (ms2, qs2); (ms3, qs3)]
               ++ map (fun lc : string * curve =>
                         Ev (PltPlot (fst (List.split (snd lc)))
                                     (snd (List.split (snd lc))) (fst lc))
                            (Ok tt))
                      (error_rate ns)).
    unfold plot_events. rewrite !app_comm_cons, !app_assoc.
    split; [ reflexivity | ].
    rewrite (plot_log_app _ [_; _; _; _; _]). cbn [plot_log].
    rewrite app_nil_r. reflexivity.
Qed.

(** ** The calls of the second notebook *)

Lemma proba_log_app tr1 tr2 :
  proba_log (tr1 ++ tr2) = proba_log tr1 ++ proba_log tr2.
Proof.
  induction tr1 as [ | [X op r] tr1 IH]; simpl; auto.
  destruct op; simpl; rewrite ?IH; reflexivity.
Qed.

Lemma auroc_log_app tr1 tr2 :
  auroc_log (tr1 ++ tr2) = auroc_log tr1 ++ auroc_log tr2.
Proof.
  induction tr1 as [ | [X op r] tr1 IH]; simpl; auto.
  destruct op; simpl; rewrite ?IH; reflexivity.
Qed.

Lemma second_column_ok probs qs :
  second_column probs = Ok qs ->
  qs = map (fun p => nth 1 p 0%Q) probs /\
  Forall (fun p => (2 <= List.length p)%nat) probs.
Proof.
  revert qs. induction probs as [ | p probs IH]; cbn [second_column];
    intros qs H.
  - inversion H. auto.
  - destruct p as [ | a [ | b p]]; cbn [nth_error] in H; try discriminate.
    destruct (second_column probs) as [qs' | ]; [ | discriminate ].
    inversion H; subst. destruct (IH qs' eq_refl) as [-> Hall].
    split; [ reflexivity | ]. constructor; auto. simpl. lia.
Qed.

(** X6. An AUROC is computed for the support-vector classifier and for the
    random forest only, never for the logistic regression: a completed run
    calls [predict_proba] exactly twice, on the fitted SVC and on the fitted
    forest, each on the features it was trained on, and [roc_auc_score]
    exactly twice, each time with the labels of [df] and the second entry
    (the probability of class 1) of every row [predict_proba] returned. *)
Theorem auroc_only_for_svc_and_forest h ns tr :
  run h soge2 = (Ok ns, tr) ->
  exists X y pr3 pr4,
    training_set (df (soge_frames ns)) = Ok (X, y) /\
    proba_log tr = [(clf_3 ns, X); (clf_4 ns, X)] /\
    cls (clf_3 ns) = "SVC"%string /\
    cls (clf_4 ns) = "RandomForestClassifier"%string /\
    In (Ev (PredictProba (clf_3 ns) X) (Ok pr3)) tr /\
    In (Ev (PredictProba (clf_4 ns) X) (Ok pr4)) tr /\
    auroc_log tr = [(y, map (fun p => nth 1 p 0%Q) pr3);
                    (y, map (fun p => nth 1 p 0%Q) pr4)].
Proof.
  intros Hrun. apply soge2_cells in Hrun.
  destruct Hrun as (df0 & tr_up & yu & Xu & y & X & Hread & Hup & Hu & Hd
                    & m1 & p1 & u1 & a1 & m3 & p3 & u3 & a3 & pr3 & sc3 & auc3
                    & m4 & p4 & u4 & a4 & pr4 & sc4 & auc4
                    & E1 & E3 & E4 & Hs3 & Hs4 & ->).
  apply soge_upsample_ok in Hup.
  destruct Hup as (b0 & b & bu & c1 & c2 & _ & _ & _ & _ & _ & _ & _ & _ & ->).
  apply second_column_ok in Hs3. destruct Hs3 as [-> _].
  apply second_column_ok in Hs4. destruct Hs4 as [-> _].
  exists X, y, pr3, pr4. rewrite E3, E4.
  split; [ exact Hd | ].
  split; [ reflexivity | ]. split; [ reflexivity | ].
  split; [ reflexivity | ].
  split.
  { apply in_or_app. right. apply in_or_app. right. apply in_or_app. right.
    apply in_or_app. left. apply in_or_app. right. left. reflexivity. }
  split.
  { apply in_or_app. right. apply in_or_app. right. apply in_or_app. right.
    apply in_or_app. right. apply in_or_app. right. left. reflexivity. }
  reflexivity.
Qed.

Lemma soge_upsample_seeded h df0 :
  issues h (fun ev : event Model => external_call ev = false)
         (fun _ => True) (soge_upsample df0).
Proof.
  unfold soge_upsample.
  repeat (cbn [issues pbind bind Monad_prog call ret lift];
          match goal with
          | |- True => exact I
          | |- _ /\ _ => split
          | |- forall _, _ => intro
          | |- external_call _ = false => reflexivity
          | |- context [lift ?r] => destruct r eqn:?
          end).
Qed.

(** X15. The data preparation of the second notebook is reproducible.
    [resample] is called with [random_state=123] and cells 2 and 3 make no
    other randomised call, so two runs against libraries that agree on
    seeded and on non-randomised calls, and that read the same from the
    file, go through cells 2 and 3 with the same calls and the same answers,
    ending in the same frames or in the same exception.  Two such runs that
    complete have built the same five frames and hand each of the three
    classifiers the same training set. *)
Theorem soge2_upsampling_reproducible h1 h2 :
  same_library h1 h2 ->
  h1 _ (ReadCsv data_path data_names) = h2 _ (ReadCsv data_path data_names) ->
  kw_get "random_state" resample_args = Some (PInt 123) /\
  run h1 (df0 <- soge_read ;; soge_upsample df0)
  = run h2 (df0 <- soge_read ;; soge_upsample df0) /\
  forall ns1 tr1 ns2 tr2,
    run h1 soge2 = (Ok ns1, tr1) ->
    run h2 soge2 = (Ok ns2, tr2) ->
    soge_frames ns1 = soge_frames ns2 /\
    map (fun f => (fit_clf f, fit_X f, fit_y f)) (fit_log tr1)
    = map (fun f => (fit_clf f, fit_X f, fit_y f)) (fit_log tr2).
Proof.
  intros Hsame Hread.
  assert (Hup : forall df0,
             run h1 (soge_upsample df0) = run h2 (soge_upsample df0)).
  { intros df0. eapply issues_same_run; [ exact Hsame | ].
    apply soge_upsample_seeded. }
  assert (Hrd : run h1 soge_read = run h2 soge_read).
  { unfold soge_read. cbn [bind ret Monad_prog pbind call run].
    rewrite <- Hread.
    destruct (h1 _ (ReadCsv data_path data_names)) as [df0 | e];
      [ | reflexivity ].
    rewrite <- (Hsame _ (Display (RFrame (head df0))) eq_refl).
    reflexivity. }
  split; [ reflexivity | ]. split.
  { cbn [bind Monad_prog]. rewrite !run_bind, Hrd.
    destruct (run h2 soge_read) as [[df0 | e] t]; [ | reflexivity ].
    rewrite Hup. reflexivity. }
  intros ns1 tr1 ns2 tr2 H1 H2.
  apply soge2_cells in H1.
  destruct H1 as (df1 & tu1 & yu1 & Xu1 & y1 & X1 & Hr1 & Hu1 & Htu1 & Htd1
                  & m1 & p1 & u1 & a1 & m3 & p3 & u3 & a3 & pr3 & sc3 & auc3
                  & m4 & p4 & u4 & a4 & pr4 & sc4 & auc4
                  & _ & _ & _ & _ & _ & ->).
  apply soge2_cells in H2.
  destruct H2 as (df2 & tu2 & yu2 & Xu2 & y2 & X2 & Hr2 & Hu2 & Htu2 & Htd2
                  & n1 & q1 & v1 & b1 & n3 & q3 & v3 & b3 & qr3 & tc3 & buc3
                  & n4 & q4 & v4 & b4 & qr4 & tc4 & buc4
                  & _ & _ & _ & _ & _ & ->).
  assert (Edf : df1 = df2) by congruence. subst df2.
  rewrite Hup, Hu2 in Hu1. inversion Hu1 as [[Efr Etr]].
  assert (Hn1 : fit_log tu1 = []).
  { rewrite <- Etr. pose proof Hu2 as Hn. apply fit_log_upsample in Hn.
    apply Hn. }
  pose proof Hu2 as Hn2. apply fit_log_upsample in Hn2.
  destruct Hn2 as (Hn2 & _).
  split; [ congruence | ].
  assert (EXu : (Xu1, yu1) = (Xu2, yu2)) by congruence.
  assert (EX : (X1, y1) = (X2, y2)) by congruence.
  inversion EXu; inversion EX; subst.
  rewrite !fit_log_app, Hn1. reflexivity.
Qed.

End Further.

(** * The further properties on runs against the toy library *)

Lemma failed (Model A : Type) (x : result A * list (event Model)) e :
  outcome (fst x) = Some e -> exists tr, x = (Err e, tr).
Proof.
  destruct x as [[a | e'] tr]; simpl; intros H; [ discriminate | ].
  inversion H; subst. exists tr. reflexivity.
Qed.

Lemma second_column_spec_witness :
  second_column [[1 # 3; 2 # 3]; [1 # 2; 1 # 2]]%Q = Ok [2 # 3; 1 # 2]%Q /\
  Exists (fun p => (List.length p < 2)%nat) [[1 # 3; 2 # 3]; [1 # 1]]%Q.
Proof.
  split.
  - apply (proj1 (second_column_spec [[1 # 3; 2 # 3]; [1 # 2; 1 # 2]]%Q)).
    repeat constructor.
  - apply (proj2 (proj2 (second_column_spec [[1 # 3; 2 # 3]; [1 # 1]]%Q))
             IndexError).
    reflexivity.
Defined.

Lemma unzip_curve_round_trip_witness :
  combine [15; 16] [(1 # 2)%Q; (1 # 3)%Q]
  = [(15, (1 # 2)%Q); (16, (1 # 3)%Q)].
Proof.
  apply (proj1 (unzip_curve_round_trip [(15, (1 # 2)%Q); (16, (1 # 3)%Q)])
           [15; 16] [(1 # 2)%Q; (1 # 3)%Q]).
  reflexivity.
Defined.

Lemma majority_minority_partition_witness :
  read_csv_contract Toy.lib /\
  @Toy.lib _ (ReadCsv data_path data_names) = Ok Toy.raw /\
  exists ns tr,
    run Toy.lib soge2 = (Ok ns, tr) /\
    (List.length (values (df_majority (soge_frames ns)))
     + List.length (values (df_minority (soge_frames ns))))%nat
    = List.length Toy.balance_scale.
Proof.
  assert (Hread : @Toy.lib _ (ReadCsv data_path data_names) = Ok Toy.raw)
    by (vm_compute; reflexivity).
  split; [ apply toy_read_csv_contract | ]. split; [ exact Hread | ].
  destruct (@completed Toy.model _ (run Toy.lib soge2)) as (ns & tr & E);
    [ vm_compute; reflexivity | ].
  exists ns, tr. split; [ exact E | ].
  destruct (@majority_minority_partition Toy.model Toy.lib ns tr Toy.raw
              (@toy_read_csv_contract Toy.disk 0) E Hread)
    as (_ & _ & _ & H & _).
  exact H.
Defined.

Lemma upsampled_class_counts_witness :
  read_csv_contract Toy.lib /\ resample_contract Toy.lib /\
  @Toy.lib _ (ReadCsv data_path data_names) = Ok Toy.raw /\
  exists ns tr,
    run Toy.lib soge2 = (Ok ns, tr) /\
    exists balance_up,
      get_column (df_upsampled (soge_frames ns)) "balance" = Ok balance_up /\
      count_label 1 balance_up = 576%nat.
Proof.
  assert (Hread : @Toy.lib _ (ReadCsv data_path data_names) = Ok Toy.raw)
    by (vm_compute; reflexivity).
  split; [ apply toy_read_csv_contract | ].
  split; [ apply toy_resample_contract | ]. split; [ exact Hread | ].
  destruct (@completed Toy.model _ (run Toy.lib soge2)) as (ns & tr & E);
    [ vm_compute; reflexivity | ].
  exists ns, tr. split; [ exact E | ].
  destruct (@upsampled_class_counts Toy.model Toy.lib ns tr Toy.raw
              (@toy_read_csv_contract Toy.disk 0)
              (@toy_resample_contract Toy.disk 0) E Hread)
    as (bu & H1 & H2 & _).
  exists bu. auto.
Defined.

Lemma upsampling_needs_a_minority_row_witness :
  resample_contract Toy.lib /\
  @Toy.lib _ (ReadCsv data_path data_names) = Ok Toy.raw /\
  columns Toy.raw = data_names /\ well_formed Toy.raw /\
  exists ns tr,
    run Toy.lib soge2 = (Ok ns, tr) /\
    Exists (fun r => is_B r = true) (values Toy.raw).
Proof.
  assert (Hread : @Toy.lib _ (ReadCsv data_path data_names) = Ok Toy.raw)
    by (vm_compute; reflexivity).
  assert (Hwf : well_formed Toy.raw)
    by (apply (@toy_read_csv_contract Toy.disk 0 _ _ _ Hread)).
  split; [ apply toy_resample_contract | ]. split; [ exact Hread | ].
  split; [ reflexivity | ]. split; [ exact Hwf | ].
  destruct (@completed Toy.model _ (run Toy.lib soge2)) as (ns & tr & E);
    [ vm_compute; reflexivity | ].
  exists ns, tr. split; [ exact E | ].
  apply (proj1 (@upsampling_needs_a_minority_row Toy.model Toy.lib Toy.raw
                  (@toy_resample_contract Toy.disk 0) Hread eq_refl Hwf)
           ns tr E).
Defined.

Lemma svc_and_forest_train_on_file_rows_witness :
  read_csv_contract Toy.lib /\
  @Toy.lib _ (ReadCsv data_path data_names) = Ok Toy.raw /\
  exists ns tr,
    run Toy.lib soge2 = (Ok ns, tr) /\
    drop (df (soge_frames ns)) "balance"
    = Ok {| columns := ["var1"; "var2"; "var3"; "var4"]%string;
            values := map (@tl cell) Toy.balance_scale |}.
Proof.
  assert (Hread : @Toy.lib _ (ReadCsv data_path data_names) = Ok Toy.raw)
    by (vm_compute; reflexivity).
  split; [ apply toy_read_csv_contract | ]. split; [ exact Hread | ].
  destruct (@completed Toy.model _ (run Toy.lib soge2)) as (ns & tr & E);
    [ vm_compute; reflexivity | ].
  exists ns, tr. split; [ exact E | ].
  destruct (@svc_and_forest_train_on_file_rows Toy.model Toy.lib ns tr Toy.raw
              (@toy_read_csv_contract Toy.disk 0) E Hread)
    as (H & _).
  exact H.
Defined.

Lemma logistic_trains_on_upsampled_rows_witness :
  read_csv_contract Toy.lib /\ resample_contract Toy.lib /\
  @Toy.lib _ (ReadCsv data_path data_names) = Ok Toy.raw /\
  exists ns tr,
    run Toy.lib soge2 = (Ok ns, tr) /\
    List.length (values (df_minority_upsampled (soge_frames ns))) = 576%nat.
Proof.
  assert (Hread : @Toy.lib _ (ReadCsv data_path data_names) = Ok Toy.raw)
    by (vm_compute; reflexivity).
  split; [ apply toy_read_csv_contract | ].
  split; [ apply toy_resample_contract | ]. split; [ exact Hread | ].
  destruct (@completed Toy.model _ (run Toy.lib soge2)) as (ns & tr & E);
    [ vm_compute; reflexivity | ].
  exists ns, tr. split; [ exact E | ].
  destruct (@logistic_trains_on_upsampled_rows Toy.model Toy.lib ns tr Toy.raw
              (@toy_read_csv_contract Toy.disk 0)
              (@toy_resample_contract Toy.disk 0) E Hread)
    as (H & _).
  exact H.
Defined.

Lemma auroc_only_for_svc_and_forest_witness :
  exists ns tr,
    run Toy.lib soge2 = (Ok ns, tr) /\
    List.length (auroc_log tr) = 2%nat /\ List.length (proba_log tr) = 2%nat.
Proof.
  destruct (@completed Toy.model _ (run Toy.lib soge2)) as (ns & tr & E);
    [ vm_compute; reflexivity | ].
  exists ns, tr. split; [ exact E | ].
  destruct (@auroc_only_for_svc_and_forest Toy.model Toy.lib ns tr E)
    as (X & y & pr3 & pr4 & _ & Hp & _ & _ & _ & _ & Ha).
  rewrite Hp, Ha. split; reflexivity.
Defined.

Lemma soge2_upsampling_reproducible_witness :
  same_library (Toy.library Toy.disk 1) (Toy.library Toy.disk 2) /\
  run (Toy.library Toy.disk 1) (df0 <- soge_read ;; soge_upsample df0)
  = run (Toy.library Toy.disk 2) (df0 <- soge_read ;; soge_upsample df0).
Proof.
  split; [ apply toy_same_library | ].
  apply (proj1 (proj2
           (@soge2_upsampling_reproducible Toy.model
              (Toy.library Toy.disk 1) (Toy.library Toy.disk 2)
              (@toy_same_library Toy.disk Toy.disk 1 2) eq_refl))).
Defined.

Lemma soge2_failures_come_from_the_library_witness :
  read_csv_contract Toy.lib /\ read_csv_contract Toy.offline /\
  run Toy.lib (soge2_notebook Toy.without_plot_curve)
  = (Err ImportError, []) /\
  ((exists pre (ev : event Toy.model),
       [] = pre ++ [ev] /\ raised ev = Some ImportError)
   \/ ImportError = ImportError \/ ImportError = IndexError) /\
  run Toy.offline (soge2_notebook Toy.everything) = run Toy.offline soge2.
Proof.
  assert (E : run Toy.lib (soge2_notebook Toy.without_plot_curve)
              = (Err ImportError, [])) by (vm_compute; reflexivity).
  assert (E' : run Toy.offline (soge2_notebook Toy.everything)
               = (Err FileNotFoundError,
                  [Ev (ReadCsv data_path data_names)
                      (Err FileNotFoundError)]))
    by (vm_compute; reflexivity).
  split; [ apply toy_read_csv_contract | ].
  split; [ apply toy_read_csv_contract | ]. split; [ exact E | ].
  split.
  - apply (proj1 (@soge2_failures_come_from_the_library Toy.model
                    Toy.without_plot_curve Toy.lib ImportError []
                    (@toy_read_csv_contract Toy.disk 0) E)).
  - apply (proj2 (@soge2_failures_come_from_the_library Toy.model
                    Toy.everything Toy.offline FileNotFoundError _
                    (@toy_read_csv_contract Toy.empty_disk 1) E')).
    reflexivity.
Defined.

Lemma oob_failures_come_from_the_library_witness :
  exists tr,
    run (Toy.bounded 100) (plot_ensemble_oob Toy.oob_score_)
    = (Err (LibraryError "MemoryError"), tr) /\
    ((exists pre ev, tr = pre ++ [ev] /\
                     raised ev = Some (LibraryError "MemoryError"))
     \/ LibraryError "MemoryError" = AttributeError).
Proof.
  destruct (@failed Toy.model _
              (run (Toy.bounded 100) (plot_ensemble_oob Toy.oob_score_))
              (LibraryError "MemoryError"))
    as (tr & E); [ vm_compute; reflexivity | ].
  exists tr. split; [ exact E | ].
  apply (proj1 (@oob_failures_come_from_the_library Toy.model Toy.oob_score_
                  (Toy.bounded 100) (LibraryError "MemoryError") tr E)).
Defined.

Lemma plots_need_the_whole_sweep_witness :
  existsb (@is_plot Toy.model)
          (snd (run Toy.lib (plot_ensemble_oob Toy.oob_score_))) = true /\
  existsb (@is_plot Toy.model)
          (snd (run (Toy.bounded 100) (plot_ensemble_oob Toy.oob_score_)))
    = false /\
  exists ns t,
    run Toy.lib (oob_sweep Toy.oob_score_) = (Ok ns, t) /\
    List.length (error_rate ns) = 3%nat.
Proof.
  assert (H : existsb (@is_plot Toy.model)
                (snd (run Toy.lib (plot_ensemble_oob Toy.oob_score_))) = true)
    by (vm_compute; reflexivity).
  split; [ exact H | ]. split; [ vm_compute; reflexivity | ].
  destruct (@plots_need_the_whole_sweep Toy.model Toy.oob_score_ Toy.lib H)
    as (ns & t & E & _ & Hlen & _).
  exists ns, t. auto.
Defined.

Lemma sweep_changes_only_n_estimators_witness :
  exists ns tr,
    run Toy.lib (plot_ensemble_oob Toy.oob_score_) = (Ok ns, tr) /\
    fit_log tr
    = fits_of (forest Toy.model 0) tr ++ fits_of (forest Toy.model 1) tr
      ++ fits_of (forest Toy.model 2) tr.
Proof.
  destruct (@completed Toy.model _
              (run Toy.lib (plot_ensemble_oob Toy.oob_score_)))
    as (ns & tr & E); [ vm_compute; reflexivity | ].
  exists ns, tr. split; [ exact E | ].
  apply (proj1 (proj2 (@sweep_changes_only_n_estimators Toy.model
                         Toy.oob_score_ Toy.lib ns tr E))).
Defined.

Lemma plotted_curves_fit_the_axis_witness :
  exists ns tr,
    run Toy.lib (plot_ensemble_oob Toy.oob_score_) = (Ok ns, tr) /\
    map (fun p : list Z * list Q * string => snd p) (plot_log tr)
    = map fst (ensemble_clfs Toy.model).
Proof.
  destruct (@completed Toy.model _
              (run Toy.lib (plot_ensemble_oob Toy.oob_score_)))
    as (ns & tr & E); [ vm_compute; reflexivity | ].
  exists ns, tr. split; [ exact E | ].
  apply (proj1 (@plotted_curves_fit_the_axis Toy.model Toy.oob_score_
                  Toy.lib ns tr E)).
Defined.
